(** * The training-set cleaner of nettrom/assessments

    A shallow embedding of [clean-training-set.py] and [revisions.py]:
    the assessment template finder, the revert test, the batched
    revision fetch, the backward scan of [clean_article] and the loop
    of [clean_training_set] that writes the cleaned rows.

    Conventions.
    - Page ids, revision ids and timestamps are [Z]; a MediaWiki
      timestamp is a 14-digit string whose order is the numeric one.
    - Python's [None] is [option]'s [None]; a dictionary with fixed keys
      is a record; the [set] of checksums is a [gset string].
    - A [string] is a [unicode] object of characters up to U+00FF, one
      [ascii] for each character.
    - The relational store is a snapshot [database]; the outcome of each
      [cursor.execute] is drawn from a schedule of faults carried by the
      connection, so a query can succeed or raise any MySQLdb error.
    - Exceptions are values of [exn]; a computation that can touch the
      connection has type [M A]. *)

From stdpp Require Import gmap strings list sorting.
From Stdlib Require Import ZArith Ascii String Lia.

Local Open Scope string_scope.
Local Open Scope Z_scope.

(** ** Python's [unicode] strings

    A [string] stands for a [unicode] object whose characters lie in
    U+0000..U+00FF: each [ascii] is one character, its code point.  So
    [len(s)] is [String.length s] and a slice takes characters. *)

Module PyStr.

(** The characters with a lower-case form: A-Z, and U+00C0..U+00D6 and
    U+00D8..U+00DE of the Latin-1 letters *)
Definition is_upper (a : ascii) : bool :=
  let n := nat_of_ascii a in
  ((65 <=? n)%nat && (n <=? 90)%nat)
  || ((192 <=? n)%nat && (n <=? 214)%nat)
  || ((216 <=? n)%nat && (n <=? 222)%nat).

(** The lower-case form of a character, 32 code points further *)
Definition lower_char (a : ascii) : ascii :=
  if is_upper a then ascii_of_nat (nat_of_ascii a + 32) else a.

(** [s.lower()] *)
Fixpoint lower (s : string) : string :=
  match s with
  | EmptyString => EmptyString
  | String a s' => String (lower_char a) (lower s')
  end.

(** [ch.isspace()], the characters that [strip()] and [split()] take
    for white space: tab, line feed, vertical tab, form feed, carriage
    return, the separators U+001C..U+001F, space, U+0085 and U+00A0 *)
Definition is_space (a : ascii) : bool :=
  let n := nat_of_ascii a in
  (n =? 32)%nat || ((9 <=? n)%nat && (n <=? 13)%nat)
  || ((28 <=? n)%nat && (n <=? 31)%nat)
  || (n =? 133)%nat || (n =? 160)%nat.

Fixpoint lstrip (s : string) : string :=
  match s with
  | EmptyString => EmptyString
  | String a s' => if is_space a then lstrip s' else s
  end.

(** [rstrip] keeps a character when something that is not white space
    follows it or when it is not white space itself *)
Fixpoint rstrip (s : string) : string :=
  match s with
  | EmptyString => EmptyString
  | String a s' =>
      match rstrip s' with
      | EmptyString => if is_space a then EmptyString else String a EmptyString
      | t => String a t
      end
  end.

(** [s.strip()] *)
Definition strip (s : string) : string := rstrip (lstrip s).

(** [s[:n]] *)
Fixpoint take (n : nat) (s : string) : string :=
  match n, s with
  | O, _ => EmptyString
  | _, EmptyString => EmptyString
  | S n', String a s' => String a (take n' s')
  end.

(** The class [\s] of [re] when the flag [re.UNICODE] is not given:
    space, tab, line feed, vertical tab, form feed, carriage return *)
Definition is_re_space (a : ascii) : bool :=
  let n := nat_of_ascii a in
  (n =? 32)%nat || ((9 <=? n)%nat && (n <=? 13)%nat).

(** The lowering that [re.I] applies without [re.UNICODE]: A-Z only *)
Definition lower_ascii (a : ascii) : ascii :=
  let n := nat_of_ascii a in
  if (65 <=? n)%nat && (n <=? 90)%nat then ascii_of_nat (n + 32) else a.

(** [re.match(p + '\s+', s, re.I)] for a literal lower-case [p]: the
    subject starts with [p] in any case, followed by white space *)
Fixpoint match_word_space (p s : string) : bool :=
  match p, s with
  | EmptyString, String a _ => is_re_space a
  | EmptyString, EmptyString => false
  | String _ _, EmptyString => false
  | String x p', String a s' =>
      if Ascii.eqb x (lower_ascii a) then match_word_space p' s' else false
  end.

End PyStr.

(** ** The relational store *)

Record revision_row := {
  rev_id : Z;
  rev_page : Z;
  rev_timestamp : Z;
  rev_sha1 : string
}.

Record page_row := {
  page_id : Z;
  page_namespace : Z;
  page_title : string;
  page_latest : Z
}.

Record database := {
  revision : list revision_row;
  page : list page_row
}.

(** [ORDER BY rev_timestamp ASC]: a stable insertion sort, so rows with
    equal timestamps keep the order of the table. *)
Fixpoint insert_asc (r : revision_row) (l : list revision_row) : list revision_row :=
  match l with
  | [] => [r]
  | x :: l' =>
      if rev_timestamp r <? rev_timestamp x then r :: x :: l'
      else x :: insert_asc r l'
  end.

Definition order_asc (l : list revision_row) : list revision_row :=
  foldr insert_asc [] l.

(** [ORDER BY rev_timestamp DESC] *)
Fixpoint insert_desc (r : revision_row) (l : list revision_row) : list revision_row :=
  match l with
  | [] => [r]
  | x :: l' =>
      if rev_timestamp x <? rev_timestamp r then r :: x :: l'
      else x :: insert_desc r l'
  end.

Definition order_desc (l : list revision_row) : list revision_row :=
  foldr insert_desc [] l.

(** A comparison with SQL [NULL] selects no row: query parameters that
    Python may pass as [None] are [option Z]. *)
Definition sql_eq (x : Z) (p : option Z) : bool :=
  match p with Some v => x =? v | None => false end.

Definition sql_lt (x : Z) (p : option Z) : bool :=
  match p with Some v => x <? v | None => false end.

Definition sql_gt (x : Z) (p : option Z) : bool :=
  match p with Some v => v <? x | None => false end.

(** [(SELECT rev_timestamp FROM revision WHERE rev_id = ...)]; [rev_id]
    is the primary key of the table, the first row is the only one. *)
Definition timestamp_of (db : database) (revid : option Z) : option Z :=
  match List.filter (fun r => sql_eq (rev_id r) revid) (revision db) with
  | r :: _ => Some (rev_timestamp r)
  | [] => None
  end.

Module Query.

(** [cur_query] of [is_reverted]: rows [(rev_timestamp, rev_page)] *)
Definition cur_query (db : database) (revid : Z) : list (Z * Z) :=
  List.map (fun r => (rev_timestamp r, rev_page r))
    (List.filter (fun r => rev_id r =? revid) (revision db)).

(** [past_query]: the checksums of the [k] revisions before the time *)
Definition past_query (db : database) (pageid timestamp : option Z) (k : nat)
  : list string :=
  List.map rev_sha1
    (firstn k (order_desc
       (List.filter (fun r => sql_eq (rev_page r) pageid
                              && sql_lt (rev_timestamp r) timestamp)
          (revision db)))).

(** [fut_query]: the checksums of the [k] revisions after the time *)
Definition fut_query (db : database) (pageid timestamp : option Z) (k : nat)
  : list string :=
  List.map rev_sha1
    (firstn k (order_asc
       (List.filter (fun r => sql_eq (rev_page r) pageid
                              && sql_gt (rev_timestamp r) timestamp)
          (revision db)))).

(** [latest_query]: rows [(art_id, talk_id, art_latest, talk_latest)]
    of [page ap JOIN page tp USING (page_title)] *)
Definition latest_query (db : database) (pageid : Z) : list (Z * Z * Z * Z) :=
  flat_map (fun ap =>
    flat_map (fun tp =>
      if String.eqb (page_title ap) (page_title tp)
         && (page_namespace tp =? 1) && (page_id ap =? pageid)
      then [(page_id ap, page_id tp, page_latest ap, page_latest tp)]
      else [])
    (page db))
  (page db).

(** [tp_revquery]: rows [(rev_id, rev_timestamp)], newest first *)
Definition tp_revquery (db : database) (talkpageid revid : option Z)
  : list (Z * Z) :=
  List.map (fun r => (rev_id r, rev_timestamp r))
    (order_desc
       (List.filter (fun r => sql_eq (rev_page r) talkpageid
                              && sql_lt (rev_timestamp r) (timestamp_of db revid))
          (revision db))).

(** [recent_revquery]: the last revision of the page before the talk
    page revision, rows [(rev_id, rev_timestamp)] *)
Definition recent_revquery (db : database) (pageid : Z) (tp_revid : Z)
  : list (Z * Z) :=
  List.map (fun r => (rev_id r, rev_timestamp r))
    (firstn 1 (order_desc
       (List.filter (fun r => (rev_page r =? pageid)
                              && sql_lt (rev_timestamp r)
                                   (timestamp_of db (Some tp_revid)))
          (revision db)))).

(** [next_revquery]: the first revision of the page after it *)
Definition next_revquery (db : database) (pageid : Z) (tp_revid : Z)
  : list (Z * Z) :=
  List.map (fun r => (rev_id r, rev_timestamp r))
    (firstn 1 (order_asc
       (List.filter (fun r => (rev_page r =? pageid)
                              && sql_gt (rev_timestamp r)
                                   (timestamp_of db (Some tp_revid)))
          (revision db)))).

End Query.

(** ** Exceptions, the connection and the monad of queries *)

(** The classes of [MySQLdb.Error] that a query can raise. Only
    [OperationalError] is the lost or gone connection. *)
Inductive mysql_error :=
  | OperationalError
  | ProgrammingError
  | IntegrityError
  | DataError
  | InternalError
  | NotSupportedError
  | InterfaceError.

Inductive exn :=
  | MySQLError (e : mysql_error)
  | KeyError.

(** [except MySQLdb.OperationalError] *)
Definition is_OperationalError (e : mysql_error) : bool :=
  match e with OperationalError => true | _ => false end.

(** [except MySQLdb.Error]: the base class, every error is one *)
Definition is_Error (e : mysql_error) : bool := true.

(** The connection: the faults the coming [execute] calls will meet
    ([None] and the end of the schedule are successes), whether [ping]
    finds the server, and counters of what was done with it. *)
Record conn := {
  faults : list (option mysql_error);
  alive : bool;
  executed : nat;
  reconnects : nat
}.

Inductive res (A : Type) :=
  | Ok (a : A)
  | Raise (e : exn).
Arguments Ok {A} a.
Arguments Raise {A} e.

Definition M (A : Type) : Type := conn -> res A * conn.

Definition ret {A} (a : A) : M A := fun c => (Ok a, c).

Definition raise {A} (e : exn) : M A := fun c => (Raise e, c).

Definition bind {A B} (m : M A) (k : A -> M B) : M B :=
  fun c => match m c with
           | (Ok a, c') => k a c'
           | (Raise e, c') => (Raise e, c')
           end.

Notation "'do' x <- m ; k" := (bind m (fun x => k))
  (at level 10, x name, m at level 100, k at level 200).

(** [self.dbcursor.execute(query, params)] followed by the rows the
    cursor then yields, or the error [execute] raised *)
Inductive fetched (A : Type) :=
  | Rows (rows : list A)
  | Fault (e : mysql_error).
Arguments Rows {A} rows.
Arguments Fault {A} e.

Definition execute {A} (rows : list A) (c : conn) : fetched A * conn :=
  let c' tl := {| faults := tl; alive := alive c;
                  executed := S (executed c); reconnects := reconnects c |} in
  match faults c with
  | [] => (Rows rows, c' [])
  | None :: tl => (Rows rows, c' tl)
  | Some e :: tl => (Fault e, c' tl)
  end.

(** [db.disconnect(...)] then [db.connect()] *)
Definition reconnect : M unit := fun c =>
  (Ok tt, {| faults := faults c; alive := true;
             executed := executed c; reconnects := S (reconnects c) |}).

(** [try: self.dbconn.ping() except: reconnect] *)
Definition ping_or_reconnect : M unit := fun c =>
  if alive c then (Ok tt, c) else reconnect c.

(** [self.db_attempts] *)
Definition db_attempts : nat := 3.

(** ** The retry loop of every query site

    [while attempts < self.db_attempts: try: ... except E: attempts += 1;
    reconnect  else: break].  The body of the [try] works on the local
    variables [L] of its site and keeps what it assigned before an
    [execute] raised.  [catches] is the class the site's [except] names;
    an error outside it leaves the loop as an exception. *)

Inductive attempt :=
  | Completed                (* the [else: break] *)
  | Broke                    (* a [break] inside the [try] *)
  | Failed (e : mysql_error) (* [execute] raised *).

Definition try_body (L : Type) : Type := L -> conn -> (L * attempt) * conn.

Fixpoint retry {L} (catches : mysql_error -> bool) (body : try_body L)
    (budget attempts : nat) (l : L) (c : conn) : (L * res nat) * conn :=
  match budget with
  | O => ((l, Ok attempts), c)
  | S budget' =>
      match body l c with
      | ((l', Completed), c') => ((l', Ok attempts), c')
      | ((l', Broke), c') => ((l', Ok attempts), c')
      | ((l', Failed e), c') =>
          if catches e
          then retry catches body budget' (S attempts) l' (snd (reconnect c'))
          else ((l', Raise (MySQLError e)), c')
      end
  end.

(** Python's truth value of an optional number: [None] and [0] are false *)
Definition truthy (v : option Z) : bool :=
  match v with Some n => negb (n =? 0) | None => false end.

(** ** [AssessmentFinder.is_reverted] *)

Record revert_locals := {
  rl_pageid : option Z;
  rl_timestamp : option Z;
  prev_checksums : gset string;
  future_checksums : list string
}.

Definition revert_init : revert_locals :=
  {| rl_pageid := None; rl_timestamp := None;
     prev_checksums := ∅; future_checksums := [] |}.

(** [for row in self.dbcursor: pageid = row['rev_page']; timestamp = ...] *)
Definition assign_cur (l : revert_locals) (row : Z * Z) : revert_locals :=
  {| rl_pageid := Some (snd row); rl_timestamp := Some (fst row);
     prev_checksums := prev_checksums l;
     future_checksums := future_checksums l |}.

(** [prev_checksums.add(row['rev_sha1'])] *)
Definition add_prev (l : revert_locals) (sha : string) : revert_locals :=
  {| rl_pageid := rl_pageid l; rl_timestamp := rl_timestamp l;
     prev_checksums := {[ sha ]} ∪ prev_checksums l;
     future_checksums := future_checksums l |}.

(** [future_checksums.append(row['rev_sha1'])] *)
Definition append_future (l : revert_locals) (sha : string) : revert_locals :=
  {| rl_pageid := rl_pageid l; rl_timestamp := rl_timestamp l;
     prev_checksums := prev_checksums l;
     future_checksums := future_checksums l ++ [sha] |}.

Definition is_reverted_try (db : database) (revid : Z) (radius : nat)
  : try_body revert_locals := fun l c =>
  match execute (Query.cur_query db revid) c with
  | (Fault e, c1) => ((l, Failed e), c1)
  | (Rows rows, c1) =>
      let l1 := foldl assign_cur l rows in
      if negb (truthy (rl_pageid l1)) then ((l1, Broke), c1)
      else
        match execute (Query.past_query db (rl_pageid l1) (rl_timestamp l1) radius) c1 with
        | (Fault e, c2) => ((l1, Failed e), c2)
        | (Rows rows, c2) =>
            let l2 := foldl add_prev l1 rows in
            match execute (Query.fut_query db (rl_pageid l2) (rl_timestamp l2) radius) c2 with
            | (Fault e, c3) => ((l2, Failed e), c3)
            | (Rows rows, c3) => ((foldl append_future l2 rows, Completed), c3)
            end
        end
  end.

(** [while i < len(future_checksums): if future_checksums[i] in
    prev_checksums: return True; i += 1] and the final [return False] *)
Fixpoint walk_future (prev : gset string) (future : list string) : bool :=
  match future with
  | [] => false
  | sha :: rest => if decide (sha ∈ prev) then true else walk_future prev rest
  end.

(** The value is [Some True], [Some False] or Python's [None], which the
    bare [return] after the exhausted attempts gives. *)
Definition is_reverted (db : database) (revid : Z) (radius : nat)
  : M (option bool) := fun c =>
  match retry is_OperationalError (is_reverted_try db revid radius)
          db_attempts 0 revert_init c with
  | ((_, Raise e), c') => (Raise e, c')
  | ((l, Ok attempts), c') =>
      if (db_attempts <=? attempts)%nat then (Ok None, c')
      else (Ok (Some (walk_future (prev_checksums l) (future_checksums l))), c')
  end.

(** [radius=15], the default of the parameter *)
Definition default_radius : nat := 15.

(** ** [Assessment] and the template finder *)

Record Assessment := {
  rating : string;
  importance : option string;
  project : option string
}.

(** A template of the parsed wikitext, as [mwparserfromhell] gives it:
    its name and its parameters in the order written. *)
Record template := {
  temp_name : string;
  temp_params : list (string * string)
}.

(** [temp.has_param(key)]: some parameter's stripped name is [key] *)
Definition has_param (temp : template) (key : string) : bool :=
  existsb (fun p => String.eqb (PyStr.strip (fst p)) key) (temp_params temp).

(** [temp.get(key).value]: the last parameter of that name; [None] is
    the [ValueError] that [get] raises when there is none *)
Definition get (temp : template) (key : string) : option string :=
  match List.filter (fun p => String.eqb (PyStr.strip (fst p)) key)
          (rev (temp_params temp)) with
  | p :: _ => Some (snd p)
  | [] => None
  end.

(** [self.translations] *)
Definition translations : gmap string string :=
  {[ "maths rating" := "wikiproject mathematics" ]}.

(** [wp10_scale] *)
Definition wp10_scale : gmap string Z :=
  list_to_map [("stub", 0); ("start", 1); ("c", 2); ("b", 3);
               ("ga", 4); ("a", 5); ("fa", 6)].

(** The guard of the loop of [get_assessments] *)
Definition is_candidate (temp : template) : bool :=
  PyStr.match_word_space "wikiproject" (temp_name temp)
  || bool_decide (is_Some (translations !! temp_name temp))
  || has_param temp "class".

(** One turn of the loop: the assessment appended, or [None] when the
    template is passed over *)
Definition assess_template (temp : template) : option Assessment :=
  if is_candidate temp then
    let project := PyStr.lower (temp_name temp) in
    match get temp "class" with
    | None => None
    | Some v =>
        let rating := PyStr.lower (PyStr.strip v) in
        let importance :=
          if has_param temp "importance"
          then option_map (fun w => PyStr.lower (PyStr.strip w)) (get temp "importance")
          else None in
        Some {| rating := rating; importance := importance;
                project := Some project |}
    end
  else None.

Fixpoint collect_assessments (templates : list template) (assessments : list Assessment)
  : list Assessment :=
  match templates with
  | [] => assessments
  | temp :: rest =>
      match assess_template temp with
      | Some a => collect_assessments rest (assessments ++ [a])
      | None => collect_assessments rest assessments
      end
  end.

(** ** Talk page revisions and the content API *)

Record TPRevision := {
  tp_id : Z;
  tp_timestamp : Z;
  tp_content : option string
}.

(** What the API says of one revision; [star] is the entry ['*'] *)
Record api_revision := {
  api_revid : Z;
  star : option string
}.

Record api_page := {
  api_revisions : option (list api_revision)
}.

Record api_query := {
  pages : option (list (string * api_page))
}.

(** One response; [query] is its entry ['query'] *)
Record api_data := {
  query : option api_query
}.

(** The responses to one request and to its continuations: all but the
    last carry ['query-continue']. *)
Inductive api_reply :=
  | Final (data : api_data)
  | Continued (data : api_data) (next : api_reply).

(** [requestdata.update(data)], of which only ['query'] is read later *)
Definition update_requestdata (requestdata : option api_query) (data : api_data)
  : option api_query :=
  match query data with
  | Some q => Some q
  | None => requestdata
  end.

(** [while not query_done: data = req.submit(); ...] *)
Fixpoint submit_all (reply : api_reply) (requestdata : option api_query)
  : option api_query :=
  match reply with
  | Final data => update_requestdata requestdata data
  | Continued data next => submit_all next (update_requestdata requestdata data)
  end.

(** [revisions_map[revid].content = content].  The map is built from the
    list, so among revisions of one id it holds the last; [None] is the
    [KeyError] of an id that is not in the map. *)
Fixpoint set_content (revid : Z) (content : option string) (revisions : list TPRevision)
  : option (list TPRevision) :=
  match revisions with
  | [] => None
  | rev :: rest =>
      match set_content revid content rest with
      | Some rest' => Some (rev :: rest')
      | None =>
          if tp_id rev =? revid
          then Some ({| tp_id := tp_id rev; tp_timestamp := tp_timestamp rev;
                        tp_content := content |} :: rest)
          else None
      end
  end.

(** [for revision in pagedata['revisions']: ...] *)
Fixpoint store_revisions (revs : list api_revision) (revisions : list TPRevision)
  : res (list TPRevision) :=
  match revs with
  | [] => Ok revisions
  | revision :: rest =>
      match set_content (api_revid revision) (star revision) revisions with
      | None => Raise KeyError
      | Some revisions' => store_revisions rest revisions'
      end
  end.

(** [for pageid, pagedata in requestdata['query']['pages'].iteritems()] *)
Fixpoint store_pages (ps : list (string * api_page)) (revisions : list TPRevision)
  : res (list TPRevision) :=
  match ps with
  | [] => Ok revisions
  | (_, pagedata) :: rest =>
      match api_revisions pagedata with
      | None => store_pages rest revisions
      | Some [] => store_pages rest revisions
      | Some revs =>
          match store_revisions revs revisions with
          | Raise e => Raise e
          | Ok revisions' => store_pages rest revisions'
          end
      end
  end.

Section Finder.

(** [mwp.parse(rev_content).filter_templates()] *)
Variable filter_templates : string -> list template.

(** The content API of [self.site]: the responses to a request for
    the given revision ids *)
Variable site : list Z -> api_reply.

Variable db : database.

(** [AssessmentFinder.get_assessments] *)
Definition get_assessments (rev_content : string) : list Assessment :=
  collect_assessments (filter_templates rev_content) [].

(** [revisions.get_revisions]: the loop over slices of 10.  The list
    holds the revision objects, which the map shares. *)
Fixpoint get_revisions_loop (fuel i : nat) (revisions : list TPRevision)
  : res (list TPRevision) :=
  match fuel with
  | O => Ok revisions
  | S fuel' =>
      if (i <? List.length revisions)%nat then
        let id_subset := take 10 (drop i revisions) in
        match submit_all (site (List.map tp_id id_subset)) None with
        | None => Raise KeyError
        | Some q =>
            match pages q with
            | None => get_revisions_loop fuel' (i + 10) revisions
            | Some ps =>
                match store_pages ps revisions with
                | Raise e => Raise e
                | Ok revisions' => get_revisions_loop fuel' (i + 10) revisions'
                end
            end
        end
      else Ok revisions
  end.

Definition get_revisions (revisions : list TPRevision) : res (list TPRevision) :=
  get_revisions_loop (List.length revisions) 0 revisions.

(** ** [AssessmentFinder.clean_article] *)

(** The dictionary [articledata]; the page id is the number that the
    store reads from the column of the dataset. *)
Record articledata := {
  revid : option Z;
  pageid : Z;
  talkpageid : option Z;
  talkpagerev : option Z;
  class : string
}.

(** [for row in self.dbcursor: articledata['revid'] = ...] *)
Definition assign_latest (a : articledata) (row : Z * Z * Z * Z) : articledata :=
  let '(_, talk_id, art_latest, talk_latest) := row in
  {| revid := Some art_latest; pageid := pageid a;
     talkpageid := Some talk_id; talkpagerev := Some talk_latest;
     class := class a |}.

Definition latest_try : try_body articledata := fun a c =>
  match execute (Query.latest_query db (pageid a)) c with
  | (Fault e, c1) => ((a, Failed e), c1)
  | (Rows rows, c1) => ((foldl assign_latest a rows, Completed), c1)
  end.

(** [tp_revs.append(TPRevision(row['rev_id'], row['rev_timestamp']))] *)
Definition append_tp_rev (tp_revs : list TPRevision) (row : Z * Z) : list TPRevision :=
  tp_revs ++ [{| tp_id := fst row; tp_timestamp := snd row; tp_content := None |}].

Definition tp_revs_try (a : articledata) : try_body (list TPRevision) := fun tp_revs c =>
  match execute (Query.tp_revquery db (talkpageid a) (revid a)) c with
  | (Fault e, c1) => ((tp_revs, Failed e), c1)
  | (Rows rows, c1) => ((foldl append_tp_rev tp_revs rows, Completed), c1)
  end.

(** [for row in self.dbcursor: article_revision = row['rev_id']] *)
Definition assign_revision (article_revision : option Z) (row : Z * Z) : option Z :=
  Some (fst row).

Definition recent_try (a : articledata) (prev_tprevid : Z) : try_body (option Z) :=
  fun article_revision c =>
  match execute (Query.recent_revquery db (pageid a) prev_tprevid) c with
  | (Fault e, c1) => ((article_revision, Failed e), c1)
  | (Rows rows, c1) => ((foldl assign_revision article_revision rows, Completed), c1)
  end.

Definition next_try (a : articledata) (prev_tprevid : Z) : try_body (option Z) :=
  fun article_revision c =>
  match execute (Query.next_revquery db (pageid a) prev_tprevid) c with
  | (Fault e, c1) => ((article_revision, Failed e), c1)
  | (Rows rows, c1) => ((foldl assign_revision article_revision rows, Completed), c1)
  end.

(** [if len(revision.content) > 8*1024: revision.content = revision.content[:8*1024]];
    [len] and the slice count characters, one [ascii] each. *)
Definition truncate (content : string) : string :=
  if (8 * 1024 <? String.length content)%nat
  then PyStr.take (8 * 1024) content else content.

(** [for assessment in assessments: try: cur_idx.append(wp10_scale[...])
    except KeyError: continue] *)
Fixpoint map_ratings (assessments : list Assessment) (cur_idx : list Z) : list Z :=
  match assessments with
  | [] => cur_idx
  | assessment :: rest =>
      match wp10_scale !! rating assessment with
      | Some idx => map_ratings rest (cur_idx ++ [idx])
      | None => map_ratings rest cur_idx
      end
  end.

(** [max(cur_idx)] of a list with head [x] *)
Definition list_max (x : Z) (l : list Z) : Z := foldl Z.max x l.

(** Python's truth value of what [is_reverted] returns *)
Definition py_true (v : option bool) : bool :=
  match v with Some b => b | None => false end.

(** What one turn of [for revision in rev_subset] does to the scan:
    go on with a value of [prev_tprevid], or [done = True; break]. *)
Inductive turn :=
  | Next (prev_tprevid : Z)
  | Stop.

Definition assess_revision (start_idx : Z) (revision : TPRevision) (prev_tprevid : Z)
  : M turn :=
  match tp_content revision with
  | None => ret (Next prev_tprevid)
  | Some EmptyString => ret (Next prev_tprevid)
  | Some content =>
      match map_ratings (get_assessments (truncate content)) [] with
      | [] =>
          do reverted <- is_reverted db (tp_id revision) default_radius;
          if py_true reverted then ret (Next prev_tprevid) else ret Stop
      | x :: l =>
          let cur_idx := list_max x l in
          if cur_idx =? start_idx then ret (Next (tp_id revision))
          else ret Stop
      end
  end.

(** The [for] loop over one slice: the value of [prev_tprevid] and of
    [done] after it *)
Fixpoint assess_subset (start_idx : Z) (rev_subset : list TPRevision) (prev_tprevid : Z)
  : M (Z * bool) :=
  match rev_subset with
  | [] => ret (prev_tprevid, false)
  | revision :: rest =>
      do t <- assess_revision start_idx revision prev_tprevid;
      match t with
      | Next prev_tprevid' => assess_subset start_idx rest prev_tprevid'
      | Stop => ret (prev_tprevid, true)
      end
  end.

Definition slice_size : nat := 20.

(** [while i < len(tp_revs) and not done]; the content that
    [get_revisions] stores in the revisions of a slice is read in the
    turn of that slice only. *)
Fixpoint scan_loop (fuel i : nat) (start_idx : Z) (tp_revs : list TPRevision)
    (prev_tprevid : Z) : M Z :=
  match fuel with
  | O => ret prev_tprevid
  | S fuel' =>
      if (i <? List.length tp_revs)%nat then
        match get_revisions (take slice_size (drop i tp_revs)) with
        | Raise e => raise e
        | Ok rev_subset =>
            do r <- assess_subset start_idx rev_subset prev_tprevid;
            if snd r then ret (fst r)
            else scan_loop fuel' (i + slice_size) start_idx tp_revs (fst r)
        end
      else ret prev_tprevid
  end.

Definition scan (start_idx : Z) (tp_revs : list TPRevision) : M Z :=
  scan_loop (List.length tp_revs) 0 start_idx tp_revs (-1).

(** How a call of [clean_article] ends, with the dictionary as the
    call leaves it *)
Inductive outcome :=
  | Returned (a : articledata)
  | Raised (e : exn) (a : articledata).

Definition record_of (o : outcome) : articledata :=
  match o with Returned a => a | Raised _ a => a end.

Definition set_talkpagerev (a : articledata) (v : Z) : articledata :=
  {| revid := revid a; pageid := pageid a; talkpageid := talkpageid a;
     talkpagerev := Some v; class := class a |}.

Definition set_revid (a : articledata) (v : option Z) : articledata :=
  {| revid := v; pageid := pageid a; talkpageid := talkpageid a;
     talkpagerev := talkpagerev a; class := class a |}.

(** From [articledata['talkpagerev'] = prev_tprevid] to the end *)
Definition resolve_article_revision (a : articledata) (prev_tprevid : Z) (c : conn)
  : outcome * conn :=
  let a := set_talkpagerev a prev_tprevid in
  match retry is_OperationalError (recent_try a prev_tprevid) db_attempts 0 None c with
  | ((_, Raise e), c1) => (Raised e a, c1)
  | ((article_revision, Ok attempts), c1) =>
      if (db_attempts <=? attempts)%nat then (Returned a, c1)
      else
        let '((article_revision, r), c2) :=
          if negb (truthy article_revision)
          then retry is_Error (next_try a prev_tprevid) db_attempts 0 article_revision c1
          else ((article_revision, Ok attempts), c1) in
        match r with
        | Raise e => (Raised e a, c2)
        | Ok _ =>
            if negb (truthy article_revision) then (Returned a, c2)
            else (Returned (set_revid a article_revision), c2)
        end
  end.

(** From [prev_tprevid = -1] to the end *)
Definition resolve (start_idx : Z) (a : articledata) (tp_revs : list TPRevision) (c : conn)
  : outcome * conn :=
  match scan start_idx tp_revs c with
  | (Raise e, c1) => (Raised e a, c1)
  | (Ok prev_tprevid, c1) =>
      if prev_tprevid <? 0 then (Returned a, c1)
      else resolve_article_revision a prev_tprevid c1
  end.

Definition clean_article (articledata0 : articledata) (c : conn) : outcome * conn :=
  match wp10_scale !! PyStr.lower (class articledata0) with
  | None => (Raised KeyError articledata0, c)
  | Some start_idx =>
      let c := snd (ping_or_reconnect c) in
      match retry is_OperationalError latest_try db_attempts 0 articledata0 c with
      | ((a, Raise e), c1) => (Raised e a, c1)
      | ((a, Ok attempts), c1) =>
          if (db_attempts <=? attempts)%nat then (Returned a, c1)
          else
            match retry is_OperationalError (tp_revs_try a) db_attempts 0 [] c1 with
            | ((_, Raise e), c2) => (Raised e a, c2)
            | ((tp_revs, Ok attempts), c2) =>
                if (db_attempts <=? attempts)%nat then (Returned a, c2)
                else
                  match tp_revs with
                  | [] => (Returned a, c2)
                  | _ :: _ => resolve start_idx a tp_revs c2
                  end
            end
      end
  end.

(** ** [AssessmentFinder.clean_training_set]

    The loop that cleans each article of the dataset read and writes
    its row; [outfile] holds the rows written after the header. *)
Inductive run :=
  | Finished (outfile : list articledata)
  | Aborted (e : exn) (outfile : list articledata).

Fixpoint write_articles (articles outfile : list articledata) (c : conn) : run * conn :=
  match articles with
  | [] => (Finished outfile, c)
  | article :: rest =>
      match clean_article article c with
      | (Returned a, c') => write_articles rest (outfile ++ [a]) c'
      | (Raised e _, c') => (Aborted e outfile, c')
      end
  end.

Definition clean_training_set (articles : list articledata) (c : conn) : run * conn :=
  write_articles articles [] c.

End Finder.

(** * The rest of [clean-training-set.py] *)

(** ** [clean_training_set]: reading the dataset *)

(** [s.split()]: the words of [s] between runs of white space *)
Fixpoint split (s : string) : list string :=
  match s with
  | EmptyString => []
  | String a s' =>
      if PyStr.is_space a then split s'
      else
        match s' with
        | EmptyString => [String a EmptyString]
        | String b _ =>
            if PyStr.is_space b then String a EmptyString :: split s'
            else
              match split s' with
              | t :: ts => String a t :: ts
              | [] => [String a EmptyString]
              end
        end
  end.

(** [cols = line.strip().split()] *)
Definition columns (line : string) : list string := split (PyStr.strip line).

Section Dataset.

(** The number that the store reads in the text of the page id column *)
Variable page_number : string -> Z.

(** The dictionary appended for a line; [None] is the [IndexError] of
    [cols[1]] or [cols[0]] on a line with fewer than two columns. *)
Definition read_line (line : string) : option articledata :=
  match columns line with
  | cls :: pid :: _ =>
      Some {| revid := None; pageid := page_number pid; talkpageid := None;
              talkpagerev := None; class := cls |}
  | _ => None
  end.

(** [for line in infile: ... articles.append(...)] *)
Fixpoint read_lines (lines : list string) (articles : list articledata)
  : option (list articledata) :=
  match lines with
  | [] => Some articles
  | line :: rest =>
      match read_line line with
      | Some a => read_lines rest (articles ++ [a])
      | None => None
      end
  end.

(** The lines of the file: [infile.readline()] skips the first, which
    is the header. *)
Definition read_dataset (infile : list string) : option (list articledata) :=
  read_lines (tl infile) [].

End Dataset.

(** ** [AssessmentFinder.get_recent_assessments] *)

Inductive recent_exn :=
  | RecentMySQLError (e : mysql_error)
  | TypeError.

Inductive recent_outcome :=
  | RecentReturned (assessments : list Assessment)
  | RecentRaised (e : recent_exn).

(** [tt_query]: rows [(rev_timestamp, page_title)] *)
Definition tt_query (db : database) (revid0 : option Z) : list (Z * string) :=
  flat_map (fun r =>
    flat_map (fun p =>
      if (rev_page r =? page_id p) && sql_eq (rev_id r) revid0
      then [(rev_timestamp r, page_title p)] else [])
    (page db))
  (revision db).

(** [talkrev_query]: the id of the last revision of the talk page of
    that title before the time *)
Definition talkrev_query (db : database) (title : option string) (timestamp : option Z)
  : list Z :=
  List.map rev_id
    (firstn 1 (order_desc
       (flat_map (fun p =>
          match title with
          | Some t =>
              if (page_namespace p =? 1) && String.eqb (page_title p) t
              then List.filter (fun r => (rev_page r =? page_id p)
                                         && sql_lt (rev_timestamp r) timestamp)
                     (revision db)
              else []
          | None => []
          end)
        (page db)))).

(** [for row in self.dbcursor: rev_timestamp = ...; page_title = ...] *)
Definition assign_tt (l : option Z * option string) (row : Z * string)
  : option Z * option string :=
  (Some (fst row), Some (snd row)).

(** [for row in self.dbcursor: tp_revid = int(row['rev_id'])] *)
Definition assign_tp_revid (tp_revid : option Z) (row : Z) : option Z := Some row.

(** The queries are run once, outside any [try]; the last statement
    calls [self.get_assessments(page, tp_revid)], a method of one
    parameter, with two arguments: a [TypeError]. *)
Definition get_recent_assessments (db : database) (revid0 : option Z) (c : conn)
  : recent_outcome * conn :=
  if negb (truthy revid0) then (RecentReturned [], c)
  else
    match execute (tt_query db revid0) c with
    | (Fault e, c1) => (RecentRaised (RecentMySQLError e), c1)
    | (Rows rows, c1) =>
        let l := foldl assign_tt (None, None) rows in
        if negb (truthy (fst l)) then (RecentReturned [], c1)
        else
          match execute (talkrev_query db (snd l) (fst l)) c1 with
          | (Fault e, c2) => (RecentRaised (RecentMySQLError e), c2)
          | (Rows rows, c2) =>
              let tp_revid := foldl assign_tp_revid None rows in
              if negb (truthy tp_revid) then (RecentReturned [], c2)
              else (RecentRaised TypeError, c2)
          end
    end.

(** White space somewhere in a string *)
Fixpoint has_space (s : string) : bool :=
  match s with
  | EmptyString => false
  | String a s' => PyStr.is_space a || has_space s'
  end.

(** Nothing but white space in a string *)
Fixpoint blank (s : string) : bool :=
  match s with
  | EmptyString => true
  | String a s' => PyStr.is_space a && blank s'
  end.


(** * Notions for the statements *)

(** An entry of the schedule that lets [execute] succeed *)
Definition no_fault (f : option mysql_error) : bool :=
  match f with None => true | Some _ => false end.

(** A connection on which every coming [execute] succeeds *)
Definition fault_free (c : conn) : bool := forallb no_fault (faults c).

(** The connection after [n] more calls of [execute] that succeeded *)
Definition after_queries (n : nat) (c : conn) : conn :=
  {| faults := drop n (faults c); alive := alive c;
     executed := (n + executed c)%nat; reconnects := reconnects c |}.

(** The revert test on a connection without faults: the three queries
    once, or the point query alone when it names no page. *)
Definition reverted (db : database) (revid : Z) (radius : nat) : bool :=
  let l := foldl assign_cur revert_init (Query.cur_query db revid) in
  if truthy (rl_pageid l) then
    walk_future
      (list_to_set (Query.past_query db (rl_pageid l) (rl_timestamp l) radius))
      (Query.fut_query db (rl_pageid l) (rl_timestamp l) radius)
  else false.

(** The number of queries of that test *)
Definition revert_queries (db : database) (revid : Z) : nat :=
  if truthy (rl_pageid (foldl assign_cur revert_init (Query.cur_query db revid)))
  then 3%nat else 1%nat.

(** The revisions that a response lists, page after page *)
Definition listed (q : api_query) : list api_revision :=
  match pages q with
  | None => []
  | Some ps =>
      flat_map (fun p => match api_revisions (snd p) with
                         | Some revs => revs
                         | None => []
                         end) ps
  end.

Section Notions.

Variable filter_templates : string -> list template.
Variable site : list Z -> api_reply.
Variable db : database.

(** The ids that the fetch of [revisions] asks for in the turn that
    starts at index [i] *)
Definition requested (revisions : list TPRevision) (i : nat) : list Z :=
  List.map tp_id (take 10 (drop i revisions)).

(** The API returns no content for a revision to the fetch of
    [revisions] when no response to its requests lists the revision
    with an entry ['*']. *)
Definition withholds (revisions : list TPRevision) (revid : Z) : Prop :=
  forall i q rv,
    submit_all (site (requested revisions i)) None = Some q -> In rv (listed q) ->
    api_revid rv = revid -> star rv = None.

(** The API answers every request of the fetch of [revisions] with a
    ['query'] that lists requested revisions only. *)
Definition answers_requested (revisions : list TPRevision) : Prop :=
  forall i, exists q,
    submit_all (site (requested revisions i)) None = Some q
    /\ forall rv, In rv (listed q) -> In (api_revid rv) (requested revisions i).

(** The record as the metadata query leaves it *)
Definition with_latest (a : articledata) : articledata :=
  foldl assign_latest a (Query.latest_query db (pageid a)).

(** The revisions of the talk page that the scan is given *)
Definition talk_revisions (a : articledata) : list TPRevision :=
  foldl append_tp_rev [] (Query.tp_revquery db (talkpageid a) (revid a)).

(** What the scan reads in a revision after the fetch: nothing, no
    rating of the scale, or the highest index of its ratings. *)
Inductive reading :=
  | Unread
  | Unassessed
  | Rated (cur_idx : Z).

(** The first half of a turn of the scan, up to [max(cur_idx)] *)
Definition read_revision (revision : TPRevision) : reading :=
  match tp_content revision with
  | None => Unread
  | Some EmptyString => Unread
  | Some content =>
      match map_ratings (get_assessments filter_templates (truncate content)) [] with
      | [] => Unassessed
      | x :: l => Rated (list_max x l)
      end
  end.

(** The revisions that the fetch gives for the slices of [tp_revs] are
    the slices of [fetched]. *)
Definition fetches (tp_revs fetched : list TPRevision) : Prop :=
  List.length fetched = List.length tp_revs
  /\ forall k,
       get_revisions site (take slice_size (drop (k * slice_size) tp_revs))
       = Ok (take slice_size (drop (k * slice_size) fetched)).

(** [prev_tprevid] after a pass that ended, without [done] *)
Definition first_of (r : res (Z * bool) * conn) : res Z * conn :=
  match r with
  | (Ok (p, _), c) => (Ok p, c)
  | (Raise e, c) => (Raise e, c)
  end.

(** C1 reads: the run goes on to its end past the record. *)
Definition run_finishes (r : run * conn) : Prop :=
  exists outfile c', r = (Finished outfile, c').

(** C3 reads: the talk page revision of the record is earlier than the
    starting revision of the article. *)
Definition talkpagerev_before_start (a r : articledata) : Prop :=
  forall ts start,
    timestamp_of db (talkpagerev r) = Some ts ->
    timestamp_of db (revid (with_latest a)) = Some start ->
    ts < start.

(** C6 reads: the check does not answer [True] or [False]. *)
Definition reports_unable (r : res (option bool)) : Prop :=
  forall b, r <> Ok (Some b).

End Notions.

(** ** Further notions *)



(** No white space at the start of a string *)
Definition starts_clean (s : string) : Prop :=
  match s with
  | EmptyString => True
  | String a _ => PyStr.is_space a = false
  end.

(** The last entry ['query'] among the responses to a request and to
    its continuations *)
Fixpoint last_query (reply : api_reply) : option api_query :=
  match reply with
  | Final data => query data
  | Continued data next =>
      match last_query next with
      | Some q => Some q
      | None => query data
      end
  end.


(** [clean_article] from the query for the revisions of the talk page
    on, for the record as the metadata query left it *)
Definition after_latest (filter_templates : string -> list template)
    (site : list Z -> api_reply) (db : database)
    (start_idx : Z) (a : articledata) (c1 : conn) : outcome * conn :=
  match retry is_OperationalError (tp_revs_try db a) db_attempts 0 [] c1 with
  | ((_, Raise e), c2) => (Raised e a, c2)
  | ((tp_revs, Ok attempts), c2) =>
      if (db_attempts <=? attempts)%nat then (Returned a, c2)
      else
        match tp_revs with
        | [] => (Returned a, c2)
        | _ :: _ => resolve filter_templates site db start_idx a tp_revs c2
        end
  end.


(** * A small wiki

    One article and its talk page, with a fixed parser and content API,
    on which the statements below are evaluated. *)

Module Example.

Definition rv (id pg ts : Z) (sha : string) : revision_row :=
  {| rev_id := id; rev_page := pg; rev_timestamp := ts; rev_sha1 := sha |}.

(** Page 1 is the article, page 2 its talk page.  The article was
    written at 100 and 200; the talk page at 50, 60, 70 and, after the
    last edit of the article, at 300.  Revision 21 of the talk page was
    undone by revision 22, which has the checksum of revision 20. *)
Definition db : database :=
  {| revision := [rv 10 1 100 "a"; rv 11 1 200 "b";
                  rv 20 2 50 "x"; rv 21 2 60 "y"; rv 22 2 70 "x"; rv 23 2 300 "w"];
     page := [{| page_id := 1; page_namespace := 0; page_title := "T"; page_latest := 11 |};
              {| page_id := 2; page_namespace := 1; page_title := "T"; page_latest := 23 |}] |}.

(** The wikitext of a revision is the text of one banner, or prose. *)
Definition filter_templates (rev_content : string) : list template :=
  if String.eqb rev_content "{{WikiProject Foo|class=B|importance=High}}" then
    [{| temp_name := "WikiProject Foo";
        temp_params := [("class", "B"); ("importance", "High")] |}]
  else if String.eqb rev_content "{{WikiProject Foo|class=C}}" then
    [{| temp_name := "WikiProject Foo"; temp_params := [("class", "C")] |}]
  else if String.eqb rev_content "{{maths rating|class=B}}" then
    [{| temp_name := "maths rating"; temp_params := [("class", "B")] |}]
  else [].

Definition content_of (revid : Z) : option string :=
  if revid =? 23 then Some "{{WikiProject Foo|class=B|importance=High}}"
  else if revid =? 22 then Some "{{WikiProject Foo|class=B|importance=High}}"
  else if revid =? 21 then Some "{{WikiProject Foo|class=B|importance=High}}"
  else if revid =? 20 then Some "{{WikiProject Foo|class=C}}"
  else None.

(** The API answers a request at once, with the requested revisions of
    the talk page; a revision without text has no entry ['*']. *)
Definition site (revids : list Z) : api_reply :=
  Final {| query := Some {| pages := Some
    [("2", {| api_revisions :=
                Some (List.map (fun id => {| api_revid := id; star := content_of id |})
                        revids) |})] |} |}.

(** The connection at the start, and one with a schedule of faults *)
Definition c0 : conn :=
  {| faults := []; alive := true; executed := 0; reconnects := 0 |}.

Definition with_faults (l : list (option mysql_error)) : conn :=
  {| faults := l; alive := true; executed := 0; reconnects := 0 |}.

(** A row of the dataset for the article *)
Definition article (cls : string) : articledata :=
  {| revid := None; pageid := 1; talkpageid := None; talkpagerev := None;
     class := cls |}.

(** The same wiki when the talk page was first written after the last
    edit of the article *)
Definition db_late : database :=
  {| revision := [rv 10 1 100 "a"; rv 11 1 200 "b"; rv 23 2 300 "w"];
     page := page db |}.

(** The revisions of the talk page earlier than revision 11, as the
    scan is given them and as the fetch fills them *)
Definition tp_revs : list TPRevision :=
  [{| tp_id := 22; tp_timestamp := 70; tp_content := None |};
   {| tp_id := 21; tp_timestamp := 60; tp_content := None |};
   {| tp_id := 20; tp_timestamp := 50; tp_content := None |}].

Definition fill (rev : TPRevision) : TPRevision :=
  {| tp_id := tp_id rev; tp_timestamp := tp_timestamp rev;
     tp_content := content_of (tp_id rev) |}.

End Example.

(** ** Other APIs for the small wiki *)

Module Cases.

(** An API whose responses have no entry ['query'] *)
Definition silent_site (revids : list Z) : api_reply :=
  Final {| query := None |}.

(** An API that answers in two responses: the first, which announces a
    continuation, lists revision 20 with another text; the second is
    the answer of the API of the example. *)
Definition continued_site (revids : list Z) : api_reply :=
  Continued
    {| query := Some {| pages := Some
         [("2", {| api_revisions :=
                     Some [{| api_revid := 20;
                              star := Some "{{WikiProject Foo|class=B|importance=High}}" |}] |})] |} |}
    (Example.site revids).

(** The talk page of the example when revision 21 was vandalism that
    revision 22 undid: revisions 20 and 22 hold the banner of class B,
    revision 21 holds prose. *)
Definition noise_content_of (revid : Z) : option string :=
  if revid =? 22 then Some "{{WikiProject Foo|class=B|importance=High}}"
  else if revid =? 21 then Some "lol"
  else if revid =? 20 then Some "{{WikiProject Foo|class=B|importance=High}}"
  else None.

Definition noise_site (revids : list Z) : api_reply :=
  Final {| query := Some {| pages := Some
    [("2", {| api_revisions :=
                Some (List.map (fun id => {| api_revid := id; star := noise_content_of id |})
                        revids) |})] |} |}.

Definition noise_fill (rev : TPRevision) : TPRevision :=
  {| tp_id := tp_id rev; tp_timestamp := tp_timestamp rev;
     tp_content := noise_content_of (tp_id rev) |}.

(** A row of the dataset for a page that the wiki does not have *)
Definition unknown_article : articledata :=
  {| revid := None; pageid := 7; talkpageid := None; talkpagerev := None;
     class := "B" |}.

End Cases.


(** * Properties *)

(** ** The retry loop *)

(** What holds of the locals before the loop and is kept by every
    attempt holds after it. *)
Lemma retry_invariant {L} (P : L -> Prop) catches (body : try_body L) :
  (forall l c l' t c', P l -> body l c = ((l', t), c') -> P l') ->
  forall budget attempts l c l' r c',
    P l -> retry catches body budget attempts l c = ((l', r), c') -> P l'.
Proof.
  intros Hbody budget.
  induction budget as [|budget IH]; intros attempts l c l' r c' Hl Hrun; simpl in Hrun.
  - inversion Hrun; subst; exact Hl.
  - destruct (body l c) as [[l1 t] c1] eqn:Hb.
    pose proof (Hbody _ _ _ _ _ Hl Hb) as Hl1.
    destruct t as [| |e].
    + inversion Hrun; subst; exact Hl1.
    + inversion Hrun; subst; exact Hl1.
    + destruct (catches e).
      * eapply IH; [exact Hl1 | exact Hrun].
      * inversion Hrun; subst; exact Hl1.
Qed.

(** The count of attempts that the loop reports never passes the sum of
    the budget and of the count it started from. *)
Lemma retry_attempts_bound {L} catches (body : try_body L) :
  forall budget attempts l c l' n c',
    retry catches body budget attempts l c = ((l', Ok n), c') ->
    (attempts <= n <= attempts + budget)%nat.
Proof.
  induction budget as [|budget IH]; intros attempts l c l' n c' Hrun; simpl in Hrun.
  - inversion Hrun; subst; lia.
  - destruct (body l c) as [[l1 t] c1].
    destruct t as [| |e].
    + inversion Hrun; subst; lia.
    + inversion Hrun; subst; lia.
    + destruct (catches e).
      * apply IH in Hrun. lia.
      * discriminate.
Qed.

(** A site whose [except] names [MySQLdb.OperationalError] lets every
    other error out at once: the attempt is not repeated and the
    connection is not renewed. *)
Lemma retry_propagates {L} (body : try_body L) budget attempts l c l' e c' :
  body l c = ((l', Failed e), c') ->
  is_OperationalError e = false ->
  retry is_OperationalError body (S budget) attempts l c
  = ((l', Raise (MySQLError e)), c').
Proof. intros Hb He. simpl. rewrite Hb, He. reflexivity. Qed.

(** A site whose [except] names [MySQLdb.Error] never lets an error of
    [execute] out. *)
Lemma retry_is_Error_swallows {L} (body : try_body L) :
  forall budget attempts l c l' r c',
    retry is_Error body budget attempts l c = ((l', r), c') ->
    exists n, r = Ok n.
Proof.
  induction budget as [|budget IH]; intros attempts l c l' r c' Hrun; simpl in Hrun.
  - inversion Hrun; subst; eauto.
  - destruct (body l c) as [[l1 t] c1].
    destruct t as [| |e]; simpl in Hrun.
    + inversion Hrun; subst; eauto.
    + inversion Hrun; subst; eauto.
    + eapply IH; exact Hrun.
Qed.

(** ** Connections without faults *)

Lemma fault_free_drop n l : forallb no_fault l = true -> forallb no_fault (drop n l) = true.
Proof.
  revert l; induction n as [|n IH]; intros [|x l] H; simpl in *; auto.
  apply andb_true_iff in H as [_ H]. auto.
Qed.

Lemma fault_free_after n c : fault_free c = true -> fault_free (after_queries n c) = true.
Proof. unfold fault_free; simpl. apply fault_free_drop. Qed.

Lemma after_queries_add n m c :
  after_queries n (after_queries m c) = after_queries (n + m) c.
Proof.
  unfold after_queries; simpl. f_equal.
  - rewrite drop_drop. f_equal. lia.
  - lia.
Qed.

Lemma after_queries_0 c : after_queries 0 c = c.
Proof. destruct c; reflexivity. Qed.

Lemma execute_fault_free {A} (rows : list A) c :
  fault_free c = true -> execute rows c = (Rows rows, after_queries 1 c).
Proof.
  unfold fault_free, execute, after_queries. intros H.
  destruct (faults c) as [|[e|] tl] eqn:Hf; simpl in *; try discriminate; reflexivity.
Qed.

(** When the loop ends before its budget is spent, the last attempt ran
    to its end or left by [break]: what such an attempt establishes
    holds of the locals. *)
Lemma retry_exit {L} (P Q : L -> Prop) catches (body : try_body L) :
  (forall l c l' t c', P l -> body l c = ((l', t), c') ->
     match t with Failed _ => P l' | _ => Q l' end) ->
  forall budget attempts l c l' n c',
    P l -> retry catches body budget attempts l c = ((l', Ok n), c') ->
    (n < attempts + budget)%nat -> Q l'.
Proof.
  intros Hbody budget.
  induction budget as [|budget IH]; intros attempts l c l' n c' Hl Hrun Hn; simpl in Hrun.
  - inversion Hrun; subst; lia.
  - destruct (body l c) as [[l1 t] c1] eqn:Hb.
    pose proof (Hbody _ _ _ _ _ Hl Hb) as Hl1.
    destruct t as [| |e].
    + inversion Hrun; subst; exact Hl1.
    + inversion Hrun; subst; exact Hl1.
    + destruct (catches e); [|discriminate].
      eapply IH; [exact Hl1 | exact Hrun | lia].
Qed.

(** ** The revert test *)

Lemma foldl_assign_cur_prev l rows :
  prev_checksums (foldl assign_cur l rows) = prev_checksums l
  /\ future_checksums (foldl assign_cur l rows) = future_checksums l.
Proof.
  revert l; induction rows as [|row rows IH]; intros l; simpl; [auto|].
  destruct (IH (assign_cur l row)) as [Hp Hf]. simpl in *. auto.
Qed.

Lemma foldl_assign_cur_last l rows t p :
  last rows = Some (t, p) ->
  rl_pageid (foldl assign_cur l rows) = Some p
  /\ rl_timestamp (foldl assign_cur l rows) = Some t.
Proof.
  revert l; induction rows as [|row rows IH]; intros l Hlast; [discriminate|].
  destruct rows as [|row' rows].
  - simpl in *. inversion Hlast; subst. auto.
  - simpl. apply (IH _ Hlast).
Qed.

Lemma foldl_assign_cur_nil l rows :
  last rows = None -> foldl assign_cur l rows = l.
Proof.
  destruct rows as [|row rows]; [reflexivity|].
  intros H. exfalso. revert row H. induction rows as [|r rows IH]; intros row H.
  - discriminate.
  - apply (IH r). exact H.
Qed.

Lemma foldl_add_prev l rows :
  rl_pageid (foldl add_prev l rows) = rl_pageid l
  /\ rl_timestamp (foldl add_prev l rows) = rl_timestamp l
  /\ future_checksums (foldl add_prev l rows) = future_checksums l
  /\ forall sha, sha ∈ prev_checksums (foldl add_prev l rows)
                 <-> sha ∈ rows \/ sha ∈ prev_checksums l.
Proof.
  revert l; induction rows as [|row rows IH]; intros l; simpl.
  - repeat split; auto. intros [H|H]; [inversion H | exact H].
  - destruct (IH (add_prev l row)) as (Hp & Ht & Hf & Hs). simpl in *.
    repeat split; auto.
    + intros H. apply Hs in H as [H|H]; [left; by right|].
      apply elem_of_union in H as [H|H]; [|by right].
      apply elem_of_singleton in H; subst. left; by left.
    + intros [H|H]; apply Hs.
      * apply elem_of_cons in H as [->|H]; [right|by left].
        apply elem_of_union; left. by apply elem_of_singleton.
      * right. apply elem_of_union; by right.
Qed.

Lemma foldl_append_future l rows :
  prev_checksums (foldl append_future l rows) = prev_checksums l
  /\ future_checksums (foldl append_future l rows) = (future_checksums l ++ rows)%list.
Proof.
  revert l; induction rows as [|row rows IH]; intros l; simpl.
  - by rewrite app_nil_r.
  - destruct (IH (append_future l row)) as (Hp & Hf). simpl in *.
    split; [exact Hp|]. rewrite Hf, <- app_assoc. reflexivity.
Qed.

Lemma walk_future_spec prev future :
  walk_future prev future = true <-> exists sha, sha ∈ future /\ sha ∈ prev.
Proof.
  induction future as [|sha rest IH]; simpl.
  - split; [discriminate|]. intros (sha & H & _). inversion H.
  - destruct (decide (sha ∈ prev)) as [Hin|Hout].
    + split; [|reflexivity]. intros _. exists sha. split; [by left | exact Hin].
    + rewrite IH. split.
      * intros (s & Hs & Hp). exists s. split; [by right | exact Hp].
      * intros (s & Hs & Hp). apply elem_of_cons in Hs as [->|Hs]; [contradiction|].
        exists s. auto.
Qed.

Lemma walk_future_ext prev prev' future :
  (forall sha, sha ∈ prev <-> sha ∈ prev') ->
  walk_future prev future = walk_future prev' future.
Proof.
  intros H. destruct (walk_future prev' future) eqn:E.
  - apply walk_future_spec. apply walk_future_spec in E as (s & Hs & Hp).
    exists s. split; [exact Hs | by apply H].
  - destruct (walk_future prev future) eqn:E'; [|reflexivity].
    apply walk_future_spec in E' as (s & Hs & Hp).
    assert (walk_future prev' future = true) as E''.
    { apply walk_future_spec. exists s. split; [exact Hs | by apply H]. }
    congruence.
Qed.

Lemma is_reverted_fault_free db revid radius c :
  fault_free c = true ->
  is_reverted db revid radius c
  = (Ok (Some (reverted db revid radius)), after_queries (revert_queries db revid) c).
Proof.
  intros Hc. unfold is_reverted, reverted, revert_queries. simpl.
  unfold is_reverted_try at 1.
  rewrite (execute_fault_free _ _ Hc).
  set (l1 := foldl assign_cur revert_init (Query.cur_query db revid)).
  destruct (foldl_assign_cur_prev revert_init (Query.cur_query db revid)) as [Hp1 Hf1].
  fold l1 in Hp1, Hf1. simpl in Hp1, Hf1.
  destruct (truthy (rl_pageid l1)) eqn:Ht; simpl.
  - rewrite (execute_fault_free _ _ (fault_free_after 1 c Hc)).
    set (past := Query.past_query db (rl_pageid l1) (rl_timestamp l1) radius).
    destruct (foldl_add_prev l1 past) as (Hp2 & Ht2 & Hf2 & Hs2).
    rewrite Hp2, Ht2.
    rewrite execute_fault_free
      by (apply fault_free_after, fault_free_after, Hc).
    rewrite !after_queries_add. simpl.
    set (fut := Query.fut_query db (rl_pageid l1) (rl_timestamp l1) radius).
    destruct (foldl_append_future (foldl add_prev l1 past) fut) as (Hp3 & Hf3).
    rewrite Hp3, Hf3, Hf2, Hf1. simpl.
    f_equal. f_equal. f_equal.
    apply walk_future_ext. intros sha. rewrite Hs2, Hp1.
    rewrite elem_of_list_to_set. split; [intros [H|H]; [exact H|set_solver] | auto].
  - rewrite Hf1. reflexivity.
Qed.

Lemma execute_cases {A} (rows : list A) c :
  (exists c', execute rows c = (Rows rows, c'))
  \/ (exists e c', execute rows c = (Fault e, c')).
Proof.
  unfold execute. destruct (faults c) as [|[e|] tl]; eauto.
Qed.

Section RevertWindows.

Variables (db : database) (revid : Z) (radius : nat) (t p : Z).
Hypothesis Hcur : last (Query.cur_query db revid) = Some (t, p).
Hypothesis Hpage : p <> 0.

Let past := Query.past_query db (Some p) (Some t) radius.
Let future := Query.fut_query db (Some p) (Some t) radius.

(** Between attempts nothing is in the future list and the set holds
    checksums of the past window only. *)
Let between (l : revert_locals) : Prop :=
  future_checksums l = [] /\ forall sha, sha ∈ prev_checksums l -> sha ∈ past.

(** After an attempt that ran to its end both windows are complete. *)
Let complete (l : revert_locals) : Prop :=
  future_checksums l = future /\ forall sha, sha ∈ prev_checksums l <-> sha ∈ past.

Lemma is_reverted_try_windows l c l' a c' :
  between l -> is_reverted_try db revid radius l c = ((l', a), c') ->
  match a with Failed _ => between l' | _ => complete l' end.
Proof.
  intros [Hf Hp] Hrun. unfold is_reverted_try in Hrun.
  destruct (foldl_assign_cur_last l _ _ _ Hcur) as [Hpid Hts].
  destruct (foldl_assign_cur_prev l (Query.cur_query db revid)) as [Hp1 Hf1].
  set (l1 := foldl assign_cur l (Query.cur_query db revid)) in *.
  destruct (execute_cases (Query.cur_query db revid) c) as [(c1 & E1)|(e & c1 & E1)];
    rewrite E1 in Hrun.
  2:{ inversion Hrun; subst. split; assumption. }
  assert (truthy (rl_pageid l1) = true) as Htruthy.
  { rewrite Hpid. simpl. apply negb_true_iff, Z.eqb_neq, Hpage. }
  cbv beta iota zeta in Hrun. fold l1 in Hrun.
  rewrite Htruthy in Hrun. cbv beta iota zeta delta [negb] in Hrun.
  rewrite Hpid, Hts in Hrun. fold past in Hrun.
  destruct (foldl_add_prev l1 past) as (Hpid2 & Hts2 & Hf2 & Hs2).
  set (l2 := foldl add_prev l1 past) in *.
  destruct (execute_cases past c1) as [(c2 & E2)|(e & c2 & E2)]; rewrite E2 in Hrun.
  2:{ inversion Hrun; subst. split; [congruence|].
      intros sha. rewrite Hp1. apply Hp. }
  cbv beta iota zeta in Hrun. fold l2 in Hrun.
  rewrite Hpid2, Hts2, Hpid, Hts in Hrun. fold future in Hrun.
  destruct (foldl_append_future l2 future) as (Hp3 & Hf3).
  destruct (execute_cases future c2) as [(c3 & E3)|(e & c3 & E3)]; rewrite E3 in Hrun.
  - inversion Hrun; subst. split.
    + rewrite Hf3, Hf2, Hf1, Hf. reflexivity.
    + intros sha. rewrite Hp3, Hs2, Hp1. split; [intros [H|H]; auto | auto].
  - inversion Hrun; subst. split; [congruence|].
    intros sha. rewrite Hs2, Hp1. intros [H|H]; auto.
Qed.


End RevertWindows.

(** The two ways the loop of a site ends: before its budget is spent,
    after an attempt that ran to its end, or with the budget spent or an
    error let out, after failed attempts only. *)
Lemma retry_cases {L} (P Q : L -> Prop) catches (body : try_body L) :
  (forall l c l' t c', P l -> body l c = ((l', t), c') ->
     match t with Failed _ => P l' | _ => Q l' end) ->
  forall budget attempts l c l' r c',
    P l -> retry catches body budget attempts l c = ((l', r), c') ->
    (exists n, r = Ok n /\ (n < attempts + budget)%nat /\ Q l')
    \/ ((r = Ok (attempts + budget)%nat \/ exists e, r = Raise e) /\ P l').
Proof.
  intros Hbody budget.
  induction budget as [|budget IH]; intros attempts l c l' r c' Hl Hrun; simpl in Hrun.
  - inversion Hrun; subst. right. split; [left; f_equal; lia | exact Hl].
  - destruct (body l c) as [[l1 t] c1] eqn:Hb.
    pose proof (Hbody _ _ _ _ _ Hl Hb) as Hl1.
    destruct t as [| |e].
    + inversion Hrun; subst. left. exists attempts. split; [reflexivity|]. split; [lia|exact Hl1].
    + inversion Hrun; subst. left. exists attempts. split; [reflexivity|]. split; [lia|exact Hl1].
    + destruct (catches e).
      * destruct (IH _ _ _ _ _ _ Hl1 Hrun) as [(n & -> & Hn & HQ)|[[->|(e' & ->)] HP]].
        -- left. exists n. split; [reflexivity|]. split; [lia|exact HQ].
        -- right. split; [left; f_equal; lia | exact HP].
        -- right. split; [right; eauto | exact HP].
      * inversion Hrun; subst. right. split; [right; eauto | exact Hl1].
Qed.

(** On a connection without faults the first attempt runs to its end. *)
Lemma retry_first_attempt {L} catches (body : try_body L) budget l c l' c' :
  body l c = ((l', Completed), c') ->
  retry catches body (S budget) 0 l c = ((l', Ok 0%nat), c').
Proof. intros Hb. simpl. rewrite Hb. reflexivity. Qed.

(** ** The order of the rows *)

Lemma insert_desc_In x r l : In x (insert_desc r l) <-> x = r \/ In x l.
Proof.
  induction l as [|y l IH]; simpl.
  - intuition congruence.
  - destruct (rev_timestamp y <? rev_timestamp r); simpl; [intuition congruence|].
    rewrite IH. intuition congruence.
Qed.

Lemma order_desc_In x l : In x (order_desc l) <-> In x l.
Proof.
  induction l as [|y l IH]; simpl; [tauto|].
  rewrite insert_desc_In, IH. intuition congruence.
Qed.

Lemma insert_asc_In x r l : In x (insert_asc r l) <-> x = r \/ In x l.
Proof.
  induction l as [|y l IH]; simpl.
  - intuition congruence.
  - destruct (rev_timestamp r <? rev_timestamp y); simpl; [intuition congruence|].
    rewrite IH. intuition congruence.
Qed.

Lemma order_asc_In x l : In x (order_asc l) <-> In x l.
Proof.
  induction l as [|y l IH]; simpl; [tauto|].
  rewrite insert_asc_In, IH. intuition congruence.
Qed.

(** ** The batched fetch of revisions *)

Lemma store_revisions_app l1 l2 revisions :
  store_revisions (l1 ++ l2) revisions =
  match store_revisions l1 revisions with
  | Ok revisions' => store_revisions l2 revisions'
  | Raise e => Raise e
  end.
Proof.
  revert revisions; induction l1 as [|rv l1 IH]; intros revisions; simpl; [reflexivity|].
  destruct (set_content (api_revid rv) (star rv) revisions); [apply IH | reflexivity].
Qed.

Lemma store_pages_listed ps revisions :
  store_pages ps revisions =
  store_revisions (listed {| pages := Some ps |}) revisions.
Proof.
  unfold listed; simpl.
  revert revisions; induction ps as [|[pid pd] ps IH]; intros revisions;
    cbn [store_pages flat_map snd]; [reflexivity|].
  destruct (api_revisions pd) as [[|rv revs]|]; try apply IH.
  rewrite store_revisions_app.
  destruct (store_revisions (rv :: revs) revisions); [apply IH | reflexivity].
Qed.

Lemma set_content_ids revid content revisions revisions' :
  set_content revid content revisions = Some revisions' ->
  List.map tp_id revisions' = List.map tp_id revisions.
Proof.
  revert revisions'; induction revisions as [|rev rest IH]; intros revisions' H; simpl in H.
  - discriminate.
  - destruct (set_content revid content rest) as [rest'|].
    + inversion H; subst. simpl. f_equal. apply IH. reflexivity.
    + destruct (tp_id rev =? revid); inversion H; subst. reflexivity.
Qed.

Lemma set_content_found revid content revisions :
  In revid (List.map tp_id revisions) ->
  exists revisions', set_content revid content revisions = Some revisions'.
Proof.
  induction revisions as [|rev rest IH]; intros Hin; simpl in *; [contradiction|].
  destruct (set_content revid content rest) as [rest'|] eqn:E; [eauto|].
  destruct Hin as [Hin|Hin].
  - subst. rewrite Z.eqb_refl. eauto.
  - destruct (IH Hin) as [? ?]. discriminate.
Qed.

(** A revision of the list after [set_content] is one of the list
    before it, or the one that was given the content. *)
Lemma set_content_elem revid content revisions revisions' rev' :
  set_content revid content revisions = Some revisions' ->
  In rev' revisions' ->
  In rev' revisions \/ (tp_id rev' = revid /\ tp_content rev' = content).
Proof.
  revert revisions'; induction revisions as [|rev rest IH]; intros revisions' H Hin; simpl in H.
  - discriminate.
  - destruct (set_content revid content rest) as [rest'|].
    + inversion H; subst. destruct Hin as [->|Hin]; [left; by left|].
      destruct (IH _ eq_refl Hin) as [?|?]; [left; by right | by right].
    + destruct (tp_id rev =? revid) eqn:E; inversion H; subst.
      destruct Hin as [<-|Hin]; [|left; by right].
      right. simpl. split; [by apply Z.eqb_eq | reflexivity].
Qed.

Lemma store_revisions_invariant (P : list TPRevision -> Prop) (R : api_revision -> Prop) :
  (forall rv revisions revisions',
     R rv -> P revisions ->
     set_content (api_revid rv) (star rv) revisions = Some revisions' -> P revisions') ->
  forall l revisions revisions',
    Forall R l -> P revisions ->
    store_revisions l revisions = Ok revisions' -> P revisions'.
Proof.
  intros Hstep l; induction l as [|rv l IH]; intros revisions revisions' HR HP H; simpl in H.
  - inversion H; subst; exact HP.
  - apply Forall_cons in HR as [Hrv HR].
    destruct (set_content (api_revid rv) (star rv) revisions) as [revisions1|] eqn:E;
      [|discriminate].
    eapply IH; [exact HR | | exact H]. eapply Hstep; eassumption.
Qed.

Lemma In_take_drop {A} (x : A) n i l : In x (take n (drop i l)) -> In x l.
Proof.
  intros H. apply list_elem_of_In. apply list_elem_of_In in H.
  apply (subseteq_drop i l), (subseteq_take n _), H.
Qed.

Section Fetch.

Variable site : list Z -> api_reply.

Lemma requested_ids revisions revisions' i :
  List.map tp_id revisions = List.map tp_id revisions' ->
  requested revisions i = requested revisions' i.
Proof.
  intros H. unfold requested.
  rewrite <- !firstn_map, <- !skipn_map, H. reflexivity.
Qed.

Lemma requested_In revisions i revid :
  In revid (requested revisions i) -> In revid (List.map tp_id revisions).
Proof.
  unfold requested. intros H. apply in_map_iff in H as (rev & <- & Hrev).
  apply in_map. eapply In_take_drop; exact Hrev.
Qed.

(** What holds of the revisions before the fetch and is kept by every
    assignment of a listed content holds after it; the fetch keeps the
    revisions, their order and their ids. *)
Lemma get_revisions_loop_invariant revisions0
    (P : list TPRevision -> Prop) (R : api_revision -> Prop) :
  (forall i q, submit_all (site (requested revisions0 i)) None = Some q ->
               Forall R (listed q)) ->
  (forall rv revisions revisions',
     R rv -> P revisions ->
     set_content (api_revid rv) (star rv) revisions = Some revisions' -> P revisions') ->
  forall fuel i revisions revisions',
    List.map tp_id revisions = List.map tp_id revisions0 ->
    P revisions -> get_revisions_loop site fuel i revisions = Ok revisions' ->
    P revisions' /\ List.map tp_id revisions' = List.map tp_id revisions0.
Proof.
  intros Hsite Hstep fuel; induction fuel as [|fuel IH];
    intros i revisions revisions' Hids HP H; simpl in H.
  - inversion H; subst; auto.
  - destruct (i <? List.length revisions)%nat; [|inversion H; subst; auto].
    fold (requested revisions i) in H. rewrite (requested_ids _ _ i Hids) in H.
    destruct (submit_all (site (requested revisions0 i)) None) as [q|] eqn:Hq;
      [|discriminate].
    pose proof (Hsite _ _ Hq) as HR. unfold listed in HR.
    destruct (pages q) as [ps|] eqn:Hps.
    + rewrite store_pages_listed in H. unfold listed in H. simpl in H.
      destruct (store_revisions _ revisions) as [revisions1|] eqn:Hstore; [|discriminate].
      assert (P revisions1 /\ List.map tp_id revisions1 = List.map tp_id revisions0)
        as [HP1 Hids1].
      { eapply (store_revisions_invariant
                  (fun l => P l /\ List.map tp_id l = List.map tp_id revisions0) R);
          [| exact HR | split; [exact HP | exact Hids] | exact Hstore].
        intros rv l l' Hrv [Hl Hl'] Hset. split; [eapply Hstep; eassumption|].
        rewrite <- Hl'. eapply set_content_ids; exact Hset. }
      eapply IH; [exact Hids1 | exact HP1 | exact H].
    + eapply IH; [exact Hids | exact HP | exact H].
Qed.

Lemma get_revisions_ids revisions revisions' :
  get_revisions site revisions = Ok revisions' ->
  List.map tp_id revisions' = List.map tp_id revisions.
Proof.
  unfold get_revisions. intros H.
  eapply (get_revisions_loop_invariant revisions (fun _ => True) (fun _ => True));
    [| | reflexivity | exact I | exact H].
  - intros. apply Forall_forall. auto.
  - auto.
Qed.

Lemma store_revisions_found l :
  forall revisions,
    (forall rv, In rv l -> In (api_revid rv) (List.map tp_id revisions)) ->
    exists revisions', store_revisions l revisions = Ok revisions'
                       /\ List.map tp_id revisions' = List.map tp_id revisions.
Proof.
  induction l as [|rv l IH]; intros revisions Hin; simpl; [eauto|].
  destruct (set_content_found (api_revid rv) (star rv) revisions) as [revisions1 E].
  { apply Hin. by left. }
  rewrite E. pose proof (set_content_ids _ _ _ _ E) as Hids.
  destruct (IH revisions1) as (revisions' & Hs & Hids').
  { intros rv' Hrv'. rewrite Hids. apply Hin. by right. }
  exists revisions'. split; [exact Hs | congruence].
Qed.

Lemma get_revisions_loop_returns revisions0 :
  answers_requested site revisions0 ->
  forall fuel i revisions,
    List.map tp_id revisions = List.map tp_id revisions0 ->
    exists revisions', get_revisions_loop site fuel i revisions = Ok revisions'.
Proof.
  intros Hsite fuel; induction fuel as [|fuel IH]; intros i revisions Hids; simpl; [eauto|].
  destruct (i <? List.length revisions)%nat; [|eauto].
  fold (requested revisions i). rewrite (requested_ids _ _ i Hids).
  destruct (Hsite i) as (q & -> & Hq).
  unfold listed in Hq. destruct (pages q) as [ps|] eqn:Hps; [|apply IH, Hids].
  rewrite store_pages_listed.
  destruct (store_revisions_found (listed {| pages := Some ps |}) revisions)
    as (revisions1 & -> & Hids1); [|apply IH; congruence].
  intros rv Hrv. apply Hq in Hrv. rewrite Hids. eapply requested_In; exact Hrv.
Qed.

Lemma get_revisions_withheld revisions revisions' :
  (forall rev, In rev revisions -> tp_content rev = None) ->
  get_revisions site revisions = Ok revisions' ->
  forall rev, In rev revisions' -> withholds site revisions (tp_id rev) ->
              tp_content rev = None.
Proof.
  intros Hnone Hget. unfold get_revisions in Hget.
  eapply (get_revisions_loop_invariant revisions
           (fun l => forall rev, In rev l -> withholds site revisions (tp_id rev) ->
                                 tp_content rev = None)
           (fun rv => withholds site revisions (api_revid rv) -> star rv = None));
    [| | reflexivity | | exact Hget].
  - intros i q Hq. apply Forall_forall. intros rv Hrv Hw.
    apply list_elem_of_In in Hrv. exact (Hw i q rv Hq Hrv eq_refl).
  - intros rv l l' Hrv Hl Hset rev Hin Hw.
    destruct (set_content_elem _ _ _ _ _ Hset Hin) as [Hold|[Hid Hcontent]].
    + apply Hl; assumption.
    + rewrite Hcontent. apply Hrv. rewrite <- Hid. exact Hw.
  - intros rev Hin _. apply Hnone, Hin.
Qed.

End Fetch.

Section CleanArticle.

Variable filter_templates : string -> list template.
Variable site : list Z -> api_reply.
Variable db : database.

Lemma foldl_assign_latest_frame a rows :
  pageid (foldl assign_latest a rows) = pageid a
  /\ class (foldl assign_latest a rows) = class a.
Proof.
  revert a; induction rows as [|row rows IH]; intros a; simpl; [auto|].
  destruct (IH (assign_latest a row)) as [Hp Hc].
  destruct row as [[[? ?] ?] ?]. simpl in *. auto.
Qed.

Lemma latest_try_cases a :
  forall l c l' t c', l = a -> latest_try db l c = ((l', t), c') ->
    match t with Failed _ => l' = a | _ => l' = with_latest db a end.
Proof.
  intros l c l' t c' -> Hrun. unfold latest_try in Hrun.
  destruct (execute_cases (Query.latest_query db (pageid a)) c)
    as [(c1 & E)|(e & c1 & E)]; rewrite E in Hrun; inversion Hrun; subst; reflexivity.
Qed.

Lemma tp_revs_try_cases a :
  forall l c l' t c', l = [] -> tp_revs_try db a l c = ((l', t), c') ->
    match t with Failed _ => l' = [] | _ => l' = talk_revisions db a end.
Proof.
  intros l c l' t c' -> Hrun. unfold tp_revs_try in Hrun.
  destruct (execute_cases (Query.tp_revquery db (talkpageid a) (revid a)) c)
    as [(c1 & E)|(e & c1 & E)]; rewrite E in Hrun; inversion Hrun; subst; reflexivity.
Qed.

(** The frame of the last part of [clean_article]: the record it leaves
    is the one it was given, with the talk page revision set to the
    boundary and possibly the article revision set. *)
Lemma resolve_article_revision_record a prev_tprevid c :
  let r := record_of (fst (resolve_article_revision db a prev_tprevid c)) in
  r = set_talkpagerev a prev_tprevid
  \/ exists v, r = set_revid (set_talkpagerev a prev_tprevid) v.
Proof.
  unfold resolve_article_revision.
  set (a' := set_talkpagerev a prev_tprevid).
  destruct (retry is_OperationalError (recent_try db a' prev_tprevid) db_attempts 0 None c)
    as [[rev r] c1].
  destruct r as [n|e]; [|simpl; auto].
  destruct (db_attempts <=? n)%nat; [simpl; auto|].
  destruct (if negb (truthy rev)
            then retry is_Error (next_try db a' prev_tprevid) db_attempts 0 rev c1
            else (rev, Ok n, c1)) as [[rev' r'] c2].
  destruct r' as [n'|e']; [|simpl; auto].
  destruct (negb (truthy rev')); simpl; eauto.
Qed.

Lemma resolve_record start_idx a tp_revs c :
  let r := record_of (fst (resolve filter_templates site db start_idx a tp_revs c)) in
  r = a
  \/ exists prev_tprevid,
       r = set_talkpagerev a prev_tprevid
       \/ exists v, r = set_revid (set_talkpagerev a prev_tprevid) v.
Proof.
  unfold resolve.
  destruct (scan filter_templates site db start_idx tp_revs c) as [[prev|e] c1]; simpl; [|auto].
  destruct (prev <? 0); simpl; [auto|].
  right. exists prev. apply resolve_article_revision_record.
Qed.

(** C10. Whatever way [clean_article] ends (a return after exhausted
    attempts, on an empty list of revisions, without a boundary, after
    the failed fallback, after a resolution, or an exception), the
    record it leaves has the ['pageid'] and the ['class'] of the record
    it was given: only ['revid'], ['talkpageid'] and ['talkpagerev'] are
    ever assigned. *)
Theorem clean_article_keeps_pageid_and_class (a : articledata) (c : conn) :
  pageid (record_of (fst (clean_article filter_templates site db a c))) = pageid a
  /\ class (record_of (fst (clean_article filter_templates site db a c))) = class a.
Proof.
  unfold clean_article.
  destruct (wp10_scale !! PyStr.lower (class a)) as [start_idx|]; [|simpl; auto].
  set (c0 := snd (ping_or_reconnect c)).
  destruct (retry is_OperationalError (latest_try db) db_attempts 0 a c0)
    as [[a1 r1] c1] eqn:H1.
  assert (pageid a1 = pageid a /\ class a1 = class a) as Hframe.
  { eapply (retry_invariant (fun l => pageid l = pageid a /\ class l = class a));
      [| |exact H1]; [|auto].
    intros l k l' t k' [Hp Hc] Hrun. unfold latest_try in Hrun.
    destruct (execute_cases (Query.latest_query db (pageid l)) k)
      as [(k1 & E)|(e & k1 & E)]; rewrite E in Hrun; inversion Hrun; subst; [|auto].
    destruct (foldl_assign_latest_frame l (Query.latest_query db (pageid l))).
    split; congruence. }
  destruct r1 as [n1|e1]; [|exact Hframe].
  destruct (db_attempts <=? n1)%nat; [exact Hframe|].
  destruct (retry is_OperationalError (tp_revs_try db a1) db_attempts 0 [] c1)
    as [[tp_revs r2] c2].
  destruct r2 as [n2|e2]; [|exact Hframe].
  destruct (db_attempts <=? n2)%nat; [exact Hframe|].
  destruct tp_revs as [|rev0 tp_revs]; [exact Hframe|].
  destruct (resolve_record start_idx a1 (rev0 :: tp_revs) c2) as [->|(prev & [->|(v & ->)])];
    exact Hframe.
Qed.

Lemma fault_free_ping c : fault_free (snd (ping_or_reconnect c)) = fault_free c.
Proof. unfold ping_or_reconnect. destruct (alive c); reflexivity. Qed.

Lemma latest_try_fault_free a c :
  fault_free c = true ->
  latest_try db a c = ((with_latest db a, Completed), after_queries 1 c).
Proof. intros Hc. unfold latest_try. rewrite (execute_fault_free _ _ Hc). reflexivity. Qed.

Lemma tp_revs_try_fault_free a c :
  fault_free c = true ->
  tp_revs_try db a [] c = ((talk_revisions db a, Completed), after_queries 1 c).
Proof. intros Hc. unfold tp_revs_try. rewrite (execute_fault_free _ _ Hc). reflexivity. Qed.

(** The first two sites of [clean_article] on a connection without
    faults: the record is the one the metadata query leaves, and the
    rest of the function is given the talk page revisions found. *)
Lemma clean_article_fault_free a c start_idx :
  wp10_scale !! PyStr.lower (class a) = Some start_idx ->
  fault_free c = true ->
  clean_article filter_templates site db a c =
  match talk_revisions db (with_latest db a) with
  | [] => (Returned (with_latest db a), after_queries 2 (snd (ping_or_reconnect c)))
  | tp_revs =>
      resolve filter_templates site db start_idx (with_latest db a) tp_revs
        (after_queries 2 (snd (ping_or_reconnect c)))
  end.
Proof.
  intros Hclass Hc. unfold clean_article. rewrite Hclass.
  set (c0 := snd (ping_or_reconnect c)).
  assert (fault_free c0 = true) as Hc0 by (unfold c0; rewrite fault_free_ping; exact Hc).
  unfold db_attempts at 1.
  rewrite (retry_first_attempt _ _ _ _ _ _ _ (latest_try_fault_free a c0 Hc0)).
  change (db_attempts <=? 0)%nat with false. cbv iota.
  unfold db_attempts at 1.
  rewrite (retry_first_attempt _ _ _ _ _ _ _
             (tp_revs_try_fault_free (with_latest db a) _ (fault_free_after 1 c0 Hc0))).
  change (db_attempts <=? 0)%nat with false. cbv iota.
  rewrite after_queries_add. simpl (1 + 1)%nat.
  destruct (talk_revisions db (with_latest db a)); reflexivity.
Qed.

(** C7. When no revision of the talk page is earlier than the current
    revision of the article, [clean_article] stops there: the record it
    leaves is the one the metadata query left (or the one it was given,
    when that query did not complete), nothing else is assigned; on a
    connection without faults it returns that record after the two
    queries, without a scan and without a further query. *)
Theorem clean_article_no_earlier_talk_revision (a : articledata) (c : conn) start_idx :
  wp10_scale !! PyStr.lower (class a) = Some start_idx ->
  Query.tp_revquery db (talkpageid (with_latest db a)) (revid (with_latest db a)) = [] ->
  (record_of (fst (clean_article filter_templates site db a c)) = with_latest db a
   \/ record_of (fst (clean_article filter_templates site db a c)) = a)
  /\ (fault_free c = true ->
      clean_article filter_templates site db a c
      = (Returned (with_latest db a), after_queries 2 (snd (ping_or_reconnect c)))).
Proof.
  intros Hclass Hrows.
  assert (talk_revisions db (with_latest db a) = []) as Hnone.
  { unfold talk_revisions. rewrite Hrows. reflexivity. }
  split.
  - unfold clean_article. rewrite Hclass.
    set (c0 := snd (ping_or_reconnect c)).
    destruct (retry is_OperationalError (latest_try db) db_attempts 0 a c0)
      as [[a1 r1] c1] eqn:H1.
    destruct (retry_cases (fun l => l = a) (fun l => l = with_latest db a) _ _
                (latest_try_cases a) _ _ _ _ _ _ _ eq_refl H1)
      as [(n & -> & Hn & ->)|[[->|(e & ->)] ->]].
    2:{ right. reflexivity. }
    2:{ right. reflexivity. }
    apply Nat.leb_gt in Hn. simpl (0 + db_attempts)%nat in Hn. rewrite Hn.
    destruct (retry is_OperationalError (tp_revs_try db (with_latest db a)) db_attempts 0 [] c1)
      as [[tp_revs r2] c2] eqn:H2.
    destruct (retry_cases (fun l => l = []) (fun l => l = talk_revisions db (with_latest db a)) _ _
                (tp_revs_try_cases (with_latest db a)) _ _ _ _ _ _ _ eq_refl H2)
      as [(n2 & -> & Hn2 & ->)|[[->|(e & ->)] ->]].
    + apply Nat.leb_gt in Hn2. simpl (0 + db_attempts)%nat in Hn2. rewrite Hn2, Hnone.
      left. reflexivity.
    + left. reflexivity.
    + left. reflexivity.
  - intros Hc. rewrite (clean_article_fault_free a c start_idx Hclass Hc), Hnone.
    reflexivity.
Qed.

(** C1 as the code has it. A record whose class is not a key of
    [wp10_scale] makes [clean_article] raise [KeyError] before any query
    and any assignment, and the loop of [clean_training_set] does not
    handle it: the run ends there with the rows written so far, and the
    records after it are not processed. *)
Theorem unmapped_class_ends_the_run (a : articledata) (rest outfile : list articledata)
    (c : conn) :
  wp10_scale !! PyStr.lower (class a) = None ->
  clean_article filter_templates site db a c = (Raised KeyError a, c)
  /\ write_articles filter_templates site db (a :: rest) outfile c
     = (Aborted KeyError outfile, c).
Proof.
  intros Hclass.
  assert (clean_article filter_templates site db a c = (Raised KeyError a, c)) as H.
  { unfold clean_article. rewrite Hclass. reflexivity. }
  split; [exact H|]. simpl. rewrite H. reflexivity.
Qed.

(** *** The scan and the boundary *)

Lemma assess_revision_next start_idx revision prev c p' c' :
  assess_revision filter_templates db start_idx revision prev c = (Ok (Next p'), c') ->
  p' = prev \/ p' = tp_id revision.
Proof.
  unfold assess_revision, bind, ret.
  destruct (tp_content revision) as [[|ch content]|]; try (intros H; inversion H; auto; fail).
  destruct (map_ratings _ []) as [|x l].
  - destruct (is_reverted db (tp_id revision) default_radius c) as [[v|e] c1];
      [|discriminate].
    destruct (py_true v); intros H; inversion H; auto.
  - destruct (list_max x l =? start_idx); intros H; inversion H; auto.
Qed.

Lemma assess_subset_prev start_idx rev_subset :
  forall prev c p' d c',
    assess_subset filter_templates db start_idx rev_subset prev c = (Ok (p', d), c') ->
    p' = prev \/ In p' (List.map tp_id rev_subset).
Proof.
  induction rev_subset as [|revision rest IH]; intros prev c p' d c' H; simpl in H.
  - inversion H; auto.
  - unfold bind in H.
    destruct (assess_revision filter_templates db start_idx revision prev c)
      as [[[p1|]|e] c1] eqn:E; [| |discriminate].
    + apply assess_revision_next in E.
      apply IH in H. simpl. destruct H as [->|H]; [|auto].
      destruct E as [->| ->]; auto.
    + inversion H; auto.
Qed.

Lemma scan_loop_prev start_idx tp_revs fuel :
  forall i prev c p' c',
    scan_loop filter_templates site db fuel i start_idx tp_revs prev c = (Ok p', c') ->
    p' = prev \/ In p' (List.map tp_id tp_revs).
Proof.
  induction fuel as [|fuel IH]; intros i prev c p' c' H; simpl in H.
  - inversion H; auto.
  - destruct (i <? List.length tp_revs)%nat; [|inversion H; auto].
    destruct (get_revisions site (take slice_size (drop i tp_revs)))
      as [rev_subset|e] eqn:Hget; [|discriminate].
    apply get_revisions_ids in Hget.
    unfold bind in H.
    destruct (assess_subset filter_templates db start_idx rev_subset prev c)
      as [[[p1 d]|e] c1] eqn:E; [|discriminate].
    assert (p1 = prev \/ In p1 (List.map tp_id tp_revs)) as Hp1.
    { apply assess_subset_prev in E. destruct E as [->|E]; [auto|right].
      rewrite Hget in E. apply in_map_iff in E as (rev & <- & Hin).
      apply in_map. eapply In_take_drop; exact Hin. }
    simpl in H. destruct d.
    + inversion H; subst. exact Hp1.
    + apply IH in H. destruct H as [->|H]; auto.
Qed.

Lemma foldl_append_tp_rev acc rows :
  foldl append_tp_rev acc rows
  = (acc ++ List.map (fun row => {| tp_id := fst row; tp_timestamp := snd row;
                                    tp_content := None |}) rows)%list.
Proof.
  revert acc; induction rows as [|row rows IH]; intros acc; simpl.
  - by rewrite app_nil_r.
  - rewrite IH. unfold append_tp_rev. by rewrite <- app_assoc.
Qed.

(** A revision given to the scan is a revision of the talk page in the
    store, earlier than the revision of the article in the record. *)
Lemma talk_revisions_rows a revid0 :
  In revid0 (List.map tp_id (talk_revisions db a)) ->
  exists row start,
    In row (revision db) /\ rev_id row = revid0
    /\ talkpageid a = Some (rev_page row)
    /\ timestamp_of db (revid a) = Some start
    /\ rev_timestamp row < start.
Proof.
  unfold talk_revisions. rewrite foldl_append_tp_rev. simpl.
  rewrite map_map. simpl. unfold Query.tp_revquery. rewrite map_map. simpl.
  intros H. apply in_map_iff in H as (row & Hid & Hin).
  apply order_desc_In, filter_In in Hin as [Hin Hsel].
  apply andb_true_iff in Hsel as [Hpage Hts].
  unfold sql_eq in Hpage. unfold sql_lt in Hts.
  destruct (talkpageid a) as [tp|]; [|discriminate].
  destruct (timestamp_of db (revid a)) as [start|]; [|discriminate].
  apply Z.eqb_eq in Hpage. apply Z.ltb_lt in Hts.
  exists row, start. subst. auto.
Qed.

(** C3 as the code has it. The talk page revision that [clean_article]
    leaves in the record is the one the record had when the scan began
    (the latest revision of the talk page that the metadata query gave,
    whatever its timestamp, or the value of the input when that query
    gave nothing), or it is a boundary found by the scan; a boundary is
    a revision of the talk page whose timestamp is strictly earlier than
    the timestamp of the starting revision of the article. *)
Theorem talkpagerev_kept_or_earlier_boundary (a : articledata) (c : conn) :
  let r := record_of (fst (clean_article filter_templates site db a c)) in
  talkpagerev r = talkpagerev a
  \/ talkpagerev r = talkpagerev (with_latest db a)
  \/ exists row start,
       In row (revision db)
       /\ talkpagerev r = Some (rev_id row)
       /\ talkpageid (with_latest db a) = Some (rev_page row)
       /\ timestamp_of db (revid (with_latest db a)) = Some start
       /\ rev_timestamp row < start.
Proof.
  unfold clean_article.
  destruct (wp10_scale !! PyStr.lower (class a)) as [start_idx|]; [|left; reflexivity].
  set (c0 := snd (ping_or_reconnect c)).
  destruct (retry is_OperationalError (latest_try db) db_attempts 0 a c0)
    as [[a1 r1] c1] eqn:H1.
  destruct (retry_cases (fun l => l = a) (fun l => l = with_latest db a) _ _
              (latest_try_cases a) _ _ _ _ _ _ _ eq_refl H1)
    as [(n & -> & Hn & ->)|[[->|(e & ->)] ->]]; [|left; reflexivity|left; reflexivity].
  apply Nat.leb_gt in Hn. simpl (0 + db_attempts)%nat in Hn. rewrite Hn.
  destruct (retry is_OperationalError (tp_revs_try db (with_latest db a)) db_attempts 0 [] c1)
    as [[tp_revs r2] c2] eqn:H2.
  destruct (retry_cases (fun l => l = []) (fun l => l = talk_revisions db (with_latest db a)) _ _
              (tp_revs_try_cases (with_latest db a)) _ _ _ _ _ _ _ eq_refl H2)
    as [(n2 & -> & Hn2 & ->)|[[->|(e & ->)] ->]];
    [|right; left; reflexivity|right; left; reflexivity].
  apply Nat.leb_gt in Hn2. simpl (0 + db_attempts)%nat in Hn2. rewrite Hn2.
  destruct (talk_revisions db (with_latest db a)) as [|rev0 revs] eqn:Htp;
    [right; left; reflexivity|].
  rewrite <- Htp. unfold resolve.
  destruct (scan filter_templates site db start_idx (talk_revisions db (with_latest db a)) c2)
    as [[prev|e] c3] eqn:Hscan; [|right; left; reflexivity].
  destruct (prev <? 0) eqn:Hneg; [right; left; reflexivity|].
  apply Z.ltb_ge in Hneg.
  apply scan_loop_prev in Hscan. destruct Hscan as [->|Hin]; [lia|].
  destruct (talk_revisions_rows _ _ Hin) as (row & start & Hrow & Hid & Hpage & Hstart & Hlt).
  right; right. exists row, start. repeat split; try assumption.
  destruct (resolve_article_revision_record (with_latest db a) prev c3) as [->|(v & ->)];
    simpl; congruence.
Qed.

(** *** The revert test of a revision that the store does not have *)

Lemma is_reverted_try_no_row revid radius :
  Query.cur_query db revid = [] ->
  forall l c l' t c',
    l = revert_init -> is_reverted_try db revid radius l c = ((l', t), c') ->
    l' = revert_init.
Proof.
  intros Hrows l c l' t c' -> H. unfold is_reverted_try in H. rewrite Hrows in H.
  destruct (execute_cases (@nil (Z * Z)) c) as [(c1 & E)|(e & c1 & E)];
    rewrite E in H; simpl in H; inversion H; reflexivity.
Qed.

Lemma is_reverted_no_row revid radius c v c' :
  Query.cur_query db revid = [] ->
  is_reverted db revid radius c = (Ok v, c') ->
  v = Some false \/ v = None.
Proof.
  intros Hrows H. unfold is_reverted in H.
  destruct (retry is_OperationalError (is_reverted_try db revid radius)
              db_attempts 0 revert_init c) as [[l r] c1] eqn:Hretry.
  assert (l = revert_init) as ->.
  { eapply (retry_invariant (fun l => l = revert_init)); [| |exact Hretry]; [|reflexivity].
    intros; eapply is_reverted_try_no_row; eassumption. }
  destruct r as [n|e]; [|discriminate].
  destruct (db_attempts <=? n)%nat; inversion H; auto.
Qed.

(** C6 as the code has it. When the point query finds no row for the
    revision, [is_reverted] does not run the window queries and answers
    [False], the answer it gives for a revision that was not reverted
    ([None] when the attempts are exhausted, which is as false); the
    scan takes that answer for a revision without assessment as "not
    reverted" and stops there. *)
Theorem is_reverted_without_row_answers_false (revid : Z) (radius : nat) (c : conn) :
  Query.cur_query db revid = [] ->
  (forall v c', is_reverted db revid radius c = (Ok v, c') -> v = Some false \/ v = None)
  /\ (fault_free c = true ->
      is_reverted db revid radius c = (Ok (Some false), after_queries 1 c))
  /\ (forall start_idx revision prev content t c',
        tp_id revision = revid -> radius = default_radius ->
        tp_content revision = Some content -> content <> EmptyString ->
        map_ratings (get_assessments filter_templates (truncate content)) [] = [] ->
        assess_revision filter_templates db start_idx revision prev c = (Ok t, c') ->
        t = Stop).
Proof.
  intros Hrows. split; [|split].
  - intros v c' H. eapply is_reverted_no_row; eassumption.
  - intros Hc. rewrite (is_reverted_fault_free _ _ _ _ Hc).
    unfold reverted, revert_queries. rewrite Hrows. reflexivity.
  - intros start_idx revision prev content t c' Hid Hrad Hcontent Hne Hnone H.
    unfold assess_revision, bind, ret in H. rewrite Hcontent in H.
    destruct content as [|ch content]; [congruence|].
    rewrite Hnone in H. rewrite Hid, <- Hrad in H.
    destruct (is_reverted db revid radius c) as [[v|e] c1] eqn:E; [|discriminate].
    destruct (is_reverted_no_row _ _ _ _ _ Hrows E) as [-> | ->];
      simpl in H; inversion H; reflexivity.
Qed.

(** C9 as the code has it. A revision for which the content API returns
    no content keeps an absent content whenever the fetch returns; the
    fetch returns for every batch when the API answers each request
    with an entry ['query'] that lists requested revisions only, and it
    raises [KeyError] when the reply to its first request has no entry
    ['query'].  The revisions returned are those of the batch in their
    order, and the scan passes over such a revision, leaving
    [prev_tprevid] and the connection as they were and going on with
    the rest of the slice. *)
Theorem absent_content_stays_absent_and_is_skipped (revisions : list TPRevision) :
  (forall rev, In rev revisions -> tp_content rev = None) ->
  (answers_requested site revisions ->
   exists revisions', get_revisions site revisions = Ok revisions')
  /\ (revisions <> [] ->
      submit_all (site (requested revisions 0)) None = None ->
      get_revisions site revisions = Raise KeyError)
  /\ (forall revisions',
        get_revisions site revisions = Ok revisions' ->
        List.map tp_id revisions' = List.map tp_id revisions
        /\ forall rev,
             In rev revisions' -> withholds site revisions (tp_id rev) ->
             tp_content rev = None
             /\ forall start_idx prev rest c,
                  assess_revision filter_templates db start_idx rev prev c
                  = (Ok (Next prev), c)
                  /\ assess_subset filter_templates db start_idx (rev :: rest) prev c
                     = assess_subset filter_templates db start_idx rest prev c).
Proof.
  intros Hnone. split; [|split].
  - intros Hsite. eapply get_revisions_loop_returns; [exact Hsite | reflexivity].
  - intros Hne Hsilent. destruct revisions as [|rev0 rest]; [congruence|].
    unfold requested in Hsilent. unfold get_revisions. simpl.
    simpl in Hsilent. rewrite Hsilent. reflexivity.
  - intros revisions' Hget. split; [eapply get_revisions_ids; exact Hget|].
    intros rev Hin Hw.
    pose proof (get_revisions_withheld site _ _ Hnone Hget rev Hin Hw) as Hrev.
    split; [exact Hrev|]. intros start_idx prev rest c.
    assert (assess_revision filter_templates db start_idx rev prev c
            = (Ok (Next prev), c)) as Hturn.
    { unfold assess_revision. rewrite Hrev. reflexivity. }
    split; [exact Hturn|]. simpl. unfold bind. rewrite Hturn. reflexivity.
Qed.

(** *** The scan as one pass over the fetched revisions *)

Lemma assess_revision_unread start_idx revision prev c :
  read_revision filter_templates revision = Unread ->
  assess_revision filter_templates db start_idx revision prev c = (Ok (Next prev), c).
Proof.
  unfold read_revision, assess_revision.
  destruct (tp_content revision) as [[|ch content]|]; try reflexivity.
  destruct (map_ratings _ []); discriminate.
Qed.

Lemma assess_revision_rated start_idx revision prev c cur_idx :
  read_revision filter_templates revision = Rated cur_idx ->
  assess_revision filter_templates db start_idx revision prev c
  = (Ok (if cur_idx =? start_idx then Next (tp_id revision) else Stop), c).
Proof.
  unfold read_revision, assess_revision.
  destruct (tp_content revision) as [[|ch content]|]; try discriminate.
  destruct (map_ratings _ []) as [|x l]; [discriminate|].
  intros H; inversion H; subst. destruct (list_max x l =? start_idx); reflexivity.
Qed.

Lemma assess_subset_cons start_idx revision rest prev c :
  assess_subset filter_templates db start_idx (revision :: rest) prev c =
  match assess_revision filter_templates db start_idx revision prev c with
  | (Ok (Next p), c1) => assess_subset filter_templates db start_idx rest p c1
  | (Ok Stop, c1) => (Ok (prev, true), c1)
  | (Raise e, c1) => (Raise e, c1)
  end.
Proof.
  simpl. unfold bind.
  destruct (assess_revision filter_templates db start_idx revision prev c)
    as [[[p|]|e] c1]; reflexivity.
Qed.

Lemma assess_subset_app start_idx l1 l2 :
  forall prev c,
    assess_subset filter_templates db start_idx (l1 ++ l2) prev c =
    match assess_subset filter_templates db start_idx l1 prev c with
    | (Ok (p, false), c1) => assess_subset filter_templates db start_idx l2 p c1
    | other => other
    end.
Proof.
  induction l1 as [|revision l1 IH]; intros prev c; simpl; [reflexivity|].
  unfold bind.
  destruct (assess_revision filter_templates db start_idx revision prev c)
    as [[[p|]|e] c1]; [apply IH | reflexivity | reflexivity].
Qed.

Lemma scan_loop_one_pass start_idx tp_revs fetched :
  fetches site tp_revs fetched ->
  forall fuel k prev c,
    (List.length tp_revs - k * slice_size <= fuel)%nat ->
    scan_loop filter_templates site db fuel (k * slice_size) start_idx tp_revs prev c
    = first_of (assess_subset filter_templates db start_idx
                  (drop (k * slice_size) fetched) prev c).
Proof.
  intros [Hlen Hfetch] fuel.
  induction fuel as [|fuel IH]; intros k prev c Hfuel.
  - simpl. rewrite drop_ge by lia. reflexivity.
  - simpl scan_loop.
    destruct (k * slice_size <? List.length tp_revs)%nat eqn:Hlt.
    + apply Nat.ltb_lt in Hlt. rewrite Hfetch.
      rewrite <- (take_drop slice_size (drop (k * slice_size) fetched)) at 2.
      rewrite assess_subset_app. unfold bind.
      destruct (assess_subset filter_templates db start_idx
                  (take slice_size (drop (k * slice_size) fetched)) prev c)
        as [[[p d]|e] c1]; [|reflexivity].
      simpl. destruct d; [reflexivity|].
      rewrite drop_drop.
      replace (k * slice_size + slice_size)%nat with (S k * slice_size)%nat by lia.
      apply IH. unfold slice_size in *. lia.
    + apply Nat.ltb_ge in Hlt. rewrite drop_ge by lia. reflexivity.
Qed.

Lemma scan_one_pass start_idx tp_revs fetched c :
  fetches site tp_revs fetched ->
  scan filter_templates site db start_idx tp_revs c
  = first_of (assess_subset filter_templates db start_idx fetched (-1) c).
Proof.
  intros Hf. unfold scan.
  rewrite (scan_loop_one_pass start_idx tp_revs fetched Hf _ 0%nat) by lia.
  reflexivity.
Qed.

(** A run of revisions that carry the class of the record or have no
    content: the pass goes through it and holds the last of them that
    carries the class. *)
Lemma assess_subset_run start_idx run :
  Forall (fun rev => read_revision filter_templates rev = Rated start_idx \/ read_revision filter_templates rev = Unread) run ->
  forall prev c, exists p,
    assess_subset filter_templates db start_idx run prev c = (Ok (p, false), c)
    /\ (Forall (fun rev => read_revision filter_templates rev = Unread) run -> p = prev).
Proof.
  induction 1 as [|rev run Hrev Hrun IH]; intros prev c; simpl.
  - exists prev. auto.
  - unfold bind. destruct Hrev as [Hrev|Hrev].
    + rewrite (assess_revision_rated _ _ _ _ _ Hrev), Z.eqb_refl.
      destruct (IH (tp_id rev) c) as (p & Hp & _). exists p. split; [exact Hp|].
      intros Hall. apply Forall_cons in Hall as [Hu _]. congruence.
    + rewrite (assess_revision_unread _ _ _ _ Hrev).
      destruct (IH prev c) as (p & Hp & Hsame). exists p. split; [exact Hp|].
      intros Hall. apply Forall_cons in Hall as [_ Hall]. auto.
Qed.

(** C4. When the scan meets revisions that carry the class of the
    record (their highest rating has the index of that class), each of
    them becomes [prev_tprevid] and the scan goes on: over a range of
    such revisions (and of revisions without content), ended by the
    end of the list or by a revision of another class, the boundary is
    the oldest revision of the range that carries the class, not the
    newest; it is the talk page revision that the record is given. *)
Theorem scan_yields_oldest_revision_of_the_class
    (start_idx : Z) (tp_revs fetched newer older rest : list TPRevision)
    (boundary : TPRevision) (a : articledata) (c : conn) :
  fetches site tp_revs fetched ->
  fetched = (newer ++ boundary :: older ++ rest)%list ->
  Forall (fun rev => read_revision filter_templates rev = Rated start_idx \/ read_revision filter_templates rev = Unread) newer ->
  read_revision filter_templates boundary = Rated start_idx ->
  Forall (fun rev => read_revision filter_templates rev = Unread) older ->
  (rest = [] \/ exists other cur_idx rest',
                  rest = other :: rest' /\ read_revision filter_templates other = Rated cur_idx
                  /\ cur_idx <> start_idx) ->
  scan filter_templates site db start_idx tp_revs c = (Ok (tp_id boundary), c)
  /\ (0 <= tp_id boundary ->
      talkpagerev (record_of (fst (resolve filter_templates site db start_idx a tp_revs c)))
      = Some (tp_id boundary)).
Proof.
  intros Hfetch Hshape Hnewer Hboundary Holder Hrest.
  assert (scan filter_templates site db start_idx tp_revs c = (Ok (tp_id boundary), c))
    as Hscan.
  { rewrite (scan_one_pass _ _ _ _ Hfetch), Hshape.
    rewrite assess_subset_app.
    destruct (assess_subset_run start_idx newer Hnewer (-1) c) as (p & -> & _).
    rewrite assess_subset_cons, (assess_revision_rated _ _ _ _ _ Hboundary), Z.eqb_refl.
    rewrite assess_subset_app.
    destruct (assess_subset_run start_idx older) with (prev := tp_id boundary) (c := c)
      as (p' & -> & Hp').
    { eapply Forall_impl; [exact Holder|]. simpl. auto. }
    rewrite (Hp' Holder).
    destruct Hrest as [->|(other & cur_idx & rest' & -> & Hother & Hne)]; [reflexivity|].
    rewrite assess_subset_cons, (assess_revision_rated _ _ _ _ _ Hother).
    apply Z.eqb_neq in Hne. rewrite Hne. reflexivity. }
  split; [exact Hscan|].
  intros Hpos. unfold resolve. rewrite Hscan.
  apply Z.ltb_ge in Hpos. rewrite Hpos.
  destruct (resolve_article_revision_record a (tp_id boundary) c) as [->|(v & ->)];
    reflexivity.
Qed.

End CleanArticle.

(** * The statements on the small wiki *)

Section OnTheExample.

Import Example.

(** C1, counterexample. The first record has a class that the scale
    does not have: the run ends with [KeyError], nothing is written and
    the second record, whose class is known, is not processed. *)
Lemma unmapped_class_is_not_skipped :
  clean_training_set filter_templates site db [article "X"; article "B"] c0
  = (Aborted KeyError [], c0)
  /\ ~ run_finishes
        (clean_training_set filter_templates site db [article "X"; article "B"] c0).
Proof.
  assert (clean_training_set filter_templates site db [article "X"; article "B"] c0
          = (Aborted KeyError [], c0)) as H by (vm_compute; reflexivity).
  split; [exact H|]. intros (outfile & c' & H'). rewrite H in H'. discriminate.
Qed.

(** C1 as the code has it, on the same dataset. *)
Lemma unmapped_class_ends_the_run_witness :
  wp10_scale !! PyStr.lower (class (article "X")) = None
  /\ write_articles filter_templates site db (article "X" :: [article "B"]) [] c0
     = (Aborted KeyError [], c0).
Proof.
  split; [vm_compute; reflexivity|].
  apply (unmapped_class_ends_the_run filter_templates site db (article "X")
           [article "B"] [] c0).
  vm_compute; reflexivity.
Defined.


(** C3, counterexample. The record of class GA: the newest earlier
    revision of the talk page has class B, the scan stops without a
    boundary, and the record keeps revision 23 of the talk page, written
    at 300, after the starting revision 11 of the article, written at
    200. *)
Lemma talkpagerev_after_start :
  clean_article filter_templates site db (article "GA") c0
  = (Returned {| revid := Some 11; pageid := 1; talkpageid := Some 2;
                 talkpagerev := Some 23; class := "GA" |},
     after_queries 2 c0)
  /\ ~ talkpagerev_before_start db (article "GA")
         (record_of (fst (clean_article filter_templates site db (article "GA") c0))).
Proof.
  split; [vm_compute; reflexivity|].
  intros H. specialize (H 300 200).
  assert (300 < 200) as Hlt by (apply H; vm_compute; reflexivity).
  lia.
Qed.

(** C5, at the failing input. The table has the entry, yet a banner
    named [maths rating] gives an assessment whose project is that name,
    not the name the table maps it to; and the table is asked for the
    name as written, so [Maths rating] is not in it. *)
Theorem maths_rating_is_not_translated :
  translations !! "maths rating" = Some "wikiproject mathematics"
  /\ get_assessments filter_templates "{{maths rating|class=B}}"
     = [{| rating := "b"; importance := None; project := Some "maths rating" |}]
  /\ bool_decide (is_Some (translations !! "Maths rating")) = false.
Proof. repeat split; vm_compute; reflexivity. Qed.

(** C6, counterexample. The store has no revision 99: the check
    answers [False] after the point query, and the scan stops at a
    revision 99 without assessment as it would at one that was not
    reverted. *)
Lemma is_reverted_without_row_is_an_answer :
  Query.cur_query db 99 = []
  /\ is_reverted db 99 default_radius c0 = (Ok (Some false), after_queries 1 c0)
  /\ ~ reports_unable (fst (is_reverted db 99 default_radius c0))
  /\ assess_revision filter_templates db 3
       {| tp_id := 99; tp_timestamp := 65; tp_content := Some "prose" |} 22 c0
     = (Ok Stop, after_queries 1 c0).
Proof.
  split; [vm_compute; reflexivity|]. split; [vm_compute; reflexivity|].
  split; [|vm_compute; reflexivity].
  intros H. apply (H false). vm_compute; reflexivity.
Qed.

(** C6 as the code has it, on revision 99. *)
Lemma is_reverted_without_row_answers_false_witness :
  Query.cur_query db 99 = []
  /\ is_reverted db 99 default_radius c0 = (Ok (Some false), after_queries 1 c0).
Proof.
  split; [vm_compute; reflexivity|].
  apply (is_reverted_without_row_answers_false filter_templates db 99 default_radius c0).
  - vm_compute; reflexivity.
  - vm_compute; reflexivity.
Defined.

(** C7, on the wiki whose talk page has no revision before the last
    edit of the article. *)
Lemma clean_article_no_earlier_talk_revision_witness :
  wp10_scale !! PyStr.lower (class (article "B")) = Some 3
  /\ Query.tp_revquery db_late (talkpageid (with_latest db_late (article "B")))
       (revid (with_latest db_late (article "B"))) = []
  /\ clean_article filter_templates site db_late (article "B") c0
     = (Returned {| revid := Some 11; pageid := 1; talkpageid := Some 2;
                    talkpagerev := Some 23; class := "B" |},
        after_queries 2 c0).
Proof.
  split; [vm_compute; reflexivity|]. split; [vm_compute; reflexivity|].
  apply (clean_article_no_earlier_talk_revision filter_templates site db_late
           (article "B") c0 3).
  - vm_compute; reflexivity.
  - vm_compute; reflexivity.
  - vm_compute; reflexivity.
Defined.

(** C8, at the failing input. The fourth query of the call is the
    fallback query: a [ProgrammingError] there is not let out, the query
    is run three times with a new connection each time and the call
    returns; the same error at the third query, which finds the revision
    of the article before the boundary, leaves the call at once. *)
Theorem fallback_query_retries_every_error :
  clean_article filter_templates site db (article "B")
    (with_faults [None; None; None; Some ProgrammingError;
                  Some ProgrammingError; Some ProgrammingError])
  = (Returned {| revid := Some 11; pageid := 1; talkpageid := Some 2;
                 talkpagerev := Some 21; class := "B" |},
     {| faults := []; alive := true; executed := 6; reconnects := 3 |})
  /\ clean_article filter_templates site db (article "B")
       (with_faults [None; None; Some ProgrammingError])
     = (Raised (MySQLError ProgrammingError)
          {| revid := Some 11; pageid := 1; talkpageid := Some 2;
             talkpagerev := Some 21; class := "B" |},
        {| faults := []; alive := true; executed := 3; reconnects := 0 |}).
Proof. split; vm_compute; reflexivity. Qed.

(** The fetch fills the three revisions of the example in one slice. *)
Lemma example_fetches : fetches site tp_revs (List.map fill tp_revs).
Proof.
  split; [reflexivity|]. intros [|k]; [vm_compute; reflexivity|].
  rewrite !drop_ge by (simpl; unfold slice_size; lia). reflexivity.
Qed.

(** C4, on the example: revisions 22 and 21 carry class B and revision
    20 class C; the boundary is 21, the older of the two, not 22. *)
Lemma scan_yields_oldest_revision_of_the_class_witness :
  read_revision filter_templates (fill {| tp_id := 22; tp_timestamp := 70; tp_content := None |})
  = Rated 3
  /\ read_revision filter_templates (fill {| tp_id := 21; tp_timestamp := 60; tp_content := None |})
     = Rated 3
  /\ scan filter_templates site db 3 tp_revs c0 = (Ok 21, c0)
  /\ talkpagerev (record_of (fst (resolve filter_templates site db 3
                                    (with_latest db (article "B")) tp_revs c0)))
     = Some 21.
Proof.
  split; [vm_compute; reflexivity|]. split; [vm_compute; reflexivity|].
  assert (0 <= 21) as Hpos by lia.
  destruct (scan_yields_oldest_revision_of_the_class filter_templates site db 3
              tp_revs (List.map fill tp_revs)
              [fill {| tp_id := 22; tp_timestamp := 70; tp_content := None |}]
              []
              [fill {| tp_id := 20; tp_timestamp := 50; tp_content := None |}]
              (fill {| tp_id := 21; tp_timestamp := 60; tp_content := None |})
              (with_latest db (article "B")) c0) as [Hscan Hrecord].
  - exact example_fetches.
  - reflexivity.
  - constructor; [left; vm_compute; reflexivity | constructor].
  - vm_compute; reflexivity.
  - constructor.
  - right. exists (fill {| tp_id := 20; tp_timestamp := 50; tp_content := None |}), 2, [].
    split; [reflexivity|]. split; [vm_compute; reflexivity | discriminate].
  - split; [exact Hscan | exact (Hrecord Hpos)].
Defined.

(** The API of the example lists the revisions it is asked for, and
    has no text for revision 24. *)
Lemma example_site_answers revisions : answers_requested site revisions.
Proof.
  intros i. eexists. split; [reflexivity|].
  unfold listed; simpl. intros rv Hin. rewrite app_nil_r in Hin.
  apply in_map_iff in Hin as (id & <- & Hid). exact Hid.
Qed.

Lemma example_site_withholds revisions : withholds site revisions 24.
Proof.
  intros i q rv Hq Hin Hid. simpl in Hq. inversion Hq; subst q.
  unfold listed in Hin; simpl in Hin. rewrite app_nil_r in Hin.
  apply in_map_iff in Hin as (id & <- & _). simpl in *. subst id. reflexivity.
Qed.

(** C9, on a batch of the revisions 22 and 24. *)
Lemma absent_content_stays_absent_and_is_skipped_witness :
  let batch := [{| tp_id := 22; tp_timestamp := 70; tp_content := None |};
                {| tp_id := 24; tp_timestamp := 80; tp_content := None |}] in
  (forall rev, In rev batch -> tp_content rev = None)
  /\ exists revisions',
       get_revisions site batch = Ok revisions'
       /\ forall rev, In rev revisions' -> tp_id rev = 24 ->
            tp_content rev = None
            /\ assess_revision filter_templates db 3 rev 22 c0 = (Ok (Next 22), c0).
Proof.
  intros batch.
  assert (forall rev, In rev batch -> tp_content rev = None) as Hnone.
  { intros rev [<-|[<-|[]]]; reflexivity. }
  split; [exact Hnone|].
  destruct (absent_content_stays_absent_and_is_skipped filter_templates site db batch Hnone)
    as (Hreturns & _ & Hkept).
  destruct (Hreturns (example_site_answers batch)) as [revisions' Hget].
  exists revisions'. split; [exact Hget|].
  intros rev Hin Hid.
  destruct (Hkept revisions' Hget) as [_ Hrev].
  assert (withholds site batch (tp_id rev)) as Hw
    by (rewrite Hid; exact (example_site_withholds batch)).
  destruct (Hrev rev Hin Hw) as [Hcontent Hturn].
  split; [exact Hcontent|]. exact (proj1 (Hturn 3 22 [] c0)).
Defined.

End OnTheExample.

(** * More properties of the code *)

(** ** Strings *)

Lemma lower_char_idempotent a : PyStr.lower_char (PyStr.lower_char a) = PyStr.lower_char a.
Proof. destruct a as [[] [] [] [] [] [] [] []]; reflexivity. Qed.

Lemma lower_char_space a : PyStr.is_space (PyStr.lower_char a) = PyStr.is_space a.
Proof. destruct a as [[] [] [] [] [] [] [] []]; reflexivity. Qed.

Lemma lower_idempotent s : PyStr.lower (PyStr.lower s) = PyStr.lower s.
Proof.
  induction s as [|a s IH]; simpl; [reflexivity|].
  rewrite lower_char_idempotent, IH. reflexivity.
Qed.

Lemma lower_lstrip s : PyStr.lstrip (PyStr.lower s) = PyStr.lower (PyStr.lstrip s).
Proof.
  induction s as [|a s IH]; simpl; [reflexivity|].
  rewrite lower_char_space. destruct (PyStr.is_space a); [exact IH | reflexivity].
Qed.

Lemma lower_rstrip s : PyStr.rstrip (PyStr.lower s) = PyStr.lower (PyStr.rstrip s).
Proof.
  induction s as [|a s IH]; simpl; [reflexivity|].
  rewrite IH, lower_char_space.
  destruct (PyStr.rstrip s) as [|b t]; simpl; [|reflexivity].
  destruct (PyStr.is_space a); reflexivity.
Qed.

Lemma lower_strip s : PyStr.strip (PyStr.lower s) = PyStr.lower (PyStr.strip s).
Proof. unfold PyStr.strip. rewrite lower_lstrip, lower_rstrip. reflexivity. Qed.

Lemma rstrip_idempotent s : PyStr.rstrip (PyStr.rstrip s) = PyStr.rstrip s.
Proof.
  induction s as [|a s IH]; simpl; [reflexivity|].
  destruct (PyStr.rstrip s) as [|b t] eqn:E.
  - destruct (PyStr.is_space a) eqn:Ha; simpl; [reflexivity|]. rewrite Ha. reflexivity.
  - change (PyStr.rstrip (String a (String b t)))
      with (match PyStr.rstrip (String b t) with
            | EmptyString => if PyStr.is_space a then EmptyString
                             else String a EmptyString
            | u => String a u
            end).
    rewrite IH. reflexivity.
Qed.

Lemma lstrip_starts_clean s : starts_clean (PyStr.lstrip s).
Proof.
  induction s as [|a s IH]; simpl; [exact I|].
  destruct (PyStr.is_space a) eqn:Ha; [exact IH | exact Ha].
Qed.

Lemma lstrip_clean s : starts_clean s -> PyStr.lstrip s = s.
Proof. destruct s as [|a s]; simpl; [reflexivity|]. intros ->. reflexivity. Qed.

Lemma rstrip_starts_clean s : starts_clean s -> starts_clean (PyStr.rstrip s).
Proof.
  destruct s as [|a s]; simpl; [auto|]. intros Ha.
  destruct (PyStr.rstrip s); simpl; [rewrite Ha; exact Ha | exact Ha].
Qed.

Lemma strip_idempotent s : PyStr.strip (PyStr.strip s) = PyStr.strip s.
Proof.
  unfold PyStr.strip.
  rewrite (lstrip_clean (PyStr.rstrip (PyStr.lstrip s)))
    by apply rstrip_starts_clean, lstrip_starts_clean.
  apply rstrip_idempotent.
Qed.

(** ** The template finder *)

Lemma get_has_param temp key :
  is_Some (get temp key) <-> has_param temp key = true.
Proof.
  unfold get, has_param. rewrite existsb_exists.
  destruct (List.filter _ (rev (temp_params temp))) as [|p l] eqn:E.
  - split; [intros [v Hv]; discriminate|].
    intros (p & Hin & Hp). exfalso.
    assert (In p (List.filter (fun p => String.eqb (PyStr.strip (fst p)) key)
                    (rev (temp_params temp)))) as H.
    { apply filter_In. split; [apply in_rev; rewrite rev_involutive; exact Hin | exact Hp]. }
    rewrite E in H. exact H.
  - split; [|eauto]. intros _.
    assert (In p (List.filter (fun p => String.eqb (PyStr.strip (fst p)) key)
                    (rev (temp_params temp)))) as H by (rewrite E; by left).
    apply filter_In in H as [Hin Hp]. exists p. split; [|exact Hp].
    apply in_rev. exact Hin.
Qed.

Lemma assess_template_is_Some (temp : template) :
  is_Some (assess_template temp) <-> has_param temp "class" = true.
Proof.
  unfold assess_template, is_candidate.
  destruct (get temp "class") as [v|] eqn:Hget.
  - assert (has_param temp "class" = true) as ->
      by (apply get_has_param; rewrite Hget; eauto).
    rewrite orb_true_r. split; eauto.
  - assert (has_param temp "class" = false) as ->.
    { destruct (has_param temp "class") eqn:E; [|reflexivity].
      apply get_has_param in E. rewrite Hget in E. destruct E; discriminate. }
    split; [|discriminate].
    destruct (_ || _ || false); intros [? ?]; discriminate.
Qed.

(** X1. A template gives an assessment exactly when it has a parameter
    [class]: the test of the name against [wikiproject] and the table of
    translations never decide whether a template is taken. *)
Theorem assessment_iff_class_parameter (temp : template) :
  is_Some (assess_template temp) <-> has_param temp "class" = true.
Proof. exact (assess_template_is_Some temp). Qed.

Lemma collect_assessments_omap templates assessments :
  collect_assessments templates assessments
  = (assessments ++ omap assess_template templates)%list.
Proof.
  revert assessments; induction templates as [|temp rest IH]; intros assessments; simpl.
  - by rewrite app_nil_r.
  - destruct (assess_template temp) as [a|]; rewrite IH; [|reflexivity].
    by rewrite <- app_assoc.
Qed.

(** X2. [get_assessments] returns one assessment for each template of
    the text that has a parameter [class], in the order of the
    templates, and nothing else. *)
Theorem get_assessments_in_template_order
    (filter_templates : string -> list template) (rev_content : string) :
  List.map Some (get_assessments filter_templates rev_content)
  = List.map assess_template
      (List.filter (fun temp => has_param temp "class") (filter_templates rev_content)).
Proof.
  unfold get_assessments. rewrite collect_assessments_omap. simpl.
  induction (filter_templates rev_content) as [|temp rest IH]; simpl; [reflexivity|].
  pose proof (assess_template_is_Some temp) as Hiff.
  destruct (assess_template temp) as [a|] eqn:Ha, (has_param temp "class") eqn:Hc; simpl.
  - rewrite Ha. f_equal. exact IH.
  - assert (false = true) by (apply Hiff; eauto). discriminate.
  - assert (is_Some (@None Assessment)) as [? ?] by (apply Hiff; reflexivity). discriminate.
  - exact IH.
Qed.

(** X3. The rating and the importance of an assessment are in lower
    case and without white space around them: lowering or stripping
    them again changes nothing; its project is the name of the template
    in lower case. *)
Theorem assessments_are_normalised (temp : template) (a : Assessment) :
  assess_template temp = Some a ->
  PyStr.lower (rating a) = rating a /\ PyStr.strip (rating a) = rating a
  /\ (forall imp, importance a = Some imp ->
        PyStr.lower imp = imp /\ PyStr.strip imp = imp)
  /\ project a = Some (PyStr.lower (temp_name temp)).
Proof.
  unfold assess_template. destruct (is_candidate temp); [|discriminate].
  destruct (get temp "class") as [v|]; [|discriminate].
  intros H; inversion H; subst; clear H. simpl.
  assert (forall w, PyStr.lower (PyStr.lower (PyStr.strip w)) = PyStr.lower (PyStr.strip w)
                    /\ PyStr.strip (PyStr.lower (PyStr.strip w)) = PyStr.lower (PyStr.strip w))
    as Hnorm.
  { intros w. split; [apply lower_idempotent|].
    rewrite lower_strip, strip_idempotent. reflexivity. }
  split; [apply Hnorm|]. split; [apply Hnorm|]. split; [|reflexivity].
  intros imp. destruct (has_param temp "importance"); [|discriminate].
  destruct (get temp "importance") as [w|]; [|discriminate].
  simpl. intros H; inversion H; subst. apply Hnorm.
Qed.

(** ** The scale and the indices of a revision *)

Lemma wp10_scale_range key idx : wp10_scale !! key = Some idx -> 0 <= idx <= 6.
Proof.
  unfold wp10_scale. simpl. intros H.
  repeat (apply lookup_insert_Some in H as [[_ <-]|[_ H]]; [lia|]).
  rewrite lookup_empty in H. discriminate.
Qed.

Lemma map_ratings_elem assessments :
  forall cur_idx idx,
    In idx (map_ratings assessments cur_idx) <->
    In idx cur_idx
    \/ exists a, In a assessments /\ wp10_scale !! rating a = Some idx.
Proof.
  induction assessments as [|a rest IH]; intros cur_idx idx; simpl.
  - split; [auto|]. intros [H|(a & [] & _)]. exact H.
  - destruct (wp10_scale !! rating a) as [i|] eqn:E; rewrite IH.
    + rewrite in_app_iff. simpl. split.
      * intros [[H|[<-|[]]]|(b & Hb & Hi)]; eauto.
      * intros [H|(b & [<-|Hb] & Hi)]; eauto.
        rewrite E in Hi. inversion Hi; subst. auto.
    + split.
      * intros [H|(b & Hb & Hi)]; eauto.
      * intros [H|(b & [<-|Hb] & Hi)]; eauto. congruence.
Qed.

Lemma list_max_elem x l : In (list_max x l) (x :: l).
Proof.
  unfold list_max. revert x; induction l as [|y l IH]; intros x; simpl; [auto|].
  destruct (IH (Z.max x y)) as [H|H]; [|auto].
  rewrite <- H. destruct (Z.max_spec x y) as [[_ ->]|[_ ->]]; auto.
Qed.

Lemma list_max_upper x l y : In y (x :: l) -> y <= list_max x l.
Proof.
  unfold list_max. revert x y; induction l as [|z l IH]; intros x y; simpl.
  - intros [->|[]]. lia.
  - pose proof (IH (Z.max x z) (Z.max x z) (or_introl eq_refl)) as Hmax.
    intros [->|[->|H]]; [lia | lia | apply IH; by right].
Qed.

(** X4. The index that the scan compares with the class of the record
    is the largest index that the scale gives to a rating of the
    revision: it is the index of one of its assessments, no rating of
    the revision has a larger one, and it lies between 0 and 6; ratings
    that the scale does not have play no part. *)
Theorem revision_index_is_largest_rating
    (assessments : list Assessment) (x : Z) (l : list Z) :
  map_ratings assessments [] = x :: l ->
  (exists a, In a assessments /\ wp10_scale !! rating a = Some (list_max x l))
  /\ (forall a idx, In a assessments -> wp10_scale !! rating a = Some idx ->
                    idx <= list_max x l)
  /\ 0 <= list_max x l <= 6.
Proof.
  intros Hmap.
  assert (forall idx, In idx (x :: l) <->
                      exists a, In a assessments /\ wp10_scale !! rating a = Some idx)
    as Helem.
  { intros idx. rewrite <- Hmap, map_ratings_elem. simpl. intuition. }
  destruct (proj1 (Helem _) (list_max_elem x l)) as (a & Ha & Hidx).
  split; [eauto|]. split.
  - intros b idx Hb Hi. apply list_max_upper, Helem. eauto.
  - eapply wp10_scale_range; exact Hidx.
Qed.

(** An assessment-free revision: no rating of the revision is in the
    scale. *)
Lemma map_ratings_nil assessments :
  map_ratings assessments [] = [] <->
  forall a, In a assessments -> wp10_scale !! rating a = None.
Proof.
  split.
  - intros Hmap a Ha. destruct (wp10_scale !! rating a) as [idx|] eqn:E; [|reflexivity].
    assert (In idx (map_ratings assessments [])) as H
      by (apply map_ratings_elem; right; eauto).
    rewrite Hmap in H. destruct H.
  - intros Hnone. destruct (map_ratings assessments []) as [|idx l] eqn:E; [reflexivity|].
    assert (In idx (map_ratings assessments [])) as H by (rewrite E; by left).
    apply map_ratings_elem in H as [[]|(a & Ha & Hi)].
    rewrite (Hnone a Ha) in Hi. discriminate.
Qed.

(** ** The truncation of a long revision *)

Lemma take_length n s : String.length (PyStr.take n s) = Nat.min n (String.length s).
Proof.
  revert s; induction n as [|n IH]; intros [|a s]; simpl; try reflexivity.
  rewrite IH. reflexivity.
Qed.

Lemma take_prefix n s : String.prefix (PyStr.take n s) s = true.
Proof.
  revert s; induction n as [|n IH]; intros [|a s]; simpl; try reflexivity.
  destruct (ascii_dec a a); [apply IH | contradiction].
Qed.

(** X5. The text that is parsed has at most 8192 characters and is the
    start of the content of the revision; a content of at most 8192
    characters is parsed whole. *)
Theorem truncate_keeps_the_first_8k (content : string) :
  String.length (truncate content) = Nat.min (8 * 1024) (String.length content)
  /\ String.prefix (truncate content) content = true
  /\ ((String.length content <= 8 * 1024)%nat -> truncate content = content).
Proof.
  unfold truncate.
  destruct (8 * 1024 <? String.length content)%nat eqn:E.
  - apply Nat.ltb_lt in E. split; [apply take_length|]. split; [apply take_prefix|]. lia.
  - apply Nat.ltb_ge in E. split; [lia|]. split; [|reflexivity].
    rewrite <- (take_prefix (String.length content) content) at 1.
    f_equal. clear E. induction content as [|a s IH]; simpl; [reflexivity|].
    f_equal. exact IH.
Qed.

(** ** The revert test under faults *)

Lemma last_nonempty {A} (x : A) (l : list A) : exists y, last (x :: l) = Some y.
Proof.
  revert x; induction l as [|z l IH]; intros x; [eauto|].
  destruct (IH z) as [y Hy]. exists y. exact Hy.
Qed.

(** While the point query names no page, nothing is collected. *)
Lemma is_reverted_try_unresolved db revid radius :
  truthy (rl_pageid (foldl assign_cur revert_init (Query.cur_query db revid))) = false ->
  forall l c l' t c',
    (prev_checksums l = ∅ /\ future_checksums l = [] /\ truthy (rl_pageid l) = false) ->
    is_reverted_try db revid radius l c = ((l', t), c') ->
    prev_checksums l' = ∅ /\ future_checksums l' = [] /\ truthy (rl_pageid l') = false.
Proof.
  intros Hfalse l c l' t c' (Hp & Hf & Hl) H. unfold is_reverted_try in H.
  destruct (foldl_assign_cur_prev l (Query.cur_query db revid)) as [Hp1 Hf1].
  assert (truthy (rl_pageid (foldl assign_cur l (Query.cur_query db revid))) = false)
    as Hstill.
  { destruct (Query.cur_query db revid) as [|row rows] eqn:E; [exact Hl|].
    destruct (last_nonempty row rows) as [[t0 p0] Hlast].
    destruct (foldl_assign_cur_last l _ _ _ Hlast) as [-> _].
    destruct (foldl_assign_cur_last revert_init _ _ _ Hlast) as [Hq _].
    rewrite Hq in Hfalse. exact Hfalse. }
  destruct (execute_cases (Query.cur_query db revid) c) as [(c1 & E1)|(e & c1 & E1)];
    rewrite E1 in H.
  - cbv beta iota zeta in H. rewrite Hstill in H. simpl in H.
    inversion H; subst. repeat split; congruence.
  - inversion H; subst. auto.
Qed.

(** Whenever [is_reverted] answers [True] or [False], the answer is the
    one computed from the three queries, although the checksums that a
    failed attempt collected are kept for the next attempt. *)
Lemma is_reverted_some
    (db : database) (revid : Z) (radius : nat) (c c' : conn) (b : bool) :
  is_reverted db revid radius c = (Ok (Some b), c') ->
  b = reverted db revid radius.
Proof.
  intros Hrun. unfold is_reverted in Hrun.
  destruct (retry is_OperationalError (is_reverted_try db revid radius)
              db_attempts 0 revert_init c) as [[l r] c1] eqn:Hretry.
  destruct r as [n|e]; [|discriminate].
  destruct (db_attempts <=? n)%nat eqn:Hn; [discriminate|].
  apply Nat.leb_gt in Hn. inversion Hrun; subst b c1; clear Hrun.
  unfold reverted.
  destruct (truthy (rl_pageid (foldl assign_cur revert_init (Query.cur_query db revid))))
    eqn:Htruthy.
  - destruct (Query.cur_query db revid) as [|row rows] eqn:Hrows; [discriminate|].
    destruct (last_nonempty row rows) as [[t p] Hlast]. rewrite <- Hrows in *.
    destruct (foldl_assign_cur_last revert_init _ _ _ Hlast) as [Hpid Hts].
    rewrite Hpid, Hts. rewrite Hpid in Htruthy. simpl in Htruthy.
    assert (p <> 0) as Hp by (apply Z.eqb_neq, negb_true_iff, Htruthy).
    assert (future_checksums l = Query.fut_query db (Some p) (Some t) radius
            /\ forall sha, sha ∈ prev_checksums l
                           <-> sha ∈ Query.past_query db (Some p) (Some t) radius)
      as [Hfut Hprev].
    { eapply (retry_exit
                (fun l => future_checksums l = []
                          /\ forall sha, sha ∈ prev_checksums l ->
                                sha ∈ Query.past_query db (Some p) (Some t) radius)
                (fun l => future_checksums l = Query.fut_query db (Some p) (Some t) radius
                          /\ forall sha, sha ∈ prev_checksums l <->
                                sha ∈ Query.past_query db (Some p) (Some t) radius));
        [| |exact Hretry|simpl; lia].
      - intros l0 c0 l1 a0 c2 HP Hb.
        exact (is_reverted_try_windows db revid radius t p Hlast Hp l0 c0 l1 a0 c2 HP Hb).
      - split; [reflexivity|]. simpl. intros sha H. set_solver. }
    rewrite Hfut. apply walk_future_ext. intros sha.
    rewrite Hprev, elem_of_list_to_set. reflexivity.
  - assert (prev_checksums l = ∅ /\ future_checksums l = []
            /\ truthy (rl_pageid l) = false) as (_ & -> & _).
    { eapply (retry_invariant
                (fun l => prev_checksums l = ∅ /\ future_checksums l = []
                          /\ truthy (rl_pageid l) = false));
        [| |exact Hretry]; [|auto].
      intros; eapply is_reverted_try_unresolved; eassumption. }
    reflexivity.
Qed.

(** X6. The answer of [is_reverted] does not depend on the faults that
    the connection met: an answer [True] or [False] given after lost
    connections and new attempts is the answer that a run without any
    fault gives, with its three queries or, when the point query names
    no page, its single one. *)
Theorem is_reverted_answer_ignores_faults
    (db : database) (revid : Z) (radius : nat) (c c' c2 : conn) (b : bool) :
  is_reverted db revid radius c = (Ok (Some b), c') ->
  fault_free c2 = true ->
  is_reverted db revid radius c2
  = (Ok (Some b), after_queries (revert_queries db revid) c2).
Proof.
  intros Hrun Hc2. rewrite (is_reverted_fault_free _ _ _ _ Hc2).
  rewrite (is_reverted_some _ _ _ _ _ _ Hrun). reflexivity.
Qed.

Lemma firstn_le_In {A} (x : A) (l : list A) :
  forall r r', (r <= r')%nat -> In x (firstn r l) -> In x (firstn r' l).
Proof.
  induction l as [|y l IH]; intros r r' Hle H.
  - rewrite firstn_nil in H. destruct H.
  - destruct r as [|r]; [destruct H|]. destruct r' as [|r']; [lia|].
    simpl in *. destruct H as [H|H]; [auto|]. right. apply (IH r r'); [lia | exact H].
Qed.

Lemma reverted_monotone db revid r r' :
  (r <= r')%nat -> reverted db revid r = true -> reverted db revid r' = true.
Proof.
  unfold reverted. intros Hle.
  destruct (truthy _); [|auto].
  rewrite !walk_future_spec. intros (sha & Hf & Hp).
  exists sha. rewrite elem_of_list_to_set in *.
  rewrite !list_elem_of_In in *. unfold Query.fut_query, Query.past_query in *.
  apply in_map_iff in Hf as (x & Hx & Hf). apply in_map_iff in Hp as (y & Hy & Hp).
  split; apply in_map_iff; [exists x | exists y];
    (split; [assumption | eapply firstn_le_In; eassumption]).
Qed.

(** X7. Looking further cannot hide a revert: when a run of
    [is_reverted] with some radius answers [True], every run on the
    same revision with a radius at least as large that gives an answer
    answers [True], whatever faults the two runs met. *)
Theorem is_reverted_monotone_in_radius
    (db : database) (revid : Z) (r r' : nat) (c1 c1' c2 c2' : conn) (b : bool) :
  (r <= r')%nat ->
  is_reverted db revid r c1 = (Ok (Some true), c1') ->
  is_reverted db revid r' c2 = (Ok (Some b), c2') ->
  b = true.
Proof.
  intros Hle H1 H2.
  rewrite (is_reverted_some _ _ _ _ _ _ H2).
  apply (reverted_monotone db revid r r' Hle).
  symmetry. exact (is_reverted_some _ _ _ _ _ _ H1).
Qed.

(** X8. With a radius of 0 both windows are empty and [is_reverted]
    never answers [True]. *)
Theorem is_reverted_radius_zero (db : database) (revid : Z) (c : conn) :
  forall v, fst (is_reverted db revid 0 c) = Ok v -> v = Some false \/ v = None.
Proof.
  intros [b|] H; [left|auto].
  destruct (is_reverted db revid 0 c) as [r c'] eqn:E. simpl in H. subst r.
  rewrite (is_reverted_some _ _ _ _ _ _ E). unfold reverted.
  destruct (truthy _); reflexivity.
Qed.

(** The counters of the connection across the loop of a site whose
    attempts run between one and [k] queries and leave the connection
    as it is. *)
Lemma retry_cost {L} catches (body : try_body L) (k : nat) :
  (forall l c l' t c', body l c = ((l', t), c') ->
     (executed c + 1 <= executed c' <= executed c + k)%nat
     /\ reconnects c' = reconnects c) ->
  forall budget attempts l c l' r c',
    retry catches body budget attempts l c = ((l', r), c') ->
    (executed c' <= executed c + k * budget)%nat
    /\ (reconnects c <= reconnects c' <= reconnects c + budget)%nat
    /\ (forall n, r = Ok n ->
          reconnects c' = (reconnects c + (n - attempts))%nat
          /\ (executed c + (n - attempts) <= executed c')%nat).
Proof.
  intros Hbody budget.
  induction budget as [|budget IH]; intros attempts l c l' r c' Hrun; simpl in Hrun.
  - inversion Hrun; subst. split; [lia|]. split; [lia|].
    intros m Hm. inversion Hm; subst. lia.
  - destruct (body l c) as [[l1 t] c1] eqn:Hb.
    destruct (Hbody _ _ _ _ _ Hb) as [Hex Hrec].
    destruct t as [| |e].
    + inversion Hrun; subst. split; [lia|]. split; [lia|].
      intros m Hm. inversion Hm; subst. lia.
    + inversion Hrun; subst. split; [lia|]. split; [lia|].
      intros m Hm. inversion Hm; subst. lia.
    + destruct (catches e).
      * pose proof Hrun as Hrun'. apply IH in Hrun as (Hex' & Hrec' & Hn). simpl in *.
        split; [lia|]. split; [lia|].
        intros m ->. apply retry_attempts_bound in Hrun'.
        destruct (Hn m eq_refl). lia.
      * inversion Hrun; subst. split; [lia|]. split; [lia|]. discriminate.
Qed.

(** An error that leaves the loop of a site is one that its [except]
    does not name. *)
Lemma retry_raises_uncaught {L} catches (body : try_body L) :
  forall budget attempts l c l' e c',
    retry catches body budget attempts l c = ((l', Raise e), c') ->
    exists e', e = MySQLError e' /\ catches e' = false.
Proof.
  induction budget as [|budget IH]; intros attempts l c l' e c' Hrun; simpl in Hrun.
  - discriminate.
  - destruct (body l c) as [[l1 t] c1].
    destruct t as [| |e0]; try discriminate.
    destruct (catches e0) eqn:E.
    + eapply IH; exact Hrun.
    + inversion Hrun; subst. eauto.
Qed.

Lemma execute_counts {A} (rows : list A) c :
  executed (snd (execute rows c)) = S (executed c)
  /\ reconnects (snd (execute rows c)) = reconnects c.
Proof. unfold execute. destruct (faults c) as [|[e|] tl]; simpl; auto. Qed.

Lemma is_reverted_try_cost db revid radius l c l' t c' :
  is_reverted_try db revid radius l c = ((l', t), c') ->
  (executed c + 1 <= executed c' <= executed c + 3)%nat
  /\ reconnects c' = reconnects c.
Proof.
  unfold is_reverted_try.
  destruct (execute_counts (Query.cur_query db revid) c) as [He1 Hr1].
  destruct (execute (Query.cur_query db revid) c) as [[rows1|e1] c1]; simpl in *.
  2:{ intros H; inversion H; subst. lia. }
  destruct (negb _).
  { intros H; inversion H; subst. lia. }
  match goal with |- context [execute ?q c1] =>
    destruct (execute_counts q c1) as [He2 Hr2];
    destruct (execute q c1) as [[rows2|e2] c2] end; simpl in *.
  2:{ intros H; inversion H; subst. lia. }
  match goal with |- context [execute ?q c2] =>
    destruct (execute_counts q c2) as [He3 Hr3];
    destruct (execute q c2) as [[rows3|e3] c3] end; simpl in *;
    intros H; inversion H; subst; lia.
Qed.

(** X9. The budget of [is_reverted]: a call runs at most nine queries
    and opens at most three new connections; it gives up with [None]
    only after three lost connections, each followed by a new
    connection; and the error it lets out is never the lost connection
    ([OperationalError]). *)
Theorem is_reverted_attempt_budget (db : database) (revid : Z) (radius : nat) (c : conn) :
  let r := fst (is_reverted db revid radius c) in
  let c' := snd (is_reverted db revid radius c) in
  (executed c' <= executed c + 9)%nat
  /\ (reconnects c <= reconnects c' <= reconnects c + 3)%nat
  /\ (r = Ok None ->
      reconnects c' = (reconnects c + 3)%nat /\ (executed c + 3 <= executed c')%nat)
  /\ (forall e, r = Raise e ->
        exists e', e = MySQLError e' /\ is_OperationalError e' = false).
Proof.
  unfold is_reverted.
  destruct (retry is_OperationalError (is_reverted_try db revid radius)
              db_attempts 0 revert_init c) as [[l r] c1] eqn:Hretry.
  destruct (retry_cost is_OperationalError _ 3 (is_reverted_try_cost db revid radius)
              _ _ _ _ _ _ _ Hretry) as (Hex & Hrec & Hn).
  unfold db_attempts in *. simpl in Hex.
  destruct r as [n|e].
  - pose proof (retry_attempts_bound _ _ _ _ _ _ _ _ _ Hretry) as Hbound.
    destruct (Hn n eq_refl) as [Hrec' Hex'].
    destruct (3 <=? n)%nat eqn:E; simpl.
    + apply Nat.leb_le in E. repeat split; try lia; discriminate.
    + repeat split; try lia; discriminate.
  - simpl. repeat split; try lia; try discriminate.
    intros e0 H; inversion H; subst.
    eapply retry_raises_uncaught; exact Hretry.
Qed.

(** ** The fetch of revisions *)

Lemma set_content_timestamps revid content revisions revisions' :
  set_content revid content revisions = Some revisions' ->
  List.map tp_timestamp revisions' = List.map tp_timestamp revisions.
Proof.
  revert revisions'; induction revisions as [|rev rest IH]; intros revisions' H; simpl in H.
  - discriminate.
  - destruct (set_content revid content rest) as [rest'|].
    + inversion H; subst. simpl. f_equal. apply IH. reflexivity.
    + destruct (tp_id rev =? revid); inversion H; subst. reflexivity.
Qed.

(** X10. [get_revisions] returns the revisions it was given, in their
    order, with their ids and timestamps; a revision it returns is a
    revision of the list as it was, or has the content of an entry that
    a response to one of its requests lists under the id of that
    revision: no content is stored under another id. *)
Theorem get_revisions_keeps_the_revisions
    (site : list Z -> api_reply) (revisions revisions' : list TPRevision) :
  get_revisions site revisions = Ok revisions' ->
  List.map tp_id revisions' = List.map tp_id revisions
  /\ List.map tp_timestamp revisions' = List.map tp_timestamp revisions
  /\ forall rev',
       In rev' revisions' ->
       In rev' revisions
       \/ exists i q rv,
            submit_all (site (requested revisions i)) None = Some q
            /\ In rv (listed q)
            /\ api_revid rv = tp_id rev' /\ star rv = tp_content rev'.
Proof.
  intros Hget. split; [eapply get_revisions_ids; exact Hget|].
  unfold get_revisions in Hget.
  eapply (get_revisions_loop_invariant site revisions
            (fun l => List.map tp_timestamp l = List.map tp_timestamp revisions
                      /\ forall rev', In rev' l ->
                           In rev' revisions
                           \/ exists i q rv,
                                submit_all (site (requested revisions i)) None = Some q
                                /\ In rv (listed q)
                                /\ api_revid rv = tp_id rev' /\ star rv = tp_content rev')
            (fun rv => exists i q,
                         submit_all (site (requested revisions i)) None = Some q
                         /\ In rv (listed q)));
    [| |reflexivity| |exact Hget].
  - intros i q Hq. apply Forall_forall. intros rv Hrv.
    apply list_elem_of_In in Hrv. eauto.
  - intros rv l l' (i & q & Hq & Hrv) [Hts Hl] Hset. split.
    + rewrite <- Hts. eapply set_content_timestamps; exact Hset.
    + intros rev' Hin.
      destruct (set_content_elem _ _ _ _ _ Hset Hin) as [Hold|[Hid Hcontent]]; [auto|].
      right. exists i, q, rv. auto.
  - split; [reflexivity | auto].
Qed.

Lemma submit_all_last_query reply requestdata :
  submit_all reply requestdata =
  match last_query reply with
  | Some q => Some q
  | None => requestdata
  end.
Proof.
  revert requestdata; induction reply as [data|data next IH]; intros requestdata; simpl.
  - unfold update_requestdata. destruct (query data); reflexivity.
  - rewrite IH. unfold update_requestdata.
    destruct (last_query next); [reflexivity|]. destruct (query data); reflexivity.
Qed.

(** X11. Of the responses to a request and to its continuations,
    [get_revisions] reads the last entry ['query'] only, since each
    [requestdata.update(data)] replaces the entry: two APIs whose
    replies end with the same ['query'] give the same revisions, and
    what the earlier responses of a continued reply list is not
    stored. *)
Theorem get_revisions_reads_last_query
    (site site' : list Z -> api_reply) (revisions : list TPRevision) :
  (forall ids, last_query (site ids) = last_query (site' ids)) ->
  get_revisions site revisions = get_revisions site' revisions.
Proof.
  intros Hsame. unfold get_revisions. generalize 0%nat as i.
  generalize (List.length revisions) as fuel. intros fuel. revert revisions.
  induction fuel as [|fuel IH]; intros revisions i; simpl; [reflexivity|].
  destruct (i <? List.length revisions)%nat; [|reflexivity].
  rewrite !submit_all_last_query, Hsame.
  destruct (last_query (site' _)) as [q|]; [|reflexivity].
  destruct (pages q) as [ps|]; [|apply IH].
  destruct (store_pages ps revisions); [apply IH | reflexivity].
Qed.

Lemma store_pages_length ps revisions revisions' :
  store_pages ps revisions = Ok revisions' ->
  List.length revisions' = List.length revisions.
Proof.
  rewrite store_pages_listed. intros H.
  assert (List.map tp_id revisions' = List.map tp_id revisions) as Hids.
  { eapply (store_revisions_invariant
              (fun l => List.map tp_id l = List.map tp_id revisions) (fun _ => True));
      [| |reflexivity|exact H].
    - intros rv l l' _ Hl Hset. rewrite <- Hl. eapply set_content_ids; exact Hset.
    - apply Forall_forall. auto. }
  rewrite <- (length_map tp_id revisions'), Hids. apply length_map.
Qed.

Lemma get_revisions_loop_turn site fuel i revisions :
  get_revisions_loop site (S fuel) i revisions =
  if (i <? List.length revisions)%nat then
    match submit_all (site (List.map tp_id (take 10 (drop i revisions)))) None with
    | None => Raise KeyError
    | Some q =>
        match pages q with
        | None => get_revisions_loop site fuel (i + 10) revisions
        | Some ps =>
            match store_pages ps revisions with
            | Raise e => Raise e
            | Ok revisions' => get_revisions_loop site fuel (i + 10) revisions'
            end
        end
    end
  else Ok revisions.
Proof. reflexivity. Qed.

Lemma get_revisions_loop_more_fuel site :
  forall fuel i revisions,
    (List.length revisions <= i + 10 * fuel)%nat ->
    get_revisions_loop site (S fuel) i revisions = get_revisions_loop site fuel i revisions.
Proof.
  induction fuel as [|fuel IH]; intros i revisions Hlen.
  - simpl. destruct (i <? List.length revisions)%nat eqn:E; [|reflexivity].
    apply Nat.ltb_lt in E. lia.
  - rewrite (get_revisions_loop_turn site fuel i revisions),
      (get_revisions_loop_turn site (S fuel) i revisions).
    destruct (i <? List.length revisions)%nat; [|reflexivity].
    destruct (submit_all _ None) as [q|]; [|reflexivity].
    destruct (pages q) as [ps|]; [|apply IH; lia].
    destruct (store_pages ps revisions) as [revisions1|] eqn:E; [|reflexivity].
    apply IH. rewrite (store_pages_length _ _ _ E). lia.
Qed.

(** X12. The loop of [get_revisions] over the slices of 10 ends
    because the index passes the length of the list: as many turns as
    the list has slices are enough, and a turn more changes nothing,
    whatever the API answers. *)
Theorem get_revisions_ends
    (site : list Z -> api_reply) (revisions : list TPRevision) (spare : nat) :
  get_revisions_loop site (Nat.div (List.length revisions + 9) 10 + spare) 0 revisions
  = get_revisions site revisions.
Proof.
  assert (forall fuel extra,
             (List.length revisions <= 10 * fuel)%nat ->
             get_revisions_loop site (fuel + extra) 0 revisions
             = get_revisions_loop site fuel 0 revisions) as Hstable.
  { intros fuel extra Hlen. induction extra as [|extra IH].
    - rewrite Nat.add_0_r. reflexivity.
    - rewrite Nat.add_succ_r, get_revisions_loop_more_fuel by lia. exact IH. }
  pose proof (Nat.div_mod (List.length revisions + 9) 10 ltac:(lia)) as Hdiv.
  pose proof (Nat.mod_upper_bound (List.length revisions + 9) 10 ltac:(lia)) as Hmod.
  set (turns := Nat.div (List.length revisions + 9) 10) in *.
  rewrite Hstable by lia.
  unfold get_revisions. symmetry.
  etransitivity; [|apply (Hstable turns (List.length revisions - turns)%nat); lia].
  f_equal. lia.
Qed.

(** ** The revisions given to the scan *)

Lemma insert_desc_sorted r l :
  StronglySorted (fun x y => rev_timestamp y <= rev_timestamp x) l ->
  StronglySorted (fun x y => rev_timestamp y <= rev_timestamp x) (insert_desc r l).
Proof.
  induction 1 as [|x l Hl IH Hx]; simpl.
  - constructor; constructor.
  - destruct (rev_timestamp x <? rev_timestamp r) eqn:E.
    + apply Z.ltb_lt in E. constructor; [constructor; assumption|].
      constructor; [lia|]. eapply Forall_impl; [exact Hx|]. simpl. intros; lia.
    + apply Z.ltb_ge in E. constructor; [exact IH|].
      apply Forall_forall. intros y Hy. apply list_elem_of_In, insert_desc_In in Hy.
      destruct Hy as [->|Hy]; [exact E|].
      rewrite Forall_forall in Hx. apply Hx, list_elem_of_In, Hy.
Qed.

Lemma order_desc_sorted l :
  StronglySorted (fun x y => rev_timestamp y <= rev_timestamp x) (order_desc l).
Proof.
  induction l as [|r l IH]; simpl; [constructor|]. apply insert_desc_sorted, IH.
Qed.

Lemma insert_asc_sorted r l :
  StronglySorted (fun x y => rev_timestamp x <= rev_timestamp y) l ->
  StronglySorted (fun x y => rev_timestamp x <= rev_timestamp y) (insert_asc r l).
Proof.
  induction 1 as [|x l Hl IH Hx]; simpl.
  - constructor; constructor.
  - destruct (rev_timestamp r <? rev_timestamp x) eqn:E.
    + apply Z.ltb_lt in E. constructor; [constructor; assumption|].
      constructor; [lia|]. eapply Forall_impl; [exact Hx|]. simpl. intros; lia.
    + apply Z.ltb_ge in E. constructor; [exact IH|].
      apply Forall_forall. intros y Hy. apply list_elem_of_In, insert_asc_In in Hy.
      destruct Hy as [->|Hy]; [exact E|].
      rewrite Forall_forall in Hx. apply Hx, list_elem_of_In, Hy.
Qed.

Lemma order_asc_sorted l :
  StronglySorted (fun x y => rev_timestamp x <= rev_timestamp y) (order_asc l).
Proof.
  induction l as [|r l IH]; simpl; [constructor|]. apply insert_asc_sorted, IH.
Qed.

Lemma StronglySorted_map {A B} (R : A -> A -> Prop) (S : B -> B -> Prop) (f : A -> B) l :
  (forall x y, R x y -> S (f x) (f y)) ->
  StronglySorted R l -> StronglySorted S (List.map f l).
Proof.
  intros HRS. induction 1 as [|x l Hl IH Hx]; simpl; constructor; [exact IH|].
  apply Forall_forall. intros y Hy. apply list_elem_of_In, in_map_iff in Hy as (z & <- & Hz).
  apply HRS. rewrite Forall_forall in Hx. apply Hx, list_elem_of_In, Hz.
Qed.

Lemma talk_revisions_map db a :
  talk_revisions db a
  = List.map (fun r => {| tp_id := rev_id r; tp_timestamp := rev_timestamp r;
                          tp_content := None |})
      (order_desc
         (List.filter (fun r => sql_eq (rev_page r) (talkpageid a)
                                && sql_lt (rev_timestamp r) (timestamp_of db (revid a)))
            (revision db))).
Proof.
  unfold talk_revisions, Query.tp_revquery. rewrite foldl_append_tp_rev. simpl.
  rewrite map_map. reflexivity.
Qed.

(** X13. The revisions that the scan is given are the revisions of the
    talk page strictly earlier than the revision of the article in the
    record, all of them, newest first, without content. *)
Theorem talk_revisions_newest_first (db : database) (a : articledata) :
  StronglySorted (fun x y => tp_timestamp y <= tp_timestamp x) (talk_revisions db a)
  /\ (forall rev, In rev (talk_revisions db a) ->
        tp_content rev = None
        /\ exists row start,
             In row (revision db) /\ rev_id row = tp_id rev
             /\ rev_timestamp row = tp_timestamp rev
             /\ talkpageid a = Some (rev_page row)
             /\ timestamp_of db (revid a) = Some start /\ tp_timestamp rev < start)
  /\ (forall row start,
        In row (revision db) -> talkpageid a = Some (rev_page row) ->
        timestamp_of db (revid a) = Some start -> rev_timestamp row < start ->
        In {| tp_id := rev_id row; tp_timestamp := rev_timestamp row; tp_content := None |}
           (talk_revisions db a)).
Proof.
  rewrite talk_revisions_map. split; [|split].
  - apply (StronglySorted_map (fun x y => rev_timestamp y <= rev_timestamp x));
      [intros x y H; exact H | apply order_desc_sorted].
  - intros rev Hin. apply in_map_iff in Hin as (row & <- & Hin). simpl.
    split; [reflexivity|].
    apply order_desc_In, filter_In in Hin as [Hin Hsel].
    apply andb_true_iff in Hsel as [Hpage Hts].
    unfold sql_eq in Hpage. unfold sql_lt in Hts.
    destruct (talkpageid a) as [tp|]; [|discriminate].
    destruct (timestamp_of db (revid a)) as [start|]; [|discriminate].
    apply Z.eqb_eq in Hpage. apply Z.ltb_lt in Hts.
    exists row, start. subst. repeat split; auto.
  - intros row start Hin Hpage Hstart Hlt. apply in_map_iff. exists row.
    split; [reflexivity|]. apply order_desc_In, filter_In. split; [exact Hin|].
    rewrite Hpage, Hstart. simpl. rewrite Z.eqb_refl. apply Z.ltb_lt, Hlt.
Qed.

(** ** The record that [clean_article] leaves *)

Section Frame.

Variable filter_templates : string -> list template.
Variable site : list Z -> api_reply.
Variable db : database.

(** A value of [article_revision]: nothing, or the id of a revision of
    the page of the record *)
Let of_the_page (a : articledata) (article_revision : option Z) : Prop :=
  article_revision = None
  \/ exists row, In row (revision db) /\ article_revision = Some (rev_id row)
                 /\ rev_page row = pageid a.

Lemma foldl_assign_revision_of_the_page a (sel : revision_row -> bool) rows v :
  (forall row, In row rows -> In row (revision db) /\ rev_page row = pageid a) ->
  of_the_page a v ->
  of_the_page a (foldl assign_revision v
                   (List.map (fun r => (rev_id r, rev_timestamp r)) rows)).
Proof.
  revert v; induction rows as [|row rows IH]; intros v Hrows Hv; simpl; [exact Hv|].
  apply IH; [intros r Hr; apply Hrows; by right|].
  right. exists row. destruct (Hrows row (or_introl eq_refl)). auto.
Qed.

Lemma recent_try_of_the_page a prev v c v' t c' :
  of_the_page a v -> recent_try db a prev v c = ((v', t), c') -> of_the_page a v'.
Proof.
  intros Hv H. unfold recent_try in H.
  destruct (execute_cases (Query.recent_revquery db (pageid a) prev) c)
    as [(c1 & E)|(e & c1 & E)]; rewrite E in H; inversion H; subst; [|exact Hv].
  unfold Query.recent_revquery.
  apply (foldl_assign_revision_of_the_page a (fun _ => true)); [|exact Hv].
  intros row Hrow. apply list_elem_of_In, (subseteq_take 1), list_elem_of_In in Hrow.
  apply order_desc_In, filter_In in Hrow as [Hin Hsel].
  apply andb_true_iff in Hsel as [Hpage _]. apply Z.eqb_eq in Hpage. auto.
Qed.

Lemma next_try_of_the_page a prev v c v' t c' :
  of_the_page a v -> next_try db a prev v c = ((v', t), c') -> of_the_page a v'.
Proof.
  intros Hv H. unfold next_try in H.
  destruct (execute_cases (Query.next_revquery db (pageid a) prev) c)
    as [(c1 & E)|(e & c1 & E)]; rewrite E in H; inversion H; subst; [|exact Hv].
  unfold Query.next_revquery.
  apply (foldl_assign_revision_of_the_page a (fun _ => true)); [|exact Hv].
  intros row Hrow. apply list_elem_of_In, (subseteq_take 1), list_elem_of_In in Hrow.
  apply order_asc_In, filter_In in Hrow as [Hin Hsel].
  apply andb_true_iff in Hsel as [Hpage _]. apply Z.eqb_eq in Hpage. auto.
Qed.

Lemma resolve_article_revision_cases a prev c :
  let r := record_of (fst (resolve_article_revision db a prev c)) in
  r = set_talkpagerev a prev
  \/ exists row,
       In row (revision db) /\ rev_page row = pageid a /\ rev_id row <> 0
       /\ r = set_revid (set_talkpagerev a prev) (Some (rev_id row)).
Proof.
  unfold resolve_article_revision.
  set (a' := set_talkpagerev a prev).
  destruct (retry is_OperationalError (recent_try db a' prev) db_attempts 0 None c)
    as [[rev r] c1] eqn:H1.
  assert (of_the_page a' rev) as Hrev.
  { eapply (retry_invariant (of_the_page a')); [| |exact H1]; [|by left].
    intros; eapply recent_try_of_the_page; eassumption. }
  destruct r as [n|e]; [|simpl; auto].
  destruct (db_attempts <=? n)%nat; [simpl; auto|].
  destruct (if negb (truthy rev)
            then retry is_Error (next_try db a' prev) db_attempts 0 rev c1
            else (rev, Ok n, c1)) as [[rev' r'] c2] eqn:H2.
  assert (of_the_page a' rev') as Hrev'.
  { destruct (negb (truthy rev)).
    - eapply (retry_invariant (of_the_page a')); [| |exact H2]; [|exact Hrev].
      intros; eapply next_try_of_the_page; eassumption.
    - inversion H2; subst. exact Hrev. }
  destruct r' as [n'|e']; [|simpl; auto].
  destruct (truthy rev') eqn:Ht; simpl; [|auto].
  right. destruct Hrev' as [->|(row & Hin & -> & Hpage)]; [discriminate|].
  exists row. simpl in Ht. apply negb_true_iff, Z.eqb_neq in Ht. auto.
Qed.

(** X14. Whatever happens, [clean_article] leaves one of four records:
    the record it was given; that record with the latest revisions that
    the metadata query found; the latter with the talk page revision
    set to the boundary, which is one of the earlier revisions of the
    talk page; or the latter with, besides, the article revision set to
    a revision of the page of the record.  So the id of the talk page
    comes from the metadata query only, and the article revision is
    replaced only once the talk page revision is the boundary. *)
Theorem clean_article_leaves_one_of_four_records (a : articledata) (c : conn) :
  let r := record_of (fst (clean_article filter_templates site db a c)) in
  r = a
  \/ r = with_latest db a
  \/ exists prev,
       0 <= prev
       /\ In prev (List.map tp_id (talk_revisions db (with_latest db a)))
       /\ (r = set_talkpagerev (with_latest db a) prev
           \/ exists row,
                In row (revision db) /\ rev_page row = pageid a /\ rev_id row <> 0
                /\ r = set_revid (set_talkpagerev (with_latest db a) prev)
                         (Some (rev_id row))).
Proof.
  unfold clean_article.
  destruct (wp10_scale !! PyStr.lower (class a)) as [start_idx|]; [|left; reflexivity].
  set (c0 := snd (ping_or_reconnect c)).
  destruct (retry is_OperationalError (latest_try db) db_attempts 0 a c0)
    as [[a1 r1] c1] eqn:H1.
  destruct (retry_cases (fun l => l = a) (fun l => l = with_latest db a) _ _
              (latest_try_cases db a) _ _ _ _ _ _ _ eq_refl H1)
    as [(n & -> & Hn & ->)|[[->|(e & ->)] ->]]; [|left; reflexivity|left; reflexivity].
  apply Nat.leb_gt in Hn. simpl (0 + db_attempts)%nat in Hn. rewrite Hn.
  destruct (retry is_OperationalError (tp_revs_try db (with_latest db a)) db_attempts 0 [] c1)
    as [[tp_revs r2] c2] eqn:H2.
  destruct (retry_cases (fun l => l = []) (fun l => l = talk_revisions db (with_latest db a))
              _ _ (tp_revs_try_cases db (with_latest db a)) _ _ _ _ _ _ _ eq_refl H2)
    as [(n2 & -> & Hn2 & ->)|[[->|(e & ->)] ->]];
    [|right; left; reflexivity|right; left; reflexivity].
  apply Nat.leb_gt in Hn2. simpl (0 + db_attempts)%nat in Hn2. rewrite Hn2.
  destruct (talk_revisions db (with_latest db a)) as [|rev0 revs] eqn:Htp;
    [right; left; reflexivity|].
  rewrite <- Htp. unfold resolve.
  destruct (scan filter_templates site db start_idx (talk_revisions db (with_latest db a)) c2)
    as [[prev|e] c3] eqn:Hscan; [|right; left; reflexivity].
  destruct (prev <? 0) eqn:Hneg; [right; left; reflexivity|].
  apply Z.ltb_ge in Hneg.
  apply scan_loop_prev in Hscan. destruct Hscan as [->|Hin]; [lia|].
  right; right. exists prev. split; [exact Hneg|]. split; [exact Hin|].
  destruct (resolve_article_revision_cases (with_latest db a) prev c3)
    as [->|(row & Hrow & Hpage & Hid & ->)]; [left; reflexivity|].
  right. exists row. destruct (foldl_assign_latest_frame a
                                 (Query.latest_query db (pageid a))) as [Hp _].
  unfold with_latest in Hpage. rewrite Hp in Hpage. auto.
Qed.

End Frame.

(** ** Connections that behave alike *)

Lemma clean_article_after_latest filter_templates site db a c :
  clean_article filter_templates site db a c =
  match wp10_scale !! PyStr.lower (class a) with
  | None => (Raised KeyError a, c)
  | Some start_idx =>
      match retry is_OperationalError (latest_try db) db_attempts 0 a
              (snd (ping_or_reconnect c)) with
      | ((a1, Raise e), c1) => (Raised e a1, c1)
      | ((a1, Ok attempts), c1) =>
          if (db_attempts <=? attempts)%nat then (Returned a1, c1)
          else after_latest filter_templates site db start_idx a1 c1
      end
  end.
Proof. reflexivity. Qed.

Section Simulation.

Variable filter_templates : string -> list template.
Variable site : list Z -> api_reply.
Variable db : database.

(** A relation between connections that [execute] and a new connection
    keep, and under which [execute] gives the same rows or error *)
Variable R : conn -> conn -> Prop.

Hypothesis R_execute :
  forall A (rows : list A) c1 c2,
    R c1 c2 ->
    fst (execute rows c1) = fst (execute rows c2)
    /\ R (snd (execute rows c1)) (snd (execute rows c2)).

Hypothesis R_reconnect :
  forall c1 c2, R c1 c2 -> R (snd (reconnect c1)) (snd (reconnect c2)).

Hypothesis R_ping :
  forall c1 c2, R c1 c2 -> R (snd (ping_or_reconnect c1)) (snd (ping_or_reconnect c2)).

(** A computation gives the same result on related connections and
    leaves them related. *)
Let agrees {A} (f : conn -> A * conn) : Prop :=
  forall c1 c2, R c1 c2 -> fst (f c1) = fst (f c2) /\ R (snd (f c1)) (snd (f c2)).

Ltac run_execute :=
  match goal with
  | HR : R ?c1 ?c2 |- context [execute ?rows ?c1] =>
      let Hf := fresh "Hf" in
      let HR' := fresh "HR" in
      destruct (R_execute _ rows c1 c2 HR) as [Hf HR'];
      destruct (execute rows c1) as [? ?], (execute rows c2) as [? ?];
      simpl in Hf, HR'; subst; clear HR
  end.

Lemma retry_agrees {L} catches (body : try_body L) :
  (forall l, agrees (body l)) ->
  forall budget attempts l, agrees (retry catches body budget attempts l).
Proof.
  intros Hbody budget. induction budget as [|budget IH]; intros attempts l c1 c2 HR; simpl.
  - auto.
  - destruct (Hbody l c1 c2 HR) as [Hf HR'].
    destruct (body l c1) as [[l1 t1] c1'], (body l c2) as [[l2 t2] c2'].
    simpl in Hf, HR'. inversion Hf; subst.
    destruct t2 as [| |e]; cbn [fst snd]; auto.
    destruct (catches e); cbn [fst snd]; [|auto].
    apply IH, R_reconnect, HR'.
Qed.

Lemma is_reverted_try_agrees revid radius l : agrees (is_reverted_try db revid radius l).
Proof.
  intros c1 c2 HR. unfold is_reverted_try.
  run_execute. destruct f0 as [rows|e]; cbn [fst snd]; [|auto].
  destruct (negb _); cbn [fst snd]; [auto|].
  run_execute. destruct f0 as [rows'|e]; cbn [fst snd]; [|auto].
  run_execute. destruct f0 as [rows''|e]; cbn [fst snd]; auto.
Qed.

Lemma is_reverted_agrees revid radius : agrees (is_reverted db revid radius).
Proof.
  intros c1 c2 HR. unfold is_reverted.
  destruct (retry_agrees is_OperationalError _ (is_reverted_try_agrees revid radius)
              db_attempts 0%nat revert_init c1 c2 HR) as [Hf HR'].
  destruct (retry _ _ _ _ _ c1) as [[l1 r1] c1'], (retry _ _ _ _ _ c2) as [[l2 r2] c2'].
  simpl in Hf, HR'. inversion Hf; subst.
  destruct r2 as [n|e]; cbn [fst snd]; [|auto].
  destruct (db_attempts <=? n)%nat; cbn [fst snd]; auto.
Qed.

Lemma assess_revision_agrees start_idx revision prev :
  agrees (assess_revision filter_templates db start_idx revision prev).
Proof.
  intros c1 c2 HR. unfold assess_revision, bind, ret.
  destruct (tp_content revision) as [[|ch content]|]; cbn [fst snd]; auto.
  destruct (map_ratings _ []) as [|x l].
  - destruct (is_reverted_agrees (tp_id revision) default_radius c1 c2 HR) as [Hf HR'].
    destruct (is_reverted db (tp_id revision) default_radius c1) as [r1 c1'],
             (is_reverted db (tp_id revision) default_radius c2) as [r2 c2'].
    simpl in Hf, HR'. subst.
    destruct r2 as [v|e]; cbn [fst snd]; [|auto]. destruct (py_true v); cbn [fst snd]; auto.
  - destruct (list_max x l =? start_idx); cbn [fst snd]; auto.
Qed.

Lemma assess_subset_agrees start_idx rev_subset :
  forall prev, agrees (assess_subset filter_templates db start_idx rev_subset prev).
Proof.
  induction rev_subset as [|revision rest IH]; intros prev c1 c2 HR; simpl.
  - auto.
  - unfold bind.
    destruct (assess_revision_agrees start_idx revision prev c1 c2 HR) as [Hf HR'].
    destruct (assess_revision _ _ _ _ _ c1) as [r1 c1'],
             (assess_revision _ _ _ _ _ c2) as [r2 c2'].
    simpl in Hf, HR'. subst.
    destruct r2 as [[p|]|e]; cbn [fst snd]; [apply IH, HR' | auto | auto].
Qed.

Lemma scan_loop_agrees start_idx tp_revs fuel :
  forall i prev,
    agrees (scan_loop filter_templates site db fuel i start_idx tp_revs prev).
Proof.
  induction fuel as [|fuel IH]; intros i prev c1 c2 HR; simpl.
  - auto.
  - destruct (i <? List.length tp_revs)%nat; cbn [fst snd]; [|auto].
    destruct (get_revisions site (take slice_size (drop i tp_revs))) as [rev_subset|e];
      cbn [fst snd]; [|auto].
    unfold bind.
    destruct (assess_subset_agrees start_idx rev_subset prev c1 c2 HR) as [Hf HR'].
    destruct (assess_subset _ _ _ _ _ c1) as [r1 c1'],
             (assess_subset _ _ _ _ _ c2) as [r2 c2'].
    simpl in Hf, HR'. subst.
    destruct r2 as [[p d]|e]; cbn [fst snd]; [|auto].
    destruct d; cbn [fst snd]; [auto | apply IH, HR'].
Qed.

Lemma latest_try_agrees l : agrees (latest_try db l).
Proof.
  intros c1 c2 HR. unfold latest_try. run_execute. destruct f0; cbn [fst snd]; auto.
Qed.

Lemma tp_revs_try_agrees a l : agrees (tp_revs_try db a l).
Proof.
  intros c1 c2 HR. unfold tp_revs_try. run_execute. destruct f0; cbn [fst snd]; auto.
Qed.

Lemma recent_try_agrees a prev l : agrees (recent_try db a prev l).
Proof.
  intros c1 c2 HR. unfold recent_try. run_execute. destruct f0; cbn [fst snd]; auto.
Qed.

Lemma next_try_agrees a prev l : agrees (next_try db a prev l).
Proof.
  intros c1 c2 HR. unfold next_try. run_execute. destruct f0; cbn [fst snd]; auto.
Qed.

Lemma resolve_article_revision_agrees a prev :
  agrees (resolve_article_revision db a prev).
Proof.
  intros c1 c2 HR. unfold resolve_article_revision.
  set (a' := set_talkpagerev a prev).
  destruct (retry_agrees is_OperationalError _ (recent_try_agrees a' prev)
              db_attempts 0%nat None c1 c2 HR) as [Hf HR'].
  destruct (retry _ (recent_try db a' prev) _ _ _ c1) as [[v1 r1] c1'],
           (retry _ (recent_try db a' prev) _ _ _ c2) as [[v2 r2] c2'].
  simpl in Hf, HR'. inversion Hf; subst.
  destruct r2 as [n|e]; cbn [fst snd]; [|auto].
  destruct (db_attempts <=? n)%nat; cbn [fst snd]; [auto|].
  destruct (negb (truthy v2)).
  - destruct (retry_agrees is_Error _ (next_try_agrees a' prev)
                db_attempts 0%nat v2 c1' c2' HR') as [Hf' HR''].
    destruct (retry _ (next_try db a' prev) _ _ _ c1') as [[w1 s1] d1],
             (retry _ (next_try db a' prev) _ _ _ c2') as [[w2 s2] d2].
    simpl in Hf', HR''. inversion Hf'; subst.
    destruct s2; cbn [fst snd]; [|auto]. destruct (negb (truthy w2)); cbn [fst snd]; auto.
  - destruct (negb (truthy v2)); cbn [fst snd]; auto.
Qed.

Lemma resolve_agrees start_idx a tp_revs :
  agrees (resolve filter_templates site db start_idx a tp_revs).
Proof.
  intros c1 c2 HR. unfold resolve, scan.
  destruct (scan_loop_agrees start_idx tp_revs (List.length tp_revs) 0%nat (-1) c1 c2 HR)
    as [Hf HR'].
  destruct (scan_loop _ _ _ _ _ _ _ _ c1) as [r1 c1'],
           (scan_loop _ _ _ _ _ _ _ _ c2) as [r2 c2'].
  simpl in Hf, HR'. subst.
  destruct r2 as [prev|e]; cbn [fst snd]; [|auto].
  destruct (prev <? 0); cbn [fst snd]; [auto|].
  apply resolve_article_revision_agrees, HR'.
Qed.

Lemma after_latest_agrees start_idx a :
  agrees (after_latest filter_templates site db start_idx a).
Proof.
  intros c1 c2 HR. unfold after_latest.
  destruct (retry_agrees is_OperationalError _ (tp_revs_try_agrees a)
              db_attempts 0%nat [] c1 c2 HR) as [Hf HR'].
  destruct (retry _ (tp_revs_try db a) _ _ _ c1) as [[l1 r1] c1'],
           (retry _ (tp_revs_try db a) _ _ _ c2) as [[l2 r2] c2'].
  simpl in Hf, HR'. inversion Hf; subst.
  destruct r2 as [n|e]; cbn [fst snd]; [|auto].
  destruct (db_attempts <=? n)%nat; cbn [fst snd]; [auto|].
  destruct l2 as [|rev0 revs]; cbn [fst snd]; [auto|].
  apply resolve_agrees, HR'.
Qed.

Lemma clean_article_agrees a : agrees (clean_article filter_templates site db a).
Proof.
  intros c1 c2 HR. rewrite !clean_article_after_latest.
  destruct (wp10_scale !! PyStr.lower (class a)) as [start_idx|]; [|auto].
  destruct (retry_agrees is_OperationalError _ latest_try_agrees
              db_attempts 0%nat a _ _ (R_ping c1 c2 HR)) as [Hf HR'].
  destruct (retry _ (latest_try db) _ _ _ (snd (ping_or_reconnect c1))) as [[a1 r1] c1'],
           (retry _ (latest_try db) _ _ _ (snd (ping_or_reconnect c2))) as [[a2 r2] c2'].
  simpl in Hf, HR'. inversion Hf; subst.
  destruct r2 as [n|e]; cbn [fst snd]; [|auto].
  destruct (db_attempts <=? n)%nat; cbn [fst snd]; [auto|].
  apply after_latest_agrees, HR'.
Qed.

End Simulation.

(** Connections with the same faults to come behave alike, whatever
    their counters. *)
Lemma same_faults_execute A (rows : list A) c1 c2 :
  faults c1 = faults c2 ->
  fst (execute rows c1) = fst (execute rows c2)
  /\ faults (snd (execute rows c1)) = faults (snd (execute rows c2)).
Proof.
  unfold execute. intros ->. destruct (faults c2) as [|[e|] tl]; simpl; auto.
Qed.

Lemma same_faults_reconnect c1 c2 :
  faults c1 = faults c2 -> faults (snd (reconnect c1)) = faults (snd (reconnect c2)).
Proof. auto. Qed.

Lemma same_faults_ping c1 c2 :
  faults c1 = faults c2 ->
  faults (snd (ping_or_reconnect c1)) = faults (snd (ping_or_reconnect c2)).
Proof. unfold ping_or_reconnect. destruct (alive c1), (alive c2); auto. Qed.

(** So do connections without faults. *)
Lemma fault_free_execute A (rows : list A) c1 c2 :
  fault_free c1 = true /\ fault_free c2 = true ->
  fst (execute rows c1) = fst (execute rows c2)
  /\ (fault_free (snd (execute rows c1)) = true
      /\ fault_free (snd (execute rows c2)) = true).
Proof.
  intros [H1 H2]. rewrite !execute_fault_free by assumption. simpl.
  split; [reflexivity|]. split; apply fault_free_after; assumption.
Qed.

Lemma fault_free_reconnect c1 c2 :
  fault_free c1 = true /\ fault_free c2 = true ->
  fault_free (snd (reconnect c1)) = true /\ fault_free (snd (reconnect c2)) = true.
Proof. auto. Qed.

Lemma fault_free_ping_both c1 c2 :
  fault_free c1 = true /\ fault_free c2 = true ->
  fault_free (snd (ping_or_reconnect c1)) = true
  /\ fault_free (snd (ping_or_reconnect c2)) = true.
Proof.
  intros [H1 H2]. unfold ping_or_reconnect. destruct (alive c1), (alive c2); auto.
Qed.

(** ** Lost connections at a site *)

(** A site whose attempt fails at its first query without assigning
    anything: after [k] lost connections the loop stands where it
    began, with [k] attempts counted and [k] new connections. *)
Lemma retry_lost_connections {L} (body : try_body L) :
  (forall l c e tl, faults c = Some e :: tl ->
     exists c', body l c = ((l, Failed e), c') /\ faults c' = tl
                /\ executed c' = S (executed c) /\ reconnects c' = reconnects c) ->
  forall k budget attempts l c tl,
    faults c = (replicate k (Some OperationalError) ++ tl)%list ->
    exists c',
      retry is_OperationalError body (k + budget) attempts l c
      = retry is_OperationalError body budget (attempts + k) l c'
      /\ faults c' = tl
      /\ executed c' = (executed c + k)%nat
      /\ reconnects c' = (reconnects c + k)%nat.
Proof.
  intros Hbody k. induction k as [|k IH]; intros budget attempts l c tl Hf.
  - exists c. rewrite !Nat.add_0_r. auto.
  - simpl in Hf. destruct (Hbody l c _ _ Hf) as (c1 & Hb & Hf1 & He1 & Hr1).
    destruct (IH budget (S attempts) l (snd (reconnect c1)) tl) as (c' & Hrun & Hf' & He' & Hr').
    { exact Hf1. }
    exists c'. change (S k + budget)%nat with (S (k + budget)).
    cbn [retry]. rewrite Hb. cbn [is_OperationalError].
    rewrite Hrun. simpl in He', Hr'.
    replace (S attempts + k)%nat with (attempts + S k)%nat by lia.
    repeat split; try assumption; lia.
Qed.

Lemma execute_fault {A} (rows : list A) c e tl :
  faults c = Some e :: tl ->
  exists c', execute rows c = (Fault e, c') /\ faults c' = tl
             /\ executed c' = S (executed c) /\ reconnects c' = reconnects c.
Proof. unfold execute. intros ->. eexists. repeat split. Qed.

Lemma latest_try_fault db l c e tl :
  faults c = Some e :: tl ->
  exists c', latest_try db l c = ((l, Failed e), c') /\ faults c' = tl
             /\ executed c' = S (executed c) /\ reconnects c' = reconnects c.
Proof.
  intros Hf. unfold latest_try.
  destruct (execute_fault (Query.latest_query db (pageid l)) c e tl Hf) as (c' & -> & H).
  eauto.
Qed.

Lemma recent_try_fault db a prev l c e tl :
  faults c = Some e :: tl ->
  exists c', recent_try db a prev l c = ((l, Failed e), c') /\ faults c' = tl
             /\ executed c' = S (executed c) /\ reconnects c' = reconnects c.
Proof.
  intros Hf. unfold recent_try.
  destruct (execute_fault (Query.recent_revquery db (pageid a) prev) c e tl Hf)
    as (c' & -> & H).
  eauto.
Qed.

(** X15. Three lost connections in a row at the metadata query end the
    call: [clean_article] returns the record as it was given, after
    three queries and three new connections, and leaves the rest of the
    record's work undone. *)
Theorem metadata_query_gives_up_after_three
    (filter_templates : string -> list template) (site : list Z -> api_reply)
    (db : database) (a : articledata) (c : conn) (start_idx : Z)
    (tl : list (option mysql_error)) :
  wp10_scale !! PyStr.lower (class a) = Some start_idx ->
  faults c = Some OperationalError :: Some OperationalError
             :: Some OperationalError :: tl ->
  exists c',
    clean_article filter_templates site db a c = (Returned a, c')
    /\ faults c' = tl
    /\ executed c' = (executed c + 3)%nat
    /\ reconnects c' = (reconnects (snd (ping_or_reconnect c)) + 3)%nat.
Proof.
  intros Hclass Hf. rewrite clean_article_after_latest, Hclass.
  destruct (retry_lost_connections (latest_try db) (latest_try_fault db)
              3 0 0 a (snd (ping_or_reconnect c)) tl)%nat
    as (c' & Hrun & Hf' & He' & Hr').
  { simpl replicate. simpl app. rewrite <- Hf.
    unfold ping_or_reconnect. destruct (alive c); reflexivity. }
  change (3 + 0)%nat with db_attempts in Hrun. rewrite Hrun. simpl.
  exists c'. repeat split; try assumption.
  rewrite He'. unfold ping_or_reconnect. destruct (alive c); reflexivity.
Qed.

(** X16. Three lost connections in a row at the query for the article
    revision end the call after the talk page revision was set: the
    record is returned with the boundary as its talk page revision and
    the article revision it had, which is the latest one. *)
Theorem article_revision_query_gives_up_with_boundary_set
    (db : database) (a : articledata) (prev_tprevid : Z) (c : conn)
    (tl : list (option mysql_error)) :
  faults c = Some OperationalError :: Some OperationalError
             :: Some OperationalError :: tl ->
  exists c',
    resolve_article_revision db a prev_tprevid c
    = (Returned (set_talkpagerev a prev_tprevid), c')
    /\ revid (set_talkpagerev a prev_tprevid) = revid a
    /\ faults c' = tl
    /\ executed c' = (executed c + 3)%nat
    /\ reconnects c' = (reconnects c + 3)%nat.
Proof.
  intros Hf. unfold resolve_article_revision.
  destruct (retry_lost_connections
              (recent_try db (set_talkpagerev a prev_tprevid) prev_tprevid)
              (recent_try_fault db (set_talkpagerev a prev_tprevid) prev_tprevid)
              3 0 0 None c tl)%nat
    as (c' & Hrun & Hf' & He' & Hr'); [exact Hf|].
  change (3 + 0)%nat with db_attempts in Hrun. rewrite Hrun. simpl.
  exists c'. auto.
Qed.

Lemma execute_success {A} (rows : list A) c :
  (forall e, hd_error (faults c) <> Some (Some e)) ->
  exists c', execute rows c = (Rows rows, c') /\ faults c' = tl (faults c).
Proof.
  unfold execute. intros Hhd.
  destruct (faults c) as [|[e|] rest]; simpl in *.
  - eexists; split; reflexivity.
  - exfalso. apply (Hhd e). reflexivity.
  - eexists; split; reflexivity.
Qed.

(** X17. Up to two lost connections in a row at the metadata query are
    not seen in the outcome: when the query then succeeds,
    [clean_article] ends as it does on a connection that meets the same
    faults without those lost connections. *)
Theorem lost_connections_at_metadata_query_are_masked
    (filter_templates : string -> list template) (site : list Z -> api_reply)
    (db : database) (a : articledata) (c c2 : conn) (k : nat)
    (rest : list (option mysql_error)) :
  (k <= 2)%nat ->
  faults c = (replicate k (Some OperationalError) ++ rest)%list ->
  (forall e, hd_error rest <> Some (Some e)) ->
  faults c2 = rest ->
  fst (clean_article filter_templates site db a c)
  = fst (clean_article filter_templates site db a c2).
Proof.
  intros Hk Hf Hrest Hf2. rewrite !clean_article_after_latest.
  destruct (wp10_scale !! PyStr.lower (class a)) as [start_idx|]; [|reflexivity].
  destruct (retry_lost_connections (latest_try db) (latest_try_fault db)
              k (3 - k)%nat 0%nat a (snd (ping_or_reconnect c)) rest)
    as (c' & Hrun & Hf' & _).
  { rewrite <- Hf. unfold ping_or_reconnect. destruct (alive c); reflexivity. }
  replace (k + (3 - k))%nat with db_attempts in Hrun by (unfold db_attempts; lia).
  rewrite Hrun. clear Hrun.
  assert (forall budget attempts d,
             faults d = rest ->
             exists d', retry is_OperationalError (latest_try db) (S budget) attempts a d
                        = ((with_latest db a, Ok attempts), d')
                        /\ faults d' = tl rest) as Hsuccess.
  { intros budget attempts d Hd. simpl. unfold latest_try at 1.
    destruct (execute_success (Query.latest_query db (pageid a)) d) as (d' & -> & Hd').
    { rewrite Hd. exact Hrest. }
    exists d'. rewrite Hd' , Hd. auto. }
  destruct (3 - k)%nat as [|budget] eqn:Hbudget; [lia|].
  destruct (Hsuccess budget (0 + k)%nat c' Hf') as (d1 & -> & Hd1).
  destruct (Hsuccess 2%nat 0%nat (snd (ping_or_reconnect c2))) as (d2 & Hrun2 & Hd2).
  { rewrite <- Hf2. unfold ping_or_reconnect. destruct (alive c2); reflexivity. }
  change (S 2) with db_attempts in Hrun2. rewrite Hrun2.
  replace (db_attempts <=? 0 + k)%nat with false
    by (symmetry; apply Nat.leb_gt; unfold db_attempts; lia).
  change (db_attempts <=? 0)%nat with false. cbv iota.
  apply (after_latest_agrees filter_templates site db
           (fun c1 c2 => faults c1 = faults c2)
           same_faults_execute same_faults_reconnect).
  congruence.
Qed.

(** ** Cleaning on connections without faults *)

Lemma with_latest_overwrites db a a' :
  pageid a' = pageid a -> class a' = class a ->
  Query.latest_query db (pageid a) <> [] ->
  with_latest db a' = with_latest db a.
Proof.
  unfold with_latest. intros Hp Hc Hrows. rewrite Hp.
  destruct (Query.latest_query db (pageid a)) as [|row rows]; [contradiction|].
  simpl. f_equal. destruct row as [[[? ?] ?] ?]. simpl. rewrite Hp, Hc. reflexivity.
Qed.

Section FaultFree.

Variable filter_templates : string -> list template.
Variable site : list Z -> api_reply.
Variable db : database.

Lemma clean_article_fault_free_frame a c start_idx :
  wp10_scale !! PyStr.lower (class a) = Some start_idx ->
  fault_free c = true ->
  pageid (record_of (fst (clean_article filter_templates site db a c))) = pageid a
  /\ class (record_of (fst (clean_article filter_templates site db a c))) = class a.
Proof.
  intros Hclass Hc.
  rewrite (clean_article_fault_free filter_templates site db a c start_idx Hclass Hc).
  destruct (foldl_assign_latest_frame a (Query.latest_query db (pageid a))) as [Hp Hcl].
  fold (with_latest db a) in Hp, Hcl.
  destruct (talk_revisions db (with_latest db a)) as [|rev0 revs]; [simpl; auto|].
  destruct (resolve_record filter_templates site db start_idx (with_latest db a)
              (rev0 :: revs) (after_queries 2 (snd (ping_or_reconnect c))))
    as [->|(prev & [->|(v & ->)])]; simpl; auto.
Qed.

(** X18. On connections without faults the outcome of [clean_article]
    for a page that the metadata query finds depends on the record only
    through its page id and its class: the three other fields are
    overwritten before they are read.  Hence cleaning is idempotent:
    cleaning the record that a call left gives that record again. *)
Theorem clean_article_depends_on_pageid_and_class
    (a : articledata) (c : conn) (start_idx : Z) :
  wp10_scale !! PyStr.lower (class a) = Some start_idx ->
  Query.latest_query db (pageid a) <> [] ->
  fault_free c = true ->
  (forall a' c',
     fault_free c' = true -> pageid a' = pageid a -> class a' = class a ->
     fst (clean_article filter_templates site db a' c')
     = fst (clean_article filter_templates site db a c))
  /\ (forall c',
        fault_free c' = true ->
        fst (clean_article filter_templates site db
               (record_of (fst (clean_article filter_templates site db a c))) c')
        = fst (clean_article filter_templates site db a c)).
Proof.
  intros Hclass Hrows Hc.
  assert (forall a' c',
             fault_free c' = true -> pageid a' = pageid a -> class a' = class a ->
             fst (clean_article filter_templates site db a' c')
             = fst (clean_article filter_templates site db a c)) as Hsame.
  { intros a' c' Hc' Hp Hcl.
    assert (wp10_scale !! PyStr.lower (class a') = Some start_idx) as Hclass'
      by (rewrite Hcl; exact Hclass).
    rewrite (clean_article_fault_free filter_templates site db a' c' start_idx Hclass' Hc').
    rewrite (clean_article_fault_free filter_templates site db a c start_idx Hclass Hc).
    rewrite (with_latest_overwrites db a a' Hp Hcl Hrows).
    destruct (talk_revisions db (with_latest db a)) as [|rev0 revs]; [reflexivity|].
    apply (resolve_agrees filter_templates site db
             (fun c1 c2 => fault_free c1 = true /\ fault_free c2 = true)
             fault_free_execute fault_free_reconnect).
    split; apply fault_free_after; rewrite fault_free_ping; assumption. }
  split; [exact Hsame|].
  intros c' Hc'.
  destruct (clean_article_fault_free_frame a c start_idx Hclass Hc) as [Hp Hcl].
  apply Hsame; assumption.
Qed.

End FaultFree.

(** ** The scan among reverted revisions *)

Section ScanOnFaultFree.

Variable filter_templates : string -> list template.
Variable site : list Z -> api_reply.
Variable db : database.

(** A revision that the scan passes over: it has no content, or no
    assessment and was reverted *)
Let passed (rev : TPRevision) : Prop :=
  read_revision filter_templates rev = Unread
  \/ (read_revision filter_templates rev = Unassessed
      /\ reverted db (tp_id rev) default_radius = true).

(** A revision at which the scan stops: it has another class, or no
    assessment and was not reverted *)
Let stops (start_idx : Z) (rev : TPRevision) : Prop :=
  (exists cur_idx, read_revision filter_templates rev = Rated cur_idx
                   /\ cur_idx <> start_idx)
  \/ (read_revision filter_templates rev = Unassessed
      /\ reverted db (tp_id rev) default_radius = false).

Lemma assess_revision_unassessed start_idx revision prev c :
  read_revision filter_templates revision = Unassessed ->
  fault_free c = true ->
  assess_revision filter_templates db start_idx revision prev c
  = (Ok (if reverted db (tp_id revision) default_radius then Next prev else Stop),
     after_queries (revert_queries db (tp_id revision)) c).
Proof.
  unfold read_revision, assess_revision. intros Hread Hc.
  destruct (tp_content revision) as [[|ch content]|]; try discriminate.
  destruct (map_ratings _ []) as [|x l]; [|discriminate].
  unfold bind. rewrite (is_reverted_fault_free _ _ _ _ Hc). simpl.
  destruct (reverted db (tp_id revision) default_radius); reflexivity.
Qed.

Lemma assess_revision_passed start_idx revision prev c :
  passed revision -> fault_free c = true ->
  exists n, assess_revision filter_templates db start_idx revision prev c
            = (Ok (Next prev), after_queries n c).
Proof.
  intros [Hu|[Hu Hr]] Hc.
  - exists 0%nat. rewrite after_queries_0. apply assess_revision_unread, Hu.
  - eexists. rewrite (assess_revision_unassessed _ _ _ _ Hu Hc), Hr. reflexivity.
Qed.

Lemma assess_revision_stops start_idx revision prev c :
  stops start_idx revision -> fault_free c = true ->
  exists n, assess_revision filter_templates db start_idx revision prev c
            = (Ok Stop, after_queries n c).
Proof.
  intros [(cur_idx & Hr & Hne)|[Hu Hr]] Hc.
  - exists 0%nat. rewrite after_queries_0, (assess_revision_rated _ _ _ _ _ _ _ Hr).
    apply Z.eqb_neq in Hne. rewrite Hne. reflexivity.
  - eexists. rewrite (assess_revision_unassessed _ _ _ _ Hu Hc), Hr. reflexivity.
Qed.

Lemma assess_subset_run_among_noise start_idx run :
  Forall (fun rev => read_revision filter_templates rev = Rated start_idx \/ passed rev) run ->
  forall prev c,
    fault_free c = true ->
    exists p n,
      assess_subset filter_templates db start_idx run prev c
      = (Ok (p, false), after_queries n c)
      /\ (Forall passed run -> p = prev).
Proof.
  induction 1 as [|rev run Hrev Hrun IH]; intros prev c Hc.
  - exists prev, 0%nat. rewrite after_queries_0. auto.
  - rewrite assess_subset_cons. destruct Hrev as [Hrev|Hrev].
    + rewrite (assess_revision_rated _ _ _ _ _ _ _ Hrev), Z.eqb_refl.
      destruct (IH (tp_id rev) c Hc) as (p & n & Hp & _).
      exists p, n. split; [exact Hp|].
      intros Hall. apply Forall_cons in Hall as [[Hu|[Hu _]] _]; congruence.
    + destruct (assess_revision_passed start_idx rev prev c Hrev Hc) as [n ->].
      destruct (IH prev (after_queries n c) (fault_free_after n c Hc))
        as (p & m & Hp & Hsame).
      exists p, (m + n)%nat. rewrite Hp, after_queries_add. split; [reflexivity|].
      intros Hall. apply Forall_cons in Hall as [_ Hall]. auto.
Qed.

Lemma assess_subset_end start_idx rest prev c :
  (rest = [] \/ exists other rest', rest = other :: rest' /\ stops start_idx other) ->
  fault_free c = true ->
  exists d n, assess_subset filter_templates db start_idx rest prev c
              = (Ok (prev, d), after_queries n c).
Proof.
  intros [->|(other & rest' & -> & Hstop)] Hc.
  - exists false, 0%nat. rewrite after_queries_0. reflexivity.
  - rewrite assess_subset_cons.
    destruct (assess_revision_stops start_idx other prev c Hstop Hc) as [n ->].
    exists true, n. reflexivity.
Qed.

(** X19. On a connection without faults the scan takes a revision
    without assessment that was reverted for noise and goes on, and
    stops at one that was not reverted as it stops at a revision of
    another class: over revisions that carry the class of the record,
    have no content or are such noise, the boundary is the oldest one
    that carries the class before the revision at which the scan
    stops. *)
Theorem scan_passes_over_reverted_revisions
    (start_idx : Z) (tp_revs fetched newer older rest : list TPRevision)
    (boundary : TPRevision) (c : conn) :
  fetches site tp_revs fetched ->
  fault_free c = true ->
  fetched = (newer ++ boundary :: older ++ rest)%list ->
  Forall (fun rev => read_revision filter_templates rev = Rated start_idx \/ passed rev)
    newer ->
  read_revision filter_templates boundary = Rated start_idx ->
  Forall passed older ->
  (rest = [] \/ exists other rest', rest = other :: rest' /\ stops start_idx other) ->
  exists n,
    scan filter_templates site db start_idx tp_revs c
    = (Ok (tp_id boundary), after_queries n c).
Proof.
  intros Hfetch Hc Hshape Hnewer Hboundary Holder Hrest.
  rewrite (scan_one_pass _ _ _ _ _ _ _ Hfetch), Hshape.
  rewrite assess_subset_app.
  destruct (assess_subset_run_among_noise start_idx newer Hnewer (-1) c Hc)
    as (p & n1 & -> & _).
  rewrite assess_subset_cons, (assess_revision_rated _ _ _ _ _ _ _ Hboundary), Z.eqb_refl.
  rewrite assess_subset_app.
  destruct (assess_subset_run_among_noise start_idx older)
    with (prev := tp_id boundary) (c := after_queries n1 c)
    as (p' & n2 & -> & Hp').
  { eapply Forall_impl; [exact Holder|]. simpl. auto. }
  { apply fault_free_after, Hc. }
  rewrite (Hp' Holder).
  destruct (assess_subset_end start_idx rest (tp_id boundary)
              (after_queries n2 (after_queries n1 c)) Hrest)
    as (d & n3 & ->).
  { apply fault_free_after, fault_free_after, Hc. }
  exists (n3 + n2 + n1)%nat. rewrite !after_queries_add. reflexivity.
Qed.

(** X20. On a connection without faults, when the newest revision that
    the scan reads has another class, or has no assessment and was not
    reverted, or when nothing can be read, no boundary is found and the
    record is returned as the metadata query left it, without a query
    for an article revision. *)
Theorem scan_without_boundary_keeps_latest
    (start_idx : Z) (tp_revs fetched skipped rest : list TPRevision)
    (a : articledata) (c : conn) :
  fetches site tp_revs fetched ->
  fault_free c = true ->
  fetched = (skipped ++ rest)%list ->
  Forall passed skipped ->
  (rest = [] \/ exists other rest', rest = other :: rest' /\ stops start_idx other) ->
  exists n,
    scan filter_templates site db start_idx tp_revs c = (Ok (-1), after_queries n c)
    /\ resolve filter_templates site db start_idx a tp_revs c
       = (Returned a, after_queries n c).
Proof.
  intros Hfetch Hc Hshape Hskipped Hrest.
  assert (exists n, scan filter_templates site db start_idx tp_revs c
                    = (Ok (-1), after_queries n c)) as [n Hscan].
  { rewrite (scan_one_pass _ _ _ _ _ _ _ Hfetch), Hshape.
    rewrite assess_subset_app.
    destruct (assess_subset_run_among_noise start_idx skipped)
      with (prev := -1) (c := c) as (p & n1 & -> & Hp).
    { eapply Forall_impl; [exact Hskipped|]. simpl. auto. }
    { exact Hc. }
    rewrite (Hp Hskipped).
    destruct (assess_subset_end start_idx rest (-1) (after_queries n1 c) Hrest)
      as (d & n2 & ->).
    { apply fault_free_after, Hc. }
    exists (n2 + n1)%nat. rewrite after_queries_add. reflexivity. }
  exists n. split; [exact Hscan|]. unfold resolve. rewrite Hscan. reflexivity.
Qed.

End ScanOnFaultFree.

(** ** The article revision of a boundary *)

Lemma first_of_order_desc l :
  match firstn 1 (order_desc l) with
  | [] => l = []
  | r :: _ => In r l /\ forall x, In x l -> rev_timestamp x <= rev_timestamp r
  end.
Proof.
  pose proof (order_desc_sorted l) as Hs.
  pose proof (fun x => order_desc_In x l) as Hin.
  destruct (order_desc l) as [|r rest]; simpl.
  - destruct l as [|x l]; [reflexivity|].
    exfalso. apply (Hin x). by left.
  - split; [apply Hin; by left|]. intros x Hx. apply Hin in Hx as [->|Hx]; [lia|].
    apply StronglySorted_inv in Hs as [_ Hall]. rewrite Forall_forall in Hall.
    apply Hall, list_elem_of_In, Hx.
Qed.

Lemma first_of_order_asc l :
  match firstn 1 (order_asc l) with
  | [] => l = []
  | r :: _ => In r l /\ forall x, In x l -> rev_timestamp r <= rev_timestamp x
  end.
Proof.
  pose proof (order_asc_sorted l) as Hs.
  pose proof (fun x => order_asc_In x l) as Hin.
  destruct (order_asc l) as [|r rest]; simpl.
  - destruct l as [|x l]; [reflexivity|].
    exfalso. apply (Hin x). by left.
  - split; [apply Hin; by left|]. intros x Hx. apply Hin in Hx as [->|Hx]; [lia|].
    apply StronglySorted_inv in Hs as [_ Hall]. rewrite Forall_forall in Hall.
    apply Hall, list_elem_of_In, Hx.
Qed.

(** What [recent_revquery] gives: nothing when the page has no revision
    before the talk page revision, else its latest revision before it *)
Lemma recent_revquery_latest db pageid0 tp_revid :
  match Query.recent_revquery db pageid0 tp_revid with
  | [] =>
      forall row t, In row (revision db) -> rev_page row = pageid0 ->
                    timestamp_of db (Some tp_revid) = Some t ->
                    ~ rev_timestamp row < t
  | (id, _) :: _ =>
      exists row t,
        In row (revision db) /\ rev_id row = id /\ rev_page row = pageid0
        /\ timestamp_of db (Some tp_revid) = Some t /\ rev_timestamp row < t
        /\ forall row', In row' (revision db) -> rev_page row' = pageid0 ->
                        rev_timestamp row' < t -> rev_timestamp row' <= rev_timestamp row
  end.
Proof.
  unfold Query.recent_revquery.
  set (sel := fun r => (rev_page r =? pageid0)
                       && sql_lt (rev_timestamp r) (timestamp_of db (Some tp_revid))).
  pose proof (first_of_order_desc (List.filter sel (revision db))) as H.
  assert (forall row, In row (List.filter sel (revision db)) <->
                      In row (revision db) /\ rev_page row = pageid0
                      /\ exists t, timestamp_of db (Some tp_revid) = Some t
                                   /\ rev_timestamp row < t) as Hsel.
  { intros row. rewrite filter_In. unfold sel, sql_lt.
    rewrite andb_true_iff, Z.eqb_eq.
    destruct (timestamp_of db (Some tp_revid)) as [t|].
    - rewrite Z.ltb_lt. split.
      + intros (? & ? & ?). eauto.
      + intros (? & ? & t' & Ht & ?). inversion Ht; subst. auto.
    - split; [intros (_ & _ & ?); discriminate|]. intros (_ & _ & t' & ? & _). discriminate. }
  destruct (firstn 1 (order_desc (List.filter sel (revision db)))) as [|r rest]; simpl.
  - intros row t Hin Hpage Ht Hlt.
    assert (In row (List.filter sel (revision db))) as Hrow by (apply Hsel; eauto).
    rewrite H in Hrow. exact Hrow.
  - destruct H as [Hr Hmax]. apply Hsel in Hr as (Hin & Hpage & t & Ht & Hlt).
    exists r, t. repeat split; auto.
    intros row' Hin' Hpage' Hlt'. apply Hmax, Hsel. eauto.
Qed.

(** What [next_revquery] gives: nothing when the page has no revision
    after the talk page revision, else its first revision after it *)
Lemma next_revquery_first db pageid0 tp_revid :
  match Query.next_revquery db pageid0 tp_revid with
  | [] =>
      forall row t, In row (revision db) -> rev_page row = pageid0 ->
                    timestamp_of db (Some tp_revid) = Some t ->
                    ~ t < rev_timestamp row
  | (id, _) :: _ =>
      exists row t,
        In row (revision db) /\ rev_id row = id /\ rev_page row = pageid0
        /\ timestamp_of db (Some tp_revid) = Some t /\ t < rev_timestamp row
        /\ forall row', In row' (revision db) -> rev_page row' = pageid0 ->
                        t < rev_timestamp row' -> rev_timestamp row <= rev_timestamp row'
  end.
Proof.
  unfold Query.next_revquery.
  set (sel := fun r => (rev_page r =? pageid0)
                       && sql_gt (rev_timestamp r) (timestamp_of db (Some tp_revid))).
  pose proof (first_of_order_asc (List.filter sel (revision db))) as H.
  assert (forall row, In row (List.filter sel (revision db)) <->
                      In row (revision db) /\ rev_page row = pageid0
                      /\ exists t, timestamp_of db (Some tp_revid) = Some t
                                   /\ t < rev_timestamp row) as Hsel.
  { intros row. rewrite filter_In. unfold sel, sql_gt.
    rewrite andb_true_iff, Z.eqb_eq.
    destruct (timestamp_of db (Some tp_revid)) as [t|].
    - rewrite Z.ltb_lt. split.
      + intros (? & ? & ?). eauto.
      + intros (? & ? & t' & Ht & ?). inversion Ht; subst. auto.
    - split; [intros (_ & _ & ?); discriminate|]. intros (_ & _ & t' & ? & _). discriminate. }
  destruct (firstn 1 (order_asc (List.filter sel (revision db)))) as [|r rest]; simpl.
  - intros row t Hin Hpage Ht Hlt.
    assert (In row (List.filter sel (revision db))) as Hrow by (apply Hsel; eauto).
    rewrite H in Hrow. exact Hrow.
  - destruct H as [Hr Hmin]. apply Hsel in Hr as (Hin & Hpage & t & Ht & Hlt).
    exists r, t. repeat split; auto.
    intros row' Hin' Hpage' Hlt'. apply Hmin, Hsel. eauto.
Qed.

Lemma recent_try_fault_free db a prev v c :
  fault_free c = true ->
  recent_try db a prev v c
  = ((foldl assign_revision v (Query.recent_revquery db (pageid a) prev), Completed),
     after_queries 1 c).
Proof. intros Hc. unfold recent_try. rewrite (execute_fault_free _ _ Hc). reflexivity. Qed.

Lemma next_try_fault_free db a prev v c :
  fault_free c = true ->
  next_try db a prev v c
  = ((foldl assign_revision v (Query.next_revquery db (pageid a) prev), Completed),
     after_queries 1 c).
Proof. intros Hc. unfold next_try. rewrite (execute_fault_free _ _ Hc). reflexivity. Qed.

Lemma foldl_assign_revision_one v (rows : list (Z * Z)) :
  (List.length rows <= 1)%nat ->
  foldl assign_revision v rows
  = match rows with
    | [] => v
    | row :: _ => Some (fst row)
    end.
Proof.
  destruct rows as [|row [|row' rest]]; simpl; intros H; try reflexivity. lia.
Qed.

Lemma recent_revquery_length db pageid0 tp_revid :
  (List.length (Query.recent_revquery db pageid0 tp_revid) <= 1)%nat.
Proof. unfold Query.recent_revquery. rewrite length_map. apply firstn_le_length. Qed.

Lemma next_revquery_length db pageid0 tp_revid :
  (List.length (Query.next_revquery db pageid0 tp_revid) <= 1)%nat.
Proof. unfold Query.next_revquery. rewrite length_map. apply firstn_le_length. Qed.

(** X21. On a connection without faults and a store whose revision ids
    are not 0, the record that has been given a boundary gets as its
    article revision the latest revision of the page strictly before
    the boundary, with one query; when the page has no revision before
    the boundary, its first revision strictly after it, with a second
    query; and when it has neither, the record keeps the article
    revision it had. *)
Theorem article_revision_is_latest_before_or_first_after
    (db : database) (a : articledata) (prev_tprevid : Z) (c : conn) :
  fault_free c = true ->
  (forall row, In row (revision db) -> rev_id row <> 0) ->
  let none_before :=
    forall row t, In row (revision db) -> rev_page row = pageid a ->
                  timestamp_of db (Some prev_tprevid) = Some t ->
                  ~ rev_timestamp row < t in
  let none_after :=
    forall row t, In row (revision db) -> rev_page row = pageid a ->
                  timestamp_of db (Some prev_tprevid) = Some t ->
                  ~ t < rev_timestamp row in
  exists r n,
    resolve_article_revision db a prev_tprevid c = (Returned r, after_queries n c)
    /\ ((exists row t,
           n = 1%nat
           /\ r = set_revid (set_talkpagerev a prev_tprevid) (Some (rev_id row))
           /\ In row (revision db) /\ rev_page row = pageid a
           /\ timestamp_of db (Some prev_tprevid) = Some t /\ rev_timestamp row < t
           /\ forall row', In row' (revision db) -> rev_page row' = pageid a ->
                           rev_timestamp row' < t ->
                           rev_timestamp row' <= rev_timestamp row)
        \/ (exists row t,
              n = 2%nat /\ none_before
              /\ r = set_revid (set_talkpagerev a prev_tprevid) (Some (rev_id row))
              /\ In row (revision db) /\ rev_page row = pageid a
              /\ timestamp_of db (Some prev_tprevid) = Some t /\ t < rev_timestamp row
              /\ forall row', In row' (revision db) -> rev_page row' = pageid a ->
                              t < rev_timestamp row' ->
                              rev_timestamp row <= rev_timestamp row')
        \/ (n = 2%nat /\ none_before /\ none_after
            /\ r = set_talkpagerev a prev_tprevid)).
Proof.
  intros Hc Hids none_before none_after. unfold resolve_article_revision.
  set (a' := set_talkpagerev a prev_tprevid).
  unfold db_attempts at 1.
  rewrite (retry_first_attempt _ _ _ _ _ _ _
             (recent_try_fault_free db a' prev_tprevid None c Hc)).
  change (db_attempts <=? 0)%nat with false. cbv iota.
  rewrite (foldl_assign_revision_one _ _ (recent_revquery_length db (pageid a') prev_tprevid)).
  pose proof (recent_revquery_latest db (pageid a') prev_tprevid) as Hrecent.
  change (pageid a') with (pageid a) in *.
  destruct (Query.recent_revquery db (pageid a) prev_tprevid) as [|[id ts] rows1].
  - (* no revision before the boundary: the fallback *)
    simpl truthy. cbv iota beta delta [negb].
    unfold db_attempts at 1.
    rewrite (retry_first_attempt _ _ _ _ _ _ _
               (next_try_fault_free db a' prev_tprevid None _ (fault_free_after 1 c Hc))).
    rewrite after_queries_add. simpl (1 + 1)%nat.
    rewrite (foldl_assign_revision_one _ _ (next_revquery_length db (pageid a') prev_tprevid)).
    pose proof (next_revquery_first db (pageid a') prev_tprevid) as Hnext.
    change (pageid a') with (pageid a) in *.
    destruct (Query.next_revquery db (pageid a) prev_tprevid) as [|[id' ts'] rows2].
    + exists a', 2%nat. split; [reflexivity|]. right; right. auto.
    + destruct Hnext as (row & t & Hin & Hid & Hpage & Ht & Hlt & Hmin).
      assert (truthy (Some (fst (id', ts'))) = true) as Htruthy.
      { simpl. apply negb_true_iff, Z.eqb_neq. rewrite <- Hid. apply Hids, Hin. }
      rewrite Htruthy. cbv iota beta delta [negb].
      exists (set_revid a' (Some id')), 2%nat. split; [reflexivity|].
      right; left. exists row, t. subst id'. repeat split; auto.
  - destruct Hrecent as (row & t & Hin & Hid & Hpage & Ht & Hlt & Hmax).
    assert (truthy (Some (fst (id, ts))) = true) as Htruthy.
    { simpl. apply negb_true_iff, Z.eqb_neq. rewrite <- Hid. apply Hids, Hin. }
    rewrite Htruthy. cbv iota beta delta [negb]. rewrite Htruthy. cbv iota beta delta [negb].
    exists (set_revid a' (Some id)), 1%nat. split; [reflexivity|].
    left. exists row, t. subst id. repeat split; auto.
Qed.

(** ** Pages without a talk page, and the rows of a run *)

Lemma filter_none {A} (f : A -> bool) l :
  (forall x, f x = false) -> List.filter f l = [].
Proof.
  intros Hf. induction l as [|x l IH]; simpl; [reflexivity|]. rewrite Hf. exact IH.
Qed.

Lemma tp_revquery_null db talkpageid0 revid0 :
  talkpageid0 = None \/ revid0 = None ->
  Query.tp_revquery db talkpageid0 revid0 = [].
Proof.
  intros H. unfold Query.tp_revquery. rewrite filter_none; [reflexivity|].
  intros r. destruct H as [-> | ->]; simpl; [reflexivity|].
  unfold timestamp_of. rewrite (filter_none (fun r => sql_eq (rev_id r) None)) by reflexivity.
  simpl. apply andb_false_r.
Qed.

Section Rows.

Variable filter_templates : string -> list template.
Variable site : list Z -> api_reply.
Variable db : database.

(** X22. A page that the metadata query does not find (an unknown page
    id, or an article without talk page) is left as it came: for a
    record read from the dataset, whose three other fields are empty,
    [clean_article] assigns nothing, whatever the faults, and on a
    connection without faults it returns after the two queries. *)
Theorem page_without_talk_page_is_left_as_it_came
    (a : articledata) (c : conn) (start_idx : Z) :
  wp10_scale !! PyStr.lower (class a) = Some start_idx ->
  Query.latest_query db (pageid a) = [] ->
  revid a = None \/ talkpageid a = None ->
  record_of (fst (clean_article filter_templates site db a c)) = a
  /\ (fault_free c = true ->
      clean_article filter_templates site db a c
      = (Returned a, after_queries 2 (snd (ping_or_reconnect c)))).
Proof.
  intros Hclass Hrows Hnull.
  assert (with_latest db a = a) as Hsame by (unfold with_latest; rewrite Hrows; reflexivity).
  assert (talk_revisions db a = []) as Hnone.
  { unfold talk_revisions. rewrite tp_revquery_null; [reflexivity|]. tauto. }
  split.
  - rewrite clean_article_after_latest, Hclass.
    destruct (retry is_OperationalError (latest_try db) db_attempts 0 a
                (snd (ping_or_reconnect c))) as [[a1 r1] c1] eqn:H1.
    assert (a1 = a) as ->.
    { destruct (retry_cases (fun l => l = a) (fun l => l = with_latest db a) _ _
                  (latest_try_cases db a) _ _ _ _ _ _ _ eq_refl H1)
        as [(n & _ & _ & ->)|[_ ->]]; [exact Hsame | reflexivity]. }
    destruct r1 as [n|e]; [|reflexivity].
    destruct (db_attempts <=? n)%nat; [reflexivity|].
    unfold after_latest.
    destruct (retry is_OperationalError (tp_revs_try db a) db_attempts 0 [] c1)
      as [[tp_revs r2] c2] eqn:H2.
    assert (tp_revs = []) as ->.
    { destruct (retry_cases (fun l => l = []) (fun l => l = talk_revisions db a) _ _
                  (tp_revs_try_cases db a) _ _ _ _ _ _ _ eq_refl H2)
        as [(n2 & _ & _ & ->)|[_ ->]]; [exact Hnone | reflexivity]. }
    destruct r2 as [n2|e]; [|reflexivity].
    destruct (db_attempts <=? n2)%nat; reflexivity.
  - intros Hc.
    rewrite (clean_article_fault_free filter_templates site db a c start_idx Hclass Hc).
    rewrite Hsame, Hnone. reflexivity.
Qed.

(** The page id and the class of the record that [clean_article]
    leaves, of which the row is made *)
Lemma clean_article_row_key a c :
  let r := record_of (fst (clean_article filter_templates site db a c)) in
  (pageid r, class r) = (pageid a, class a).
Proof.
  rewrite clean_article_after_latest.
  destruct (wp10_scale !! PyStr.lower (class a)) as [start_idx|]; [|reflexivity].
  destruct (retry is_OperationalError (latest_try db) db_attempts 0 a
              (snd (ping_or_reconnect c))) as [[a1 r1] c1] eqn:H1.
  assert ((pageid a1, class a1) = (pageid a, class a)) as Hkey.
  { eapply (retry_invariant (fun l => (pageid l, class l) = (pageid a, class a)));
      [| |exact H1]; [|reflexivity].
    intros l k l' t k' Hl Hrun. unfold latest_try in Hrun.
    destruct (execute_cases (Query.latest_query db (pageid l)) k)
      as [(k1 & E)|(e & k1 & E)]; rewrite E in Hrun; inversion Hrun; subst; [|exact Hl].
    destruct (foldl_assign_latest_frame l (Query.latest_query db (pageid l))) as [-> ->].
    exact Hl. }
  destruct r1 as [n1|e1]; [|exact Hkey].
  destruct (db_attempts <=? n1)%nat; [exact Hkey|].
  unfold after_latest.
  destruct (retry is_OperationalError (tp_revs_try db a1) db_attempts 0 [] c1)
    as [[tp_revs r2] c2].
  destruct r2 as [n2|e2]; [|exact Hkey].
  destruct (db_attempts <=? n2)%nat; [exact Hkey|].
  destruct tp_revs as [|rev0 tp_revs]; [exact Hkey|].
  destruct (resolve_record filter_templates site db start_idx a1 (rev0 :: tp_revs) c2)
    as [->|(prev & [->|(v & ->)])]; exact Hkey.
Qed.

(** X23. The rows of a run follow the dataset: the loop of
    [clean_training_set] writes one row for each record, in the order
    of the dataset, with the page id and the class of the record; when
    a call of [clean_article] raises, the rows written are those of the
    records before it and no more. *)
Theorem rows_follow_the_dataset (articles outfile : list articledata) (c : conn) :
  let key := fun a => (pageid a, class a) in
  match fst (write_articles filter_templates site db articles outfile c) with
  | Finished out =>
      exists rows, out = (outfile ++ rows)%list
                   /\ List.map key rows = List.map key articles
  | Aborted e out =>
      exists rows, out = (outfile ++ rows)%list
                   /\ (List.length rows < List.length articles)%nat
                   /\ List.map key rows = List.map key (take (List.length rows) articles)
  end.
Proof.
  intros key. revert outfile c.
  induction articles as [|article rest IH]; intros outfile c; simpl.
  - exists []. rewrite app_nil_r. auto.
  - pose proof (clean_article_row_key article c) as Hkey. simpl in Hkey.
    destruct (clean_article filter_templates site db article c) as [[a|e a] c1];
      simpl in Hkey.
    + specialize (IH (outfile ++ [a])%list c1).
      destruct (fst (write_articles filter_templates site db rest (outfile ++ [a]) c1))
        as [out|e out].
      * destruct IH as (rows & -> & Hrows). exists (a :: rows).
        rewrite <- app_assoc. split; [reflexivity|]. simpl.
        unfold key at 1 3. rewrite Hkey, Hrows. reflexivity.
      * destruct IH as (rows & -> & Hlen & Hrows). exists (a :: rows).
        rewrite <- app_assoc. split; [reflexivity|]. split; [simpl; lia|]. simpl.
        unfold key at 1 3. rewrite Hkey, Hrows. reflexivity.
    + exists []. rewrite app_nil_r. simpl. split; [reflexivity|]. split; [lia|reflexivity].
Qed.

Lemma scan_loop_turn fuel i start_idx tp_revs prev :
  scan_loop filter_templates site db (S fuel) i start_idx tp_revs prev =
  if (i <? List.length tp_revs)%nat then
    match get_revisions site (take slice_size (drop i tp_revs)) with
    | Raise e => raise e
    | Ok rev_subset =>
        bind (assess_subset filter_templates db start_idx rev_subset prev)
          (fun r => if snd r then ret (fst r)
                    else scan_loop filter_templates site db fuel
                           (i + slice_size) start_idx tp_revs (fst r))
    end
  else ret prev.
Proof. reflexivity. Qed.

(** X24. The loop of the scan over the slices of 20 ends because the
    index passes the length of the list of revisions (or the scan is
    done): as many turns as the list has slices are enough, and a turn
    more changes nothing, whatever the revisions hold and whatever the
    connection meets. *)
Theorem scan_ends
    (start_idx : Z) (tp_revs : list TPRevision) (prev : Z) (c : conn) (spare : nat) :
  scan_loop filter_templates site db
    (Nat.div (List.length tp_revs + 19) 20 + spare) 0 start_idx tp_revs prev c
  = scan_loop filter_templates site db (List.length tp_revs) 0 start_idx tp_revs prev c.
Proof.
  assert (forall fuel i p d,
             (List.length tp_revs <= i + 20 * fuel)%nat ->
             scan_loop filter_templates site db (S fuel) i start_idx tp_revs p d
             = scan_loop filter_templates site db fuel i start_idx tp_revs p d) as Hmore.
  { induction fuel as [|fuel IH]; intros i p d Hlen.
    - simpl. destruct (i <? List.length tp_revs)%nat eqn:E; [|reflexivity].
      apply Nat.ltb_lt in E. lia.
    - rewrite (scan_loop_turn fuel i start_idx tp_revs p),
        (scan_loop_turn (S fuel) i start_idx tp_revs p).
      destruct (i <? List.length tp_revs)%nat; [|reflexivity].
      destruct (get_revisions site (take slice_size (drop i tp_revs))); [|reflexivity].
      unfold bind.
      destruct (assess_subset filter_templates db start_idx a p d) as [[[p1 done]|e] d1];
        [|reflexivity].
      simpl. destruct done; [reflexivity|]. apply IH. unfold slice_size. lia. }
  assert (forall fuel extra,
             (List.length tp_revs <= 20 * fuel)%nat ->
             scan_loop filter_templates site db (fuel + extra) 0 start_idx tp_revs prev c
             = scan_loop filter_templates site db fuel 0 start_idx tp_revs prev c) as Hstable.
  { intros fuel extra Hlen. induction extra as [|extra IH].
    - rewrite Nat.add_0_r. reflexivity.
    - rewrite Nat.add_succ_r, Hmore by lia. exact IH. }
  pose proof (Nat.div_mod (List.length tp_revs + 19) 20 ltac:(lia)) as Hdiv.
  pose proof (Nat.mod_upper_bound (List.length tp_revs + 19) 20 ltac:(lia)) as Hmod.
  set (turns := Nat.div (List.length tp_revs + 19) 20) in *.
  rewrite Hstable by lia. symmetry.
  etransitivity; [|apply (Hstable turns (List.length tp_revs - turns)%nat); lia].
  f_equal. lia.
Qed.

End Rows.

(** ** Reading the dataset *)

Lemma split_words s :
  Forall (fun w => w <> EmptyString /\ has_space w = false) (split s).
Proof.
  induction s as [|a s IH]; simpl; [constructor|].
  destruct (PyStr.is_space a) eqn:Ha; [exact IH|].
  destruct s as [|b s']; [repeat constructor; [discriminate | simpl; rewrite Ha; reflexivity]|].
  destruct (PyStr.is_space b) eqn:Hb.
  - constructor; [|exact IH]. split; [discriminate | simpl; rewrite Ha; reflexivity].
  - destruct (split (String b s')) as [|t ts].
    + repeat constructor; [discriminate | simpl; rewrite Ha; reflexivity].
    + apply Forall_cons in IH as [[_ Ht] Hts]. constructor; [|exact Hts].
      split; [discriminate | simpl; rewrite Ha; exact Ht].
Qed.

Lemma lstrip_blank s : blank s = true -> PyStr.lstrip s = EmptyString.
Proof.
  induction s as [|a s IH]; simpl; [reflexivity|].
  destruct (PyStr.is_space a); simpl; [exact IH | discriminate].
Qed.

Lemma columns_blank line : blank line = true -> columns line = [].
Proof. intros H. unfold columns, PyStr.strip. rewrite (lstrip_blank _ H). reflexivity. Qed.

Section ReadDataset.

Variable page_number : string -> Z.

(** The record that a line of the dataset gives *)
Let row_of (line : string) (a : articledata) : Prop :=
  exists cls pid rest,
    columns line = cls :: pid :: rest
    /\ a = {| revid := None; pageid := page_number pid; talkpageid := None;
              talkpagerev := None; class := cls |}
    /\ cls <> EmptyString /\ has_space cls = false
    /\ pid <> EmptyString /\ has_space pid = false.

Lemma read_line_cases line :
  match read_line page_number line with
  | Some a => row_of line a
  | None => (List.length (columns line) < 2)%nat
  end.
Proof.
  unfold read_line. pose proof (split_words (PyStr.strip line)) as Hw.
  fold (columns line) in Hw.
  destruct (columns line) as [|cls [|pid rest]] eqn:E; simpl; try lia.
  apply Forall_cons in Hw as [[Hc Hcs] Hw]. apply Forall_cons in Hw as [[Hp Hps] _].
  exists cls, pid, rest. repeat split; assumption.
Qed.

Lemma read_lines_cases lines :
  forall articles,
    match read_lines page_number lines articles with
    | Some out => exists rows, out = (articles ++ rows)%list /\ Forall2 row_of lines rows
    | None => exists line, In line lines /\ (List.length (columns line) < 2)%nat
    end.
Proof.
  induction lines as [|line rest IH]; intros articles; simpl.
  - exists []. rewrite app_nil_r. split; [reflexivity | constructor].
  - pose proof (read_line_cases line) as Hline.
    destruct (read_line page_number line) as [a|].
    + specialize (IH (articles ++ [a])%list).
      destruct (read_lines page_number rest (articles ++ [a])) as [out|].
      * destruct IH as (rows & -> & Hrows). exists (a :: rows).
        rewrite <- app_assoc. split; [reflexivity | constructor; assumption].
      * destruct IH as (l & Hin & Hlen). exists l. auto.
    + exists line. auto.
Qed.

(** X25. Reading the dataset: the first line is skipped whatever it
    holds; each other line gives one record, in order, whose class is
    the first column of the line and whose page id is read in the
    second, the other fields being empty and further columns ignored;
    the columns are words without white space.  A line with fewer than
    two columns, such as an empty line, raises [IndexError], and then
    no record is returned. *)
Theorem read_dataset_rows (infile : list string) :
  match read_dataset page_number infile with
  | Some articles => Forall2 row_of (tl infile) articles
  | None => exists line, In line (tl infile) /\ (List.length (columns line) < 2)%nat
  end
  /\ (forall line, In line (tl infile) -> blank line = true ->
                   read_dataset page_number infile = None).
Proof.
  unfold read_dataset. pose proof (read_lines_cases (tl infile) []) as H.
  split.
  - destruct (read_lines page_number (tl infile) []) as [out|]; [|exact H].
    destruct H as (rows & -> & Hrows). exact Hrows.
  - intros line Hin Hblank.
    destruct (read_lines page_number (tl infile) []) as [out|]; [|reflexivity].
    exfalso. destruct H as (rows & _ & Hrows).
    assert (exists a, row_of line a) as (a & cls & pid & rest & Hcols & _).
    { clear -Hin Hrows. induction Hrows as [|l a ls rs Hl Hrest IH]; [destruct Hin|].
      destruct Hin as [->|Hin]; eauto. }
    rewrite (columns_blank _ Hblank) in Hcols. discriminate.
Qed.

End ReadDataset.

(** ** [get_recent_assessments] *)

Lemma foldl_assign_tt l rows t title :
  last rows = Some (t, title) -> foldl assign_tt l rows = (Some t, Some title).
Proof.
  revert l; induction rows as [|row rows IH]; intros l Hlast; [discriminate|].
  destruct rows as [|row' rows].
  - simpl in *. inversion Hlast; subst. reflexivity.
  - exact (IH (assign_tt l row) Hlast).
Qed.

(** X26. [get_recent_assessments] never returns an assessment: it
    returns the empty list (no revision id, no timestamp for it, no
    earlier revision of the talk page) or raises; and when the revision
    has an earlier revision of the talk page, the call of
    [get_assessments] with two arguments raises [TypeError]. *)
Theorem get_recent_assessments_returns_nothing
    (db : database) (revid0 : option Z) (c : conn) :
  (forall assessments,
     fst (get_recent_assessments db revid0 c) = RecentReturned assessments ->
     assessments = [])
  /\ (forall t title tp_revid others,
        fault_free c = true -> truthy revid0 = true ->
        last (tt_query db revid0) = Some (t, title) -> t <> 0 ->
        talkrev_query db (Some title) (Some t) = tp_revid :: others -> tp_revid <> 0 ->
        get_recent_assessments db revid0 c = (RecentRaised TypeError, after_queries 2 c)).
Proof.
  split.
  - intros assessments. unfold get_recent_assessments.
    destruct (negb (truthy revid0)); [simpl; congruence|].
    destruct (execute (tt_query db revid0) c) as [[rows|e] c1]; [|discriminate].
    destruct (negb (truthy (fst (foldl assign_tt (None, None) rows)))); [simpl; congruence|].
    destruct (execute _ c1) as [[rows'|e] c2]; [|discriminate].
    destruct (negb (truthy (foldl assign_tp_revid None rows'))); simpl; congruence.
  - intros t title tp_revid others Hc Hrevid Htt Ht Htalk Htp.
    unfold get_recent_assessments. rewrite Hrevid. simpl negb. cbv iota.
    rewrite (execute_fault_free _ _ Hc). cbv beta iota zeta.
    rewrite (foldl_assign_tt _ _ _ _ Htt). simpl fst. simpl snd.
    assert (truthy (Some t) = true) as ->
      by (simpl; apply negb_true_iff, Z.eqb_neq, Ht).
    simpl negb. cbv iota.
    rewrite (execute_fault_free _ _ (fault_free_after 1 c Hc)). cbv beta iota zeta.
    rewrite Htalk, after_queries_add.
    assert (truthy (foldl assign_tp_revid None (tp_revid :: others)) = true) as ->.
    { assert (List.length (tp_revid :: others) <= 1)%nat as Hlen.
      { rewrite <- Htalk. unfold talkrev_query. rewrite length_map. apply firstn_le_length. }
      destruct others; [|simpl in Hlen; lia].
      simpl. apply negb_true_iff, Z.eqb_neq, Htp. }
    reflexivity.
Qed.

(** ** What makes the fetch raise *)

Lemma store_revisions_raises l :
  forall revisions e,
    store_revisions l revisions = Raise e ->
    e = KeyError
    /\ exists rv, In rv l /\ ~ In (api_revid rv) (List.map tp_id revisions).
Proof.
  induction l as [|rv l IH]; intros revisions e H; simpl in H; [discriminate|].
  destruct (set_content (api_revid rv) (star rv) revisions) as [revisions1|] eqn:E.
  - destruct (IH _ _ H) as (-> & rv' & Hin & Hout). split; [reflexivity|].
    exists rv'. split; [by right|]. rewrite <- (set_content_ids _ _ _ _ E). exact Hout.
  - inversion H; subst. split; [reflexivity|]. exists rv. split; [by left|].
    intros Hin. destruct (set_content_found _ (star rv) _ Hin) as [? ?]. congruence.
Qed.

Lemma get_revisions_loop_raises site revisions0 :
  forall fuel i revisions e,
    List.map tp_id revisions = List.map tp_id revisions0 ->
    get_revisions_loop site fuel i revisions = Raise e ->
    e = KeyError
    /\ exists j,
         submit_all (site (requested revisions0 j)) None = None
         \/ exists q rv,
              submit_all (site (requested revisions0 j)) None = Some q
              /\ In rv (listed q)
              /\ ~ In (api_revid rv) (List.map tp_id revisions0).
Proof.
  induction fuel as [|fuel IH]; intros i revisions e Hids H; [discriminate|].
  rewrite get_revisions_loop_turn in H.
  destruct (i <? List.length revisions)%nat; [|discriminate].
  fold (requested revisions i) in H. rewrite (requested_ids _ _ i Hids) in H.
  destruct (submit_all (site (requested revisions0 i)) None) as [q|] eqn:Hq.
  2:{ inversion H; subst. split; [reflexivity|]. exists i. left. exact Hq. }
  destruct (pages q) as [ps|] eqn:Hps; [|eapply IH; eassumption].
  destruct (store_pages ps revisions) as [revisions1|e1] eqn:Hstore.
  - eapply IH; [|exact H].
    rewrite store_pages_listed in Hstore.
    eapply (store_revisions_invariant
              (fun l => List.map tp_id l = List.map tp_id revisions0) (fun _ => True));
      [| |exact Hids|exact Hstore].
    + intros rv l l' _ Hl Hset. rewrite <- Hl. eapply set_content_ids; exact Hset.
    + apply Forall_forall. auto.
  - inversion H; subst e1. rewrite store_pages_listed in Hstore.
    destruct (store_revisions_raises _ _ _ Hstore) as (-> & rv & Hin & Hout).
    split; [reflexivity|]. exists i. right. exists q, rv.
    split; [exact Hq|]. split; [|rewrite <- Hids; exact Hout].
    unfold listed in *. rewrite Hps. exact Hin.
Qed.

(** X27. [get_revisions] raises only [KeyError], and only because of a
    reply to one of its requests: a reply without any entry ['query'],
    or one that lists a revision whose id is not an id of the list. *)
Theorem get_revisions_raises_key_error_of_a_reply
    (site : list Z -> api_reply) (revisions : list TPRevision) (e : exn) :
  get_revisions site revisions = Raise e ->
  e = KeyError
  /\ exists i,
       submit_all (site (requested revisions i)) None = None
       \/ exists q rv,
            submit_all (site (requested revisions i)) None = Some q
            /\ In rv (listed q)
            /\ ~ In (api_revid rv) (List.map tp_id revisions).
Proof.
  intros H. eapply get_revisions_loop_raises; [reflexivity | exact H].
Qed.

(** ** What the boundary of a scan is *)

Section Boundary.

Variable filter_templates : string -> list template.
Variable site : list Z -> api_reply.
Variable db : database.

(** A turn that goes on: the revision carries the class and becomes
    [prev_tprevid], or it carries no class at all. *)
Lemma assess_revision_goes_on start_idx revision prev c p c' :
  assess_revision filter_templates db start_idx revision prev c = (Ok (Next p), c') ->
  (read_revision filter_templates revision = Rated start_idx /\ p = tp_id revision)
  \/ (p = prev /\ forall cur_idx, read_revision filter_templates revision <> Rated cur_idx).
Proof.
  unfold assess_revision, read_revision, bind, ret.
  destruct (tp_content revision) as [[|ch content]|].
  - intros H; inversion H; subst. right. split; [reflexivity|discriminate].
  - destruct (map_ratings _ []) as [|x l].
    + destruct (is_reverted db (tp_id revision) default_radius c) as [[v|e] c1];
        [|discriminate].
      destruct (py_true v); intros H; inversion H; subst.
      right. split; [reflexivity|discriminate].
    + destruct (list_max x l =? start_idx) eqn:E; intros H; inversion H; subst.
      apply Z.eqb_eq in E. left. split; [congruence|reflexivity].
  - intros H; inversion H; subst. right. split; [reflexivity|discriminate].
Qed.

Lemma assess_subset_boundary start_idx rev_subset :
  forall prev c p d c',
    assess_subset filter_templates db start_idx rev_subset prev c = (Ok (p, d), c') ->
    p = prev
    \/ exists newer boundary older,
         rev_subset = (newer ++ boundary :: older)%list
         /\ tp_id boundary = p
         /\ read_revision filter_templates boundary = Rated start_idx
         /\ Forall (fun rev => forall cur_idx,
                      read_revision filter_templates rev = Rated cur_idx ->
                      cur_idx = start_idx) newer.
Proof.
  induction rev_subset as [|revision rest IH]; intros prev c p d c' H.
  - simpl in H. inversion H; auto.
  - rewrite assess_subset_cons in H.
    destruct (assess_revision filter_templates db start_idx revision prev c)
      as [[[p1|]|e] c1] eqn:E; [| |discriminate].
    2:{ inversion H; auto. }
    apply assess_revision_goes_on in E.
    destruct (IH _ _ _ _ _ H) as [->|(newer & boundary & older & -> & Hid & Hread & Hnewer)].
    + destruct E as [[Hread ->]|[-> _]]; [|auto].
      right. exists [], revision, rest. repeat split; auto.
    + right. exists (revision :: newer), boundary, older. repeat split; auto.
      apply Forall_cons. split; [|exact Hnewer].
      intros cur_idx Hcur. destruct E as [[Hread' _]|[_ Hno]]; [congruence|].
      exfalso. exact (Hno cur_idx Hcur).
Qed.

(** X28. Whatever the faults of the connection, a boundary that the
    scan returns is a revision that carries the class of the record,
    and no revision newer than it carries another class: the scan
    never takes for boundary a revision of another class or one that
    lies behind such a revision. *)
Theorem scan_boundary_carries_the_class
    (start_idx : Z) (tp_revs fetched : list TPRevision) (c c' : conn) (p : Z) :
  fetches site tp_revs fetched ->
  scan filter_templates site db start_idx tp_revs c = (Ok p, c') ->
  p = -1
  \/ exists newer boundary older,
       fetched = (newer ++ boundary :: older)%list
       /\ tp_id boundary = p
       /\ read_revision filter_templates boundary = Rated start_idx
       /\ Forall (fun rev => forall cur_idx,
                    read_revision filter_templates rev = Rated cur_idx ->
                    cur_idx = start_idx) newer.
Proof.
  intros Hfetch Hscan.
  rewrite (scan_one_pass filter_templates site db start_idx tp_revs fetched c Hfetch)
    in Hscan.
  destruct (assess_subset filter_templates db start_idx fetched (-1) c)
    as [[[p1 d]|e] c1] eqn:E; simpl in Hscan; [|discriminate].
  inversion Hscan; subst.
  eapply assess_subset_boundary; exact E.
Qed.

End Boundary.

(** ** A run on a store and an API that answer *)

Section HealthyRun.

Variable filter_templates : string -> list template.
Variable site : list Z -> api_reply.
Variable db : database.

Lemma assess_revision_returns start_idx revision prev c :
  fault_free c = true ->
  exists t n, assess_revision filter_templates db start_idx revision prev c
              = (Ok t, after_queries n c).
Proof.
  intros Hc. unfold assess_revision, bind, ret.
  destruct (tp_content revision) as [[|ch content]|].
  - exists (Next prev), 0%nat. rewrite after_queries_0. reflexivity.
  - destruct (map_ratings _ []) as [|x l].
    + rewrite (is_reverted_fault_free _ _ _ _ Hc).
      destruct (py_true _); eexists _, _; reflexivity.
    + destruct (list_max x l =? start_idx); eexists _, 0%nat;
        rewrite after_queries_0; reflexivity.
  - exists (Next prev), 0%nat. rewrite after_queries_0. reflexivity.
Qed.

Lemma assess_subset_returns start_idx rev_subset :
  forall prev c,
    fault_free c = true ->
    exists p d n, assess_subset filter_templates db start_idx rev_subset prev c
                  = (Ok (p, d), after_queries n c).
Proof.
  induction rev_subset as [|revision rest IH]; intros prev c Hc.
  - exists prev, false, 0%nat. rewrite after_queries_0. reflexivity.
  - rewrite assess_subset_cons.
    destruct (assess_revision_returns start_idx revision prev c Hc) as ([p1|] & n & ->).
    + destruct (IH p1 (after_queries n c) (fault_free_after n c Hc)) as (p & d & m & ->).
      exists p, d, (m + n)%nat. rewrite after_queries_add. reflexivity.
    + exists prev, true, n. reflexivity.
Qed.

Lemma scan_loop_returns start_idx tp_revs :
  (forall revisions, answers_requested site revisions) ->
  forall fuel i prev c,
    fault_free c = true ->
    exists p n, scan_loop filter_templates site db fuel i start_idx tp_revs prev c
                = (Ok p, after_queries n c).
Proof.
  intros Hsite fuel. induction fuel as [|fuel IH]; intros i prev c Hc.
  - exists prev, 0%nat. rewrite after_queries_0. reflexivity.
  - simpl scan_loop.
    destruct (i <? List.length tp_revs)%nat.
    2:{ exists prev, 0%nat. rewrite after_queries_0. reflexivity. }
    destruct (get_revisions_loop_returns site _ (Hsite (take slice_size (drop i tp_revs)))
                (List.length (take slice_size (drop i tp_revs))) 0%nat _ eq_refl)
      as [rev_subset Hget].
    fold (get_revisions site (take slice_size (drop i tp_revs))) in Hget.
    rewrite Hget. unfold bind.
    destruct (assess_subset_returns start_idx rev_subset prev c Hc) as (p & d & n & ->).
    simpl. destruct d.
    + exists p, n. reflexivity.
    + destruct (IH (i + slice_size)%nat p (after_queries n c) (fault_free_after n c Hc))
        as (p' & m & ->).
      exists p', (m + n)%nat. rewrite after_queries_add. reflexivity.
Qed.

Lemma resolve_article_revision_returns a prev c :
  fault_free c = true ->
  exists r n, resolve_article_revision db a prev c = (Returned r, after_queries n c).
Proof.
  intros Hc. unfold resolve_article_revision.
  set (a' := set_talkpagerev a prev).
  unfold db_attempts at 1.
  rewrite (retry_first_attempt _ _ _ _ _ _ _ (recent_try_fault_free db a' prev None c Hc)).
  change (db_attempts <=? 0)%nat with false. cbv iota.
  set (v := foldl assign_revision None (Query.recent_revquery db (pageid a') prev)).
  destruct (truthy v) eqn:Hv; cbv iota beta delta [negb].
  - rewrite Hv. cbv iota beta delta [negb]. eexists _, 1%nat. reflexivity.
  - unfold db_attempts at 1.
    rewrite (retry_first_attempt _ _ _ _ _ _ _
               (next_try_fault_free db a' prev v _ (fault_free_after 1 c Hc))).
    rewrite after_queries_add. clear Hv.
    destruct (truthy (foldl assign_revision v _)); cbv iota beta delta [negb];
      eexists _, _; reflexivity.
Qed.

Lemma clean_article_returns a c start_idx :
  (forall revisions, answers_requested site revisions) ->
  wp10_scale !! PyStr.lower (class a) = Some start_idx ->
  fault_free c = true ->
  exists r n,
    clean_article filter_templates site db a c
    = (Returned r, after_queries n (snd (ping_or_reconnect c))).
Proof.
  intros Hsite Hclass Hc.
  rewrite (clean_article_fault_free filter_templates site db a c start_idx Hclass Hc).
  set (c0 := snd (ping_or_reconnect c)).
  assert (fault_free c0 = true) as Hc0 by (unfold c0; rewrite fault_free_ping; exact Hc).
  destruct (talk_revisions db (with_latest db a)) as [|rev0 revs]; [eauto|].
  unfold resolve, scan.
  destruct (scan_loop_returns start_idx (rev0 :: revs) Hsite
              (List.length (rev0 :: revs)) 0%nat (-1) (after_queries 2 c0)
              (fault_free_after 2 c0 Hc0)) as (p & n & ->).
  rewrite after_queries_add.
  destruct (p <? 0); [eauto|].
  destruct (resolve_article_revision_returns (with_latest db a) p (after_queries (n + 2) c0))
    as (r & m & ->); [apply fault_free_after, Hc0|].
  rewrite after_queries_add. eauto.
Qed.

Lemma write_articles_returns :
  (forall revisions, answers_requested site revisions) ->
  forall articles outfile c,
    Forall (fun a => is_Some (wp10_scale !! PyStr.lower (class a))) articles ->
    fault_free c = true ->
    exists rows c',
      write_articles filter_templates site db articles outfile c
      = (Finished (outfile ++ rows), c')
      /\ List.length rows = List.length articles
      /\ fault_free c' = true.
Proof.
  intros Hsite articles.
  induction articles as [|article rest IH]; intros outfile c Hall Hc.
  - exists [], c. rewrite app_nil_r. auto.
  - apply Forall_cons in Hall as [[start_idx Hclass] Hall]. simpl.
    destruct (clean_article_returns article c start_idx Hsite Hclass Hc) as (r & n & ->).
    destruct (IH (outfile ++ [r])%list (after_queries n (snd (ping_or_reconnect c))) Hall)
      as (rows & c' & -> & Hlen & Hc').
    { apply fault_free_after. rewrite fault_free_ping. exact Hc. }
    exists (r :: rows), c'. rewrite <- app_assoc. simpl. auto.
Qed.

(** X29. A run over a dataset whose classes are all on the scale, on a
    connection without faults and with an API that answers every
    request with requested revisions only, raises nothing: it comes to
    its end with one row written for each record, and the connection
    is still without faults. *)
Theorem run_on_answering_services_finishes (articles : list articledata) (c : conn) :
  (forall revisions, answers_requested site revisions) ->
  Forall (fun a => is_Some (wp10_scale !! PyStr.lower (class a))) articles ->
  fault_free c = true ->
  exists outfile c',
    clean_training_set filter_templates site db articles c = (Finished outfile, c')
    /\ List.length outfile = List.length articles
    /\ fault_free c' = true.
Proof.
  intros Hsite Hall Hc. unfold clean_training_set.
  destruct (write_articles_returns Hsite articles [] c Hall Hc) as (rows & c' & H & Hlen & Hc').
  exists rows, c'. auto.
Qed.

End HealthyRun.

(** * The further properties on the small wiki *)

Section FurtherOnTheExample.

Import Example Cases.

(** X3, on a banner whose parameters are written with capitals and
    white space. *)
Lemma assessments_are_normalised_witness :
  let temp := {| temp_name := "WikiProject Foo";
                 temp_params := [("class", " B "); ("importance", "High ")] |} in
  let a := {| rating := "b"; importance := Some "high";
              project := Some "wikiproject foo" |} in
  assess_template temp = Some a
  /\ PyStr.lower (rating a) = rating a /\ PyStr.strip (rating a) = rating a
  /\ project a = Some (PyStr.lower (temp_name temp)).
Proof.
  intros temp a.
  assert (assess_template temp = Some a) as H by (vm_compute; reflexivity).
  split; [exact H|].
  destruct (assessments_are_normalised temp a H) as (Hlow & Hstrip & _ & Hproject).
  auto.
Defined.

(** X4, on the banner of class B. *)
Lemma revision_index_is_largest_rating_witness :
  let assessments :=
    get_assessments filter_templates "{{WikiProject Foo|class=B|importance=High}}" in
  map_ratings assessments [] = [3]
  /\ 0 <= list_max 3 [] <= 6.
Proof.
  intros assessments.
  assert (map_ratings assessments [] = [3]) as H by (vm_compute; reflexivity).
  split; [exact H|].
  exact (proj2 (proj2 (revision_index_is_largest_rating assessments 3 [] H))).
Defined.

(** X6, on revision 21: the answer after a lost connection is the
    answer of the run without fault. *)
Lemma is_reverted_answer_ignores_faults_witness :
  let c := with_faults [Some OperationalError] in
  is_reverted db 21 default_radius c
  = (Ok (Some true), snd (is_reverted db 21 default_radius c))
  /\ fault_free c0 = true
  /\ is_reverted db 21 default_radius c0
     = (Ok (Some true), after_queries (revert_queries db 21) c0).
Proof.
  intros c.
  assert (is_reverted db 21 default_radius c
          = (Ok (Some true), snd (is_reverted db 21 default_radius c))) as H
    by (vm_compute; reflexivity).
  assert (fault_free c0 = true) as Hc by reflexivity.
  split; [exact H|]. split; [exact Hc|].
  exact (is_reverted_answer_ignores_faults db 21 default_radius c _ c0 true H Hc).
Defined.

(** X7, on revision 21 with the radii 1 and 15. *)
Lemma is_reverted_monotone_in_radius_witness :
  (1 <= default_radius)%nat
  /\ is_reverted db 21 1 c0 = (Ok (Some true), after_queries 3 c0)
  /\ forall b c', is_reverted db 21 default_radius c0 = (Ok (Some b), c') -> b = true.
Proof.
  assert (1 <= default_radius)%nat as Hle by (unfold default_radius; lia).
  assert (is_reverted db 21 1 c0 = (Ok (Some true), after_queries 3 c0)) as H
    by (vm_compute; reflexivity).
  split; [exact Hle|]. split; [exact H|].
  intros b c' Hb.
  exact (is_reverted_monotone_in_radius db 21 1 default_radius c0 _ c0 c' b Hle H Hb).
Defined.

(** X8, on revision 21, which a radius of 15 finds reverted. *)
Lemma is_reverted_radius_zero_witness :
  fst (is_reverted db 21 0 c0) = Ok (Some false)
  /\ (Some false = Some false \/ Some false = @None bool).
Proof.
  assert (fst (is_reverted db 21 0 c0) = Ok (Some false)) as H
    by (vm_compute; reflexivity).
  split; [exact H|].
  exact (is_reverted_radius_zero db 21 c0 (Some false) H).
Defined.

(** X10, on the three revisions of the talk page. *)
Lemma get_revisions_keeps_the_revisions_witness :
  get_revisions site tp_revs = Ok (List.map fill tp_revs)
  /\ List.map tp_id (List.map fill tp_revs) = List.map tp_id tp_revs
  /\ List.map tp_timestamp (List.map fill tp_revs) = List.map tp_timestamp tp_revs.
Proof.
  assert (get_revisions site tp_revs = Ok (List.map fill tp_revs)) as H
    by (vm_compute; reflexivity).
  split; [exact H|].
  destruct (get_revisions_keeps_the_revisions site tp_revs (List.map fill tp_revs) H)
    as (Hids & Hts & _).
  split; [exact Hids | exact Hts].
Defined.

(** X11, on the API that answers in two responses. *)
Lemma get_revisions_reads_last_query_witness :
  (forall ids, last_query (site ids) = last_query (continued_site ids))
  /\ get_revisions site tp_revs = get_revisions continued_site tp_revs.
Proof.
  assert (forall ids, last_query (site ids) = last_query (continued_site ids)) as H
    by (intros ids; reflexivity).
  split; [exact H|].
  exact (get_revisions_reads_last_query site continued_site tp_revs H).
Defined.

(** X15, on a connection lost three times. *)
Lemma metadata_query_gives_up_after_three_witness :
  let c := with_faults [Some OperationalError; Some OperationalError;
                        Some OperationalError] in
  wp10_scale !! PyStr.lower (class (article "B")) = Some 3
  /\ exists c',
       clean_article filter_templates site db (article "B") c
       = (Returned (article "B"), c')
       /\ executed c' = 3%nat.
Proof.
  intros c.
  assert (wp10_scale !! PyStr.lower (class (article "B")) = Some 3) as Hclass
    by (vm_compute; reflexivity).
  split; [exact Hclass|].
  destruct (metadata_query_gives_up_after_three filter_templates site db
              (article "B") c 3 [] Hclass eq_refl) as (c' & Hrun & _ & Hexec & _).
  exists c'. split; [exact Hrun | exact Hexec].
Defined.

(** X16, on the record of the example with the boundary 21. *)
Lemma article_revision_query_gives_up_with_boundary_set_witness :
  let c := with_faults [Some OperationalError; Some OperationalError;
                        Some OperationalError] in
  let a := with_latest db (article "B") in
  exists c',
    resolve_article_revision db a 21 c = (Returned (set_talkpagerev a 21), c')
    /\ revid (set_talkpagerev a 21) = Some 11.
Proof.
  intros c a.
  destruct (article_revision_query_gives_up_with_boundary_set db a 21 c [] eq_refl)
    as (c' & Hrun & Hrevid & _).
  exists c'. split; [exact Hrun|]. rewrite Hrevid. reflexivity.
Defined.

(** X17, on a connection lost once. *)
Lemma lost_connections_at_metadata_query_are_masked_witness :
  (1 <= 2)%nat
  /\ fst (clean_article filter_templates site db (article "B")
            (with_faults [Some OperationalError]))
     = fst (clean_article filter_templates site db (article "B") c0).
Proof.
  assert (1 <= 2)%nat as Hk by lia.
  split; [exact Hk|].
  apply (lost_connections_at_metadata_query_are_masked filter_templates site db
           (article "B") (with_faults [Some OperationalError]) c0 1 [] Hk).
  - reflexivity.
  - intros e. discriminate.
  - reflexivity.
Defined.

(** X18, on the record of the example: cleaning the record that a call
    left gives it again. *)
Lemma clean_article_depends_on_pageid_and_class_witness :
  wp10_scale !! PyStr.lower (class (article "B")) = Some 3
  /\ Query.latest_query db (pageid (article "B")) <> []
  /\ fst (clean_article filter_templates site db
            (record_of (fst (clean_article filter_templates site db (article "B") c0))) c0)
     = fst (clean_article filter_templates site db (article "B") c0).
Proof.
  assert (wp10_scale !! PyStr.lower (class (article "B")) = Some 3) as Hclass
    by (vm_compute; reflexivity).
  assert (Query.latest_query db (pageid (article "B")) <> []) as Hrows
    by (vm_compute; discriminate).
  assert (fault_free c0 = true) as Hc by reflexivity.
  split; [exact Hclass|]. split; [exact Hrows|].
  exact (proj2 (clean_article_depends_on_pageid_and_class filter_templates site db
                  (article "B") c0 3 Hclass Hrows Hc) c0 Hc).
Defined.

(** The fetch from the API of the vandalised talk page *)
Lemma noise_fetches : fetches noise_site tp_revs (List.map noise_fill tp_revs).
Proof.
  split; [reflexivity|]. intros [|k]; [vm_compute; reflexivity|].
  rewrite !drop_ge by (simpl; unfold slice_size; lia). reflexivity.
Qed.

(** X19, on the vandalised talk page: revision 21 is passed over and
    the boundary is revision 20. *)
Lemma scan_passes_over_reverted_revisions_witness :
  fault_free c0 = true
  /\ read_revision filter_templates
       (noise_fill {| tp_id := 21; tp_timestamp := 60; tp_content := None |}) = Unassessed
  /\ reverted db 21 default_radius = true
  /\ exists n, scan filter_templates noise_site db 3 tp_revs c0
               = (Ok 20, after_queries n c0).
Proof.
  assert (fault_free c0 = true) as Hc by reflexivity.
  split; [exact Hc|]. split; [vm_compute; reflexivity|]. split; [vm_compute; reflexivity|].
  apply (scan_passes_over_reverted_revisions filter_templates noise_site db 3
           tp_revs (List.map noise_fill tp_revs)
           [noise_fill {| tp_id := 22; tp_timestamp := 70; tp_content := None |};
            noise_fill {| tp_id := 21; tp_timestamp := 60; tp_content := None |}]
           [] []
           (noise_fill {| tp_id := 20; tp_timestamp := 50; tp_content := None |})
           c0).
  - exact noise_fetches.
  - exact Hc.
  - reflexivity.
  - constructor; [left; vm_compute; reflexivity|].
    constructor; [|constructor].
    right. right. split; vm_compute; reflexivity.
  - vm_compute; reflexivity.
  - constructor.
  - left. reflexivity.
Defined.

(** X20, on the record of class C: the newest earlier revision has
    class B. *)
Lemma scan_without_boundary_keeps_latest_witness :
  fault_free c0 = true
  /\ exists n,
       resolve filter_templates site db 2 (with_latest db (article "C")) tp_revs c0
       = (Returned (with_latest db (article "C")), after_queries n c0).
Proof.
  assert (fault_free c0 = true) as Hc by reflexivity.
  split; [exact Hc|].
  destruct (scan_without_boundary_keeps_latest filter_templates site db 2
              tp_revs (List.map fill tp_revs) [] (List.map fill tp_revs)
              (with_latest db (article "C")) c0) as (n & _ & Hresolve).
  - exact example_fetches.
  - exact Hc.
  - reflexivity.
  - constructor.
  - right. eexists _, _. split; [reflexivity|].
    left. exists 3. split; [vm_compute; reflexivity | discriminate].
  - exists n. exact Hresolve.
Defined.

(** X21, on the boundary 21, written at 60, before the first revision
    of the article. *)
Lemma article_revision_is_latest_before_or_first_after_witness :
  fault_free c0 = true
  /\ (forall row, In row (revision db) -> rev_id row <> 0)
  /\ exists r n,
       resolve_article_revision db (with_latest db (article "B")) 21 c0
       = (Returned r, after_queries n c0).
Proof.
  assert (fault_free c0 = true) as Hc by reflexivity.
  assert (forall row, In row (revision db) -> rev_id row <> 0) as Hids.
  { intros row [<-|[<-|[<-|[<-|[<-|[<-|[]]]]]]]; discriminate. }
  split; [exact Hc|]. split; [exact Hids|].
  destruct (article_revision_is_latest_before_or_first_after db
              (with_latest db (article "B")) 21 c0 Hc Hids) as (r & n & Hrun & _).
  exists r, n. exact Hrun.
Defined.

(** X22, on a page id that the wiki does not have. *)
Lemma page_without_talk_page_is_left_as_it_came_witness :
  wp10_scale !! PyStr.lower (class unknown_article) = Some 3
  /\ Query.latest_query db (pageid unknown_article) = []
  /\ (revid unknown_article = None \/ talkpageid unknown_article = None)
  /\ record_of (fst (clean_article filter_templates site db unknown_article
                       (with_faults [Some OperationalError])))
     = unknown_article.
Proof.
  assert (wp10_scale !! PyStr.lower (class unknown_article) = Some 3) as Hclass
    by (vm_compute; reflexivity).
  assert (Query.latest_query db (pageid unknown_article) = []) as Hrows
    by (vm_compute; reflexivity).
  assert (revid unknown_article = None \/ talkpageid unknown_article = None) as Hnull
    by (left; reflexivity).
  split; [exact Hclass|]. split; [exact Hrows|]. split; [exact Hnull|].
  exact (proj1 (page_without_talk_page_is_left_as_it_came filter_templates site db
                  unknown_article (with_faults [Some OperationalError]) 3
                  Hclass Hrows Hnull)).
Defined.

(** X27, on the API whose responses have no entry ['query']. *)
Lemma get_revisions_raises_key_error_of_a_reply_witness :
  get_revisions silent_site tp_revs = Raise KeyError
  /\ exists i,
       submit_all (silent_site (requested tp_revs i)) None = None
       \/ exists q rv,
            submit_all (silent_site (requested tp_revs i)) None = Some q
            /\ In rv (listed q)
            /\ ~ In (api_revid rv) (List.map tp_id tp_revs).
Proof.
  assert (get_revisions silent_site tp_revs = Raise KeyError) as H
    by (vm_compute; reflexivity).
  split; [exact H|].
  exact (proj2 (get_revisions_raises_key_error_of_a_reply silent_site tp_revs KeyError H)).
Defined.

(** X28, on the scan of the example, whose boundary is revision 21. *)
Lemma scan_boundary_carries_the_class_witness :
  scan filter_templates site db 3 tp_revs c0 = (Ok 21, c0)
  /\ (21 = -1
      \/ exists newer boundary older,
           List.map fill tp_revs = (newer ++ boundary :: older)%list
           /\ tp_id boundary = 21
           /\ read_revision filter_templates boundary = Rated 3
           /\ Forall (fun rev => forall cur_idx,
                        read_revision filter_templates rev = Rated cur_idx ->
                        cur_idx = 3) newer).
Proof.
  assert (scan filter_templates site db 3 tp_revs c0 = (Ok 21, c0)) as H
    by (vm_compute; reflexivity).
  split; [exact H|].
  exact (scan_boundary_carries_the_class filter_templates site db 3 tp_revs
           (List.map fill tp_revs) c0 c0 21 example_fetches H).
Defined.

(** X29, on a dataset of two records. *)
Lemma run_on_answering_services_finishes_witness :
  Forall (fun a => is_Some (wp10_scale !! PyStr.lower (class a)))
    [article "B"; article "GA"]
  /\ fault_free c0 = true
  /\ exists outfile c',
       clean_training_set filter_templates site db [article "B"; article "GA"] c0
       = (Finished outfile, c')
       /\ List.length outfile = 2%nat.
Proof.
  assert (Forall (fun a => is_Some (wp10_scale !! PyStr.lower (class a)))
            [article "B"; article "GA"]) as Hall.
  { repeat constructor; eexists; vm_compute; reflexivity. }
  assert (fault_free c0 = true) as Hc by reflexivity.
  split; [exact Hall|]. split; [exact Hc|].
  destruct (run_on_answering_services_finishes filter_templates site db
              [article "B"; article "GA"] c0 example_site_answers Hall Hc)
    as (outfile & c' & Hrun & Hlen & _).
  exists outfile, c'. split; [exact Hrun | exact Hlen].
Defined.

End FurtherOnTheExample.

(** * The revert test and its windows *)






Section RevertAnswer.

Variables (db : database) (revid : Z) (radius : nat) (t p : Z).
Hypothesis Hcur : last (Query.cur_query db revid) = Some (t, p).
Hypothesis Hpage : p <> 0.


End RevertAnswer.

Section FaultsOnTheExample.

Import Example Cases.



(** C9, counterexample. The API answers without an entry ['query']: it
    returns no content for revision 22 of the batch, and the fetch
    raises [KeyError] instead of returning the batch with the content
    of the revision absent. *)
Lemma absent_content_fetch_raises :
  In 22 (List.map tp_id tp_revs)
  /\ (forall rev, In rev tp_revs -> tp_content rev = None)
  /\ withholds silent_site tp_revs 22
  /\ get_revisions silent_site tp_revs = Raise KeyError
  /\ ~ exists revisions', get_revisions silent_site tp_revs = Ok revisions'.
Proof.
  assert (get_revisions silent_site tp_revs = Raise KeyError) as H
    by (vm_compute; reflexivity).
  split; [simpl; auto|]. split.
  { intros rev [<-|[<-|[<-|[]]]]; reflexivity. }
  split.
  { intros i q rv Hq. simpl in Hq. discriminate. }
  split; [exact H|]. intros [revisions' H']. rewrite H in H'. discriminate.
Qed.

End FaultsOnTheExample.
